(** * Terrain analysis and constrained placement engine of permadash (src/App.js)

    A shallow embedding of [DEMUtils], [BoundaryUtils], [pointInPolygon],
    [getBoundaryApproximateSize] and of the three React callbacks that touch
    the element list ([onMapClick], [autoDesignLayout], [onElementDrag]);
    of the rest of the site model ([sampleSoilAt], [sampleWatershedAt],
    the climate fallback, [generateFloodRiskMap], [getMonsoonAdvisory],
    [recommendPlants] over [PLANTS]), of [CarbonCalculator], of the
    resource exchange of [CommunityUtils] and of [NaturalPatterns] with
    [applyPattern]; followed by the properties the specification states
    about the former, and by properties of the latter.

    Conventions of the embedding.
    - A JavaScript number is a value of [num]: an exact rational, one of the
      two infinities, or NaN.  Arithmetic follows IEEE 754 on the special
      values (0/0 = NaN, x/0 = +-Infinity, Infinity - Infinity = NaN, every
      comparison with NaN is false); rounding of finite results and the sign
      of zero are not modelled.
    - [Math.sin], [Math.cos], [Math.sqrt] and [Math.atan2] are parameters
      on the rationals, lifted to [num] the way the language defines them on
      the special values.  [Math.random] is a stream of draws read through a
      counter, [Date.now] a value fixed for the length of one callback.
    - A React state cell is a field of a record; a callback is a function
      from the state it closed over to the next state. *)

From Stdlib Require Import QArith Qround Qabs Qminmax ZArith List String Bool Lia Lqa Arith.
From Stdlib Require Import Permutation Sorted.
Import ListNotations.

Set Implicit Arguments.

(** ** JavaScript numbers *)

Module JS.

Inductive num : Type :=
| NaN
| PInf
| NInf
| Fin (q : Q).

Definition of_Z (z : Z) : num := Fin (inject_Z z).
Definition of_nat (n : nat) : num := of_Z (Z.of_nat n).

(** Sign of a rational, zero counted as positive zero. *)
Definition Qpos_or_zero (q : Q) : bool := Qle_bool 0 q.
Definition Qis_zero (q : Q) : bool := Qeq_bool q 0.

Definition opp (a : num) : num :=
  match a with
  | NaN => NaN
  | PInf => NInf
  | NInf => PInf
  | Fin q => Fin (- q)
  end.

Definition add (a b : num) : num :=
  match a, b with
  | NaN, _ | _, NaN => NaN
  | PInf, NInf | NInf, PInf => NaN
  | PInf, _ | _, PInf => PInf
  | NInf, _ | _, NInf => NInf
  | Fin x, Fin y => Fin (x + y)
  end.

Definition sub (a b : num) : num := add a (opp b).

Definition signed_inf (positive : bool) : num := if positive then PInf else NInf.

Definition mul (a b : num) : num :=
  match a, b with
  | NaN, _ | _, NaN => NaN
  | Fin x, Fin y => Fin (x * y)
  | PInf, PInf | NInf, NInf => PInf
  | PInf, NInf | NInf, PInf => NInf
  | PInf, Fin y | Fin y, PInf =>
      if Qis_zero y then NaN else signed_inf (Qpos_or_zero y)
  | NInf, Fin y | Fin y, NInf =>
      if Qis_zero y then NaN else signed_inf (negb (Qpos_or_zero y))
  end.

Definition div (a b : num) : num :=
  match a, b with
  | NaN, _ | _, NaN => NaN
  | PInf, PInf | PInf, NInf | NInf, PInf | NInf, NInf => NaN
  | PInf, Fin y => signed_inf (Qpos_or_zero y)
  | NInf, Fin y => signed_inf (negb (Qpos_or_zero y))
  | Fin _, PInf | Fin _, NInf => Fin 0
  | Fin x, Fin y =>
      if Qis_zero y
      then (if Qis_zero x then NaN else signed_inf (Qpos_or_zero x))
      else Fin (x / y)
  end.

(** Three-way comparison; [None] as soon as one side is NaN. *)
Definition compare (a b : num) : option comparison :=
  match a, b with
  | NaN, _ | _, NaN => None
  | PInf, PInf | NInf, NInf => Some Eq
  | PInf, _ | _, NInf => Some Gt
  | NInf, _ | _, PInf => Some Lt
  | Fin x, Fin y => Some (x ?= y)
  end.

Definition ltb (a b : num) : bool :=
  match compare a b with Some Lt => true | _ => false end.
Definition gtb (a b : num) : bool := ltb b a.
Definition leb (a b : num) : bool :=
  match compare a b with Some Lt | Some Eq => true | _ => false end.
Definition geb (a b : num) : bool := leb b a.
Definition eqb (a b : num) : bool :=
  match compare a b with Some Eq => true | _ => false end.

(** [isFinite]. *)
Definition is_finite (a : num) : bool :=
  match a with Fin _ => true | _ => false end.

Definition is_nan (a : num) : bool :=
  match a with NaN => true | _ => false end.

(** ToBoolean on a number: false on zero and on NaN. *)
Definition truthy (a : num) : bool :=
  match a with
  | NaN => false
  | Fin q => negb (Qis_zero q)
  | _ => true
  end.

(** [a || b] on numbers. *)
Definition or_else (a b : num) : num := if truthy a then a else b.

(** Template-literal rendering is injective on numbers up to the sign of
    zero, and renders NaN as one string: two renderings are equal exactly
    when [same_string] holds. *)
Definition same_string (a b : num) : bool :=
  match a, b with
  | NaN, NaN => true
  | _, _ => eqb a b
  end.

Definition Math_min (a b : num) : num :=
  match compare a b with
  | None => NaN
  | Some Gt => b
  | Some _ => a
  end.

Definition Math_max (a b : num) : num :=
  match compare a b with
  | None => NaN
  | Some Lt => b
  | Some _ => a
  end.

Definition Math_abs (a : num) : num :=
  match a with
  | NaN => NaN
  | PInf | NInf => PInf
  | Fin q => Fin (Qabs q)
  end.

Definition Math_floor (a : num) : num :=
  match a with
  | Fin q => of_Z (Qfloor q)
  | other => other
  end.

Definition Math_ceil (a : num) : num :=
  match a with
  | Fin q => of_Z (Qceiling q)
  | other => other
  end.

(** [Math.pow(x, 2)]. *)
Definition Math_pow2 (a : num) : num := mul a a.

(** [Math.PI] and [Number.EPSILON] are the doubles themselves, hence
    rationals: 884279719003555 / 2^48 and 2^-52. *)
Definition Math_PI_Q : Q := 884279719003555 # 281474976710656.
Definition Math_PI : num := Fin Math_PI_Q.
Definition Number_EPSILON : num := Fin (1 # 4503599627370496).

(** [x.toFixed(1)] followed by [parseFloat]: the nearest multiple of 1/10,
    a tie going away from zero (toFixed strips the sign first and then
    picks the larger of two equally near integers); NaN and the infinities
    print and parse back as themselves. *)
Definition round1_nonneg (q : Q) : Q :=
  Qred (inject_Z (Qfloor (q * 10 + (1 # 2))) / 10).

Definition round1Q (q : Q) : Q :=
  if Qle_bool 0 q then round1_nonneg q else Qred (- round1_nonneg (- q)).

Definition toFixed1 (a : num) : num :=
  match a with
  | Fin q => Fin (round1Q q)
  | other => other
  end.

Declare Scope num_scope.
Delimit Scope num_scope with num.
Bind Scope num_scope with num.
Infix "+" := add : num_scope.
Infix "-" := sub : num_scope.
Infix "*" := mul : num_scope.
Infix "/" := div : num_scope.
Infix "<?" := ltb : num_scope.
Infix ">?" := gtb : num_scope.
Infix "<=?" := leb : num_scope.
Infix ">=?" := geb : num_scope.
Infix "==?" := eqb (at level 70) : num_scope.

(** Decimal literal [n / 10^k]. *)
Definition dec (n : Z) (k : nat) : num := Fin (Qred (n # Pos.of_nat (10 ^ k))).

End JS.

Import JS.
Local Open Scope string_scope.
Local Open Scope list_scope.
Local Open Scope num_scope.

(** ** The platform: [Math] and [Math.random] *)

Record MathLib : Type := {
  sinQ : Q -> Q;
  cosQ : Q -> Q;
  sqrtQ : Q -> Q;
  atan2Q : Q -> Q -> Q
}.

(** What the proofs use of the four functions. *)
Record MathLib_ok (M : MathLib) : Prop := {
  sin_range : forall x, (-1 <= sinQ M x <= 1)%Q;
  cos_range : forall x, (-1 <= cosQ M x <= 1)%Q;
  sqrt_nonneg : forall x, (0 <= x -> 0 <= sqrtQ M x)%Q;
  atan2_range : forall y x, (- Math_PI_Q <= atan2Q M y x <= Math_PI_Q)%Q
}.

Definition Math_sin (M : MathLib) (a : num) : num :=
  match a with Fin q => Fin (sinQ M q) | _ => NaN end.

Definition Math_cos (M : MathLib) (a : num) : num :=
  match a with Fin q => Fin (cosQ M q) | _ => NaN end.

Definition Math_sqrt (M : MathLib) (a : num) : num :=
  match a with
  | Fin q => if Qle_bool 0 q then Fin (sqrtQ M q) else NaN
  | PInf => PInf
  | _ => NaN
  end.

Definition Math_atan2 (M : MathLib) (y x : num) : num :=
  match y, x with
  | NaN, _ | _, NaN => NaN
  | Fin b, Fin a => Fin (atan2Q M b a)
  | PInf, PInf => Math_PI / of_Z 4
  | PInf, NInf => of_Z 3 * Math_PI / of_Z 4
  | PInf, Fin _ => Math_PI / of_Z 2
  | NInf, PInf => opp (Math_PI / of_Z 4)
  | NInf, NInf => opp (of_Z 3 * Math_PI / of_Z 4)
  | NInf, Fin _ => opp (Math_PI / of_Z 2)
  | Fin _, PInf => Fin 0
  | Fin b, NInf => if Qle_bool 0 b then Math_PI else opp Math_PI
  end.

(** The draws of [Math.random], in the order they are made.  A function
    that draws takes the index of its first draw and returns the index of
    the next one. *)
Definition Random : Type := nat -> Q.

Definition Random_ok (rnd : Random) : Prop := forall n, (0 <= rnd n < 1)%Q.

Definition Math_random (rnd : Random) (k : nat) : num := Fin (rnd k).

(** ** Data *)

(** A two-element array of numbers: a GeoJSON position [[lng, lat]] or a
    Leaflet position [[lat, lng]], as the context says. *)
Definition Pair : Type := (num * num)%type.

(** A terrain sample.  [slope] and [aspect] are absent from the records
    [generateDEM] makes and present in those [calculateTopography] makes. *)
Record Sample : Type := {
  lat : num;
  lng : num;
  elevation : num;
  slope : option num;
  aspect : option num
}.

Definition demPoint (la ln e : num) : Sample :=
  {| lat := la; lng := ln; elevation := e; slope := None; aspect := None |}.

(** [{...point, slope: s, aspect: a}]. *)
Definition withTopography (point : Sample) (s a : num) : Sample :=
  {| lat := lat point; lng := lng point; elevation := elevation point;
     slope := Some s; aspect := Some a |}.

(** The GeoJSON feature the drawing layer hands over: [coordinates] holds
    the outer ring alone, a list of [[lng, lat]] positions. *)
Record Geometry : Type := {
  gtype : string;
  ring : list Pair
}.

Record Feature : Type := {
  ftype : string;
  geometry : option Geometry
}.

Definition polygonFeature (r : list Pair) : Feature :=
  {| ftype := "Feature"; geometry := Some {| gtype := "Polygon"; ring := r |} |}.

(** What a caller may pass where a boundary is expected: [null], a feature,
    or (as [onMapClick] does) a bare array of positions. *)
Inductive BoundaryArg : Type :=
| BNull
| BFeature (f : Feature)
| BArray (a : list Pair).

Definition boundaryArg (b : option Feature) : BoundaryArg :=
  match b with Some f => BFeature f | None => BNull end.

(** [boundary && boundary.geometry && boundary.geometry.coordinates],
    returning [coordinates[0]] when the three are there.  An array has no
    [geometry] property. *)
Definition outerRing (b : BoundaryArg) : option (list Pair) :=
  match b with
  | BFeature f =>
      match geometry f with
      | Some g => Some (ring g)
      | None => None
      end
  | BNull | BArray _ => None
  end.

(** What a caller may pass where a point is expected: an array or an object
    with [lat] and [lng]. *)
Inductive PointArg : Type :=
| PArr (p0 p1 : num)
| PObj (plat plng : num).

(** ** Helpers *)

(** [pointInPolygon(point, vs)]: ray casting; [j] trails [i] by one and
    starts at the last vertex. *)
Definition crosses (x y : num) (vi vj : Pair) : bool :=
  let '(xi, yi) := vi in
  let '(xj, yj) := vj in
  negb (Bool.eqb (yi >? y) (yj >? y))
  && (x <? ((xj - xi) * (y - yi)) / (yj - yi + Number_EPSILON) + xi).

Fixpoint pointInPolygon_from (x y : num) (vj : Pair) (vs : list Pair) (inside : bool) : bool :=
  match vs with
  | [] => inside
  | vi :: rest =>
      pointInPolygon_from x y vi rest
        (if crosses x y vi vj then negb inside else inside)
  end.

Definition pointInPolygon (point : Pair) (vs : list Pair) : bool :=
  let '(x, y) := point in
  pointInPolygon_from x y (last vs (NaN, NaN)) vs false.

(** The bounding-box loop that [generateDEM], [generateRandomPointInBoundary]
    and [getBoundaryApproximateSize] each run over the ring. *)
Record Box : Type := {
  minLat : num;
  maxLat : num;
  minLng : num;
  maxLng : num
}.

Definition boundingBox (coords : list Pair) : Box :=
  fold_left
    (fun b '(ln, la) =>
       {| minLat := Math_min (minLat b) la;
          maxLat := Math_max (maxLat b) la;
          minLng := Math_min (minLng b) ln;
          maxLng := Math_max (maxLng b) ln |})
    coords
    {| minLat := PInf; maxLat := NInf; minLng := PInf; maxLng := NInf |}.

(** ** BoundaryUtils *)

Module BoundaryUtils.

Definition isPointInBoundary (point : PointArg) (boundary : BoundaryArg) : bool :=
  match outerRing boundary with
  | None => true
  | Some coordinates =>
      let '(ln, la) :=
        match point with
        | PArr p0 p1 => (p1, p0)
        | PObj plat plng => (plng, plat)
        end in
      pointInPolygon (ln, la) coordinates
  end.

(** Applied here to arrays of samples only, so [point.lng] and [point.lat]
    are defined. *)
Definition filterPointsInBoundary (points : list Sample) (boundary : BoundaryArg) : list Sample :=
  match outerRing boundary with
  | None => points
  | Some coordinates =>
      filter (fun point => pointInPolygon (lng point, lat point) coordinates) points
  end.

(** The result of [generateRandomPointInBoundary]: the point, and whether
    the warning of the fallback was logged. *)
Record Sampled : Type := {
  sampled : Pair;
  warned : bool
}.

Section Sampling.
Variable rnd : Random.
Variable coordinates : list Pair.

Definition candidate (k : nat) : Pair :=
  let b := boundingBox coordinates in
  let ln := minLng b + Math_random rnd k * (maxLng b - minLng b) in
  let la := minLat b + Math_random rnd (S k) * (maxLat b - minLat b) in
  (la, ln).

Definition midpoint : Pair :=
  let b := boundingBox coordinates in
  (minLat b + (maxLat b - minLat b) / of_Z 2,
   minLng b + (maxLng b - minLng b) / of_Z 2).

(** The do-while loop, by the number of attempts still allowed: with
    [attempts = 1000 - remaining] on entry, [attempts++] makes
    [attempts > 1000] true exactly when [remaining] is 0.  Each turn draws
    twice, the turn that gives up included. *)
Fixpoint rejectionLoop (remaining k : nat) : Sampled * nat :=
  let point := candidate k in
  match remaining with
  | O => ({| sampled := midpoint; warned := true |}, (k + 2)%nat)
  | S remaining' =>
      if pointInPolygon (snd point, fst point) coordinates
      then ({| sampled := point; warned := false |}, (k + 2)%nat)
      else rejectionLoop remaining' (k + 2)%nat
  end.

End Sampling.

Definition defaultPoint : Pair := (dec 1085 2, dec 7627 2).

Definition generateRandomPointInBoundary (rnd : Random) (boundary : BoundaryArg) (k : nat)
  : Sampled * nat :=
  match outerRing boundary with
  | None => ({| sampled := defaultPoint; warned := false |}, k)
  | Some coordinates => rejectionLoop rnd coordinates 1000 k
  end.

Definition calculateCentroid (boundary : BoundaryArg) : Pair :=
  match outerRing boundary with
  | None => defaultPoint
  | Some coordinates =>
      let '(sumLat, sumLng) :=
        fold_left (fun '(sLat, sLng) '(ln, la) => (sLat + la, sLng + ln))
                  coordinates (of_Z 0, of_Z 0) in
      (sumLat / of_nat (List.length coordinates), sumLng / of_nat (List.length coordinates))
  end.

Definition findClosestPointOnSegment (px py x1 y1 x2 y2 : num) : Pair :=
  let A := px - x1 in
  let B := py - y1 in
  let C := x2 - x1 in
  let D := y2 - y1 in
  let dot := A * C + B * D in
  let lenSq := C * C + D * D in
  let param := if negb (lenSq ==? of_Z 0) then dot / lenSq else of_Z (-1) in
  if param <? of_Z 0 then (x1, y1)
  else if param >? of_Z 1 then (x2, y2)
  else (x1 + param * C, y1 + param * D).

Definition calculateDistanceBetweenPoints (M : MathLib) (x1 y1 x2 y2 : num) : num :=
  let dx := x2 - x1 in
  let dy := y2 - y1 in
  Math_sqrt M (dx * dx + dy * dy).

(** The loop over the segments [(coordinates[i], coordinates[i+1])]. *)
Fixpoint closestOverSegments (M : MathLib) (ln la : num) (coordinates : list Pair)
  (minDistance : num) (closestPoint : Pair) : Pair :=
  match coordinates with
  | (x1, y1) :: (((x2, y2) :: _) as rest) =>
      let closest := findClosestPointOnSegment ln la x1 y1 x2 y2 in
      let distance := calculateDistanceBetweenPoints M ln la (fst closest) (snd closest) in
      if distance <? minDistance
      then closestOverSegments M ln la rest distance (snd closest, fst closest)
      else closestOverSegments M ln la rest minDistance closestPoint
  | _ => closestPoint
  end.

(** Called with arrays only; with no ring the point is returned as given. *)
Definition findClosestPointOnBoundary (M : MathLib) (point : Pair) (boundary : BoundaryArg) : Pair :=
  match outerRing boundary with
  | None => point
  | Some coordinates =>
      let '(ln, la) := (snd point, fst point) in
      closestOverSegments M ln la coordinates PInf (la, ln)
  end.

(** *** The sampler as it is written

    The argument as the guard of the source reads it: [boundary],
    [boundary.geometry] and [boundary.geometry.coordinates] may each be
    missing, and [coordinates], when it is there, is an array of rings that
    may be empty. *)
Record RawGeometry : Type := {
  coordinates : option (list (list Pair))
}.

Record RawFeature : Type := {
  rawGeometry : option RawGeometry
}.

(** How a call ends: with a value and the index of the next draw, or with
    the exception it throws. *)
Inductive Outcome : Type :=
| Returned (point : Sampled) (next : nat)
| Raised (error : string).

(** The do-while loop with its counter [attempts] as the source has it,
    entered at the top of the body.  Nothing in the shape of the loop says
    that it ends, so the model counts the turns it is allowed: [None] when
    they run out. *)
Fixpoint sampleLoop (rnd : Random) (ring_ : list Pair) (turns attempts k : nat)
  : option (Sampled * nat) :=
  match turns with
  | O => None
  | S turns' =>
      let b := boundingBox ring_ in
      let ln := minLng b + Math_random rnd k * (maxLng b - minLng b) in
      let la := minLat b + Math_random rnd (S k) * (maxLat b - minLat b) in
      let point := (la, ln) in
      let attempts := S attempts in
      if (1000 <? attempts)%nat
      then Some ({| sampled := (minLat b + (maxLat b - minLat b) / of_Z 2,
                                minLng b + (maxLng b - minLng b) / of_Z 2);
                    warned := true |}, (k + 2)%nat)
      else if negb (pointInPolygon (snd point, fst point) ring_)
      then sampleLoop rnd ring_ turns' attempts (k + 2)%nat
      else Some ({| sampled := point; warned := false |}, (k + 2)%nat)
  end.

(** [generateRandomPointInBoundary(boundary)] on the raw argument.  With
    [coordinates] an empty array the guard passes, [coordinates[0]] is
    undefined and [coordinates.forEach] throws. *)
Definition generateRandomPointInBoundaryRaw (rnd : Random) (boundary : option RawFeature)
  (turns k : nat) : option Outcome :=
  let default := Some (Returned {| sampled := defaultPoint; warned := false |} k) in
  match boundary with
  | None => default
  | Some f =>
      match rawGeometry f with
      | None => default
      | Some g =>
          match coordinates g with
          | None => default
          | Some [] => Some (Raised "TypeError")
          | Some (ring_ :: _) =>
              match sampleLoop rnd ring_ turns 0 k with
              | Some (point, next) => Some (Returned point next)
              | None => None
              end
          end
      end
  end.

(** The raw argument a boundary of the component is: a feature of the
    drawing layer carries its outer ring, an array has no [geometry]. *)
Definition raw (boundary : BoundaryArg) : option RawFeature :=
  match boundary with
  | BNull => None
  | BArray _ => Some {| rawGeometry := None |}
  | BFeature f =>
      Some {| rawGeometry :=
                match geometry f with
                | Some g => Some {| coordinates := Some [ring g] |}
                | None => None
                end |}
  end.

End BoundaryUtils.

(** ** Array primitives *)

(** [Array.prototype.sort(cmp)]: the sort is stable, and [a] goes after [b]
    only when [cmp(a, b) > 0] (a NaN answer counts as 0).  Insertion from
    the right gives that order; for a comparator that is a weak order it is
    the only stable sorted arrangement, so it is what any engine returns. *)
Section Sort.
Variable A : Type.
Variable cmp : A -> A -> num.

Fixpoint insert (x : A) (l : list A) : list A :=
  match l with
  | [] => [x]
  | y :: l' => if cmp x y >? of_Z 0 then y :: insert x l' else x :: l
  end.

Definition sort (l : list A) : list A := fold_right insert [] l.

End Sort.

(** [Math.min(...xs)] and [Math.max(...xs)]. *)
Definition Math_min_of (xs : list num) : num := fold_left Math_min xs PInf.
Definition Math_max_of (xs : list num) : num := fold_left Math_max xs NInf.

(** How often [for (i = 0; i <= points; i++)] runs its body: [None] when it
    never stops. *)
Definition passes (points : num) : option nat :=
  match points with
  | NaN | NInf => Some O
  | PInf => None
  | Fin q => if Qle_bool 0 q then Some (S (Z.to_nat (Qfloor q))) else Some O
  end.

Record Contour : Type := {
  level : num;
  points : list Sample
}.

(** ** DEMUtils *)

Module DEMUtils.

Section Generate.
Variable M : MathLib.
Variable rnd : Random.

(** One cell of the grid over a boundary; [draw] is the index of its
    [Math.random()]. *)
Definition boundaryCell (b : Box) (points : num) (i j draw : nat) : Sample :=
  let latRange := maxLat b - minLat b in
  let lngRange := maxLng b - minLng b in
  let centerLat := (minLat b + maxLat b) / of_Z 2 in
  let centerLng := (minLng b + maxLng b) / of_Z 2 in
  let pointLat := minLat b + (of_nat i / points) * latRange in
  let pointLng := minLng b + (of_nat j / points) * lngRange in
  let distanceFromCenter :=
    Math_sqrt M (Math_pow2 ((pointLat - centerLat) / latRange)
                 + Math_pow2 ((pointLng - centerLng) / lngRange)) in
  let elevation :=
    of_Z 5 + (Math_sin M (pointLat * of_Z 50) * of_Z 3)
           + (Math_cos M (pointLng * of_Z 50) * of_Z 2) in
  let elevation := elevation + (pointLng - minLng b) / lngRange * of_Z 8 in
  let elevation := elevation + (Math_random rnd draw - dec 5 1) * of_Z 2 in
  let elevation := Math_max (of_Z 2) elevation in
  demPoint pointLat pointLng (toFixed1 elevation).

(** One cell of the grid around the anchor; [i] and [j] run from -15. *)
Definition anchorCell (la ln step : num) (i j : Z) (draw : nat) : Sample :=
  let pointLat := la + of_Z i * step in
  let pointLng := ln + of_Z j * step in
  let elevation :=
    of_Z 10 + (of_Z i * dec 3 1)
            + (Math_sin M (pointLat * of_Z 50) * of_Z 2)
            + (Math_random rnd draw * dec 5 1) in
  demPoint pointLat pointLng (toFixed1 elevation).

(** The two nested loops push row by row, one draw per cell, so cell
    [(i, j)] of an [n] by [n] grid takes draw [k + i * n + j]. *)
Definition grid (A : Type) (n : nat) (cell : nat -> nat -> nat -> A) (k : nat) : list A :=
  flat_map (fun i => map (fun j => cell i j (k + i * n + j)%nat) (seq 0 n)) (seq 0 n).

(** [generateDEM(lat, lng, radius, boundary)], from draw [k] on: the
    samples and the next draw, or [None] when the grid loop never ends (a
    latitude range of Infinity). *)
Definition generateDEM (la ln radius : num) (boundary : BoundaryArg) (k : nat)
  : option (list Sample * nat) :=
  match outerRing boundary with
  | Some coords =>
      let b := boundingBox coords in
      let latRange := maxLat b - minLat b in
      let points := Math_max (of_Z 15) (Math_floor (latRange * of_Z 2000)) in
      match passes points with
      | None => None
      | Some n => Some (grid n (boundaryCell b points) k, (k + n * n)%nat)
      end
  | None =>
      let points := 15%nat in
      let step := radius / of_nat points in
      let n := (2 * points + 1)%nat in
      Some (grid n (fun i j => anchorCell la ln step
                                 (Z.of_nat i - Z.of_nat points)
                                 (Z.of_nat j - Z.of_nat points)) k,
            (k + n * n)%nat)
  end.

End Generate.

(** The comparator of [calculateTopography]:
    [a.lat - b.lat || a.lng - b.lng]. *)
Definition byLatThenLng (a b : Sample) : num :=
  or_else (lat a - lat b) (lng a - lng b).

Definition near (tol : num) (p q : Sample) : bool :=
  (Math_abs (lat p - lat q) <? tol) && (Math_abs (lng p - lng q) <? tol).

(** [sortedData.filter(p => p !== point && ...)].  [p !== point] compares
    objects: each sample goes with a tag that stands for the object it is
    (its position in [sortedData], whose slots hold distinct objects), and
    the comparison is one of tags. *)
Definition neighborsOf (tagged : list (nat * Sample)) (tag : nat) (point : Sample)
  : list (nat * Sample) :=
  filter (fun '(k, p) => negb (Nat.eqb k tag) && near (dec 3 3) p point) tagged.

Section Topography.
Variable M : MathLib.

(** The rest of the loop body, from [neighbors] on: the sample to push, if
    any. *)
Definition topographyFrom (neighbors : list Sample) (point : Sample) : list Sample :=
  if (3 <=? List.length neighbors)%nat then
    let elevations := map elevation neighbors in
    let avgElevation :=
      fold_left add elevations (of_Z 0) / of_nat (List.length elevations) in
    let slope_ := Math_abs (elevation point - avgElevation) * of_Z 100 in
    let eastNeighbor :=
      find (fun p => (lng p >? lng point)
                     && (Math_abs (lat p - lat point) <? dec 1 3)) neighbors in
    let northNeighbor :=
      find (fun p => (lat p >? lat point)
                     && (Math_abs (lng p - lng point) <? dec 1 3)) neighbors in
    let aspect_ :=
      match eastNeighbor, northNeighbor with
      | Some east, Some north =>
          let dz_dx := elevation east - elevation point in
          let dz_dy := elevation north - elevation point in
          let a := Math_atan2 M dz_dy dz_dx * of_Z 180 / Math_PI in
          if a <? of_Z 0 then a + of_Z 360 else a
      | _, _ => of_Z 0
      end in
    [withTopography point (toFixed1 slope_) (toFixed1 aspect_)]
  else [].

(** The body of the loop for [point = sortedData[i]]. *)
Definition topographyAt (sortedData : list Sample) (i : nat) (point : Sample) : list Sample :=
  let tagged := combine (seq 0 (List.length sortedData)) sortedData in
  let neighbors := map snd (neighborsOf tagged i point) in
  topographyFrom neighbors point.

Definition calculateTopography (demData : list Sample) : list Sample :=
  let sortedData := sort byLatThenLng demData in
  flat_map (fun '(i, point) => topographyAt sortedData i point)
           (combine (seq 0 (List.length sortedData)) sortedData).

End Topography.

Definition findHighPoints (topography : list Sample) (count : nat) : list Sample :=
  firstn count (sort (fun a b => elevation b - elevation a) topography).

Definition findLowPoints (topography : list Sample) (count : nat) : list Sample :=
  firstn count (sort (fun a b => elevation a - elevation b) topography).

(** [processedPoints]: a set of strings [`${lat},${lng}`], kept as the
    pairs that were rendered. *)
Definition processedHas (processed : list Pair) (p : Sample) : bool :=
  existsb (fun key => same_string (fst key) (lat p) && same_string (snd key) (lng p))
          processed.

Definition processedAdd (processed : list Pair) (p : Sample) : list Pair :=
  if processedHas processed p then processed else processed ++ [(lat p, lng p)].

Section WaterFlow.
Variable topography : list Sample.

Definition downhillNeighbors (processed : list Pair) (currentPoint : Sample) : list Sample :=
  filter (fun p => negb (processedHas processed p)
                   && (Math_abs (lat p - lat currentPoint) <? dec 2 3)
                   && (Math_abs (lng p - lng currentPoint) <? dec 2 3)
                   && (elevation p <? elevation currentPoint))
         topography.

Definition steepest (currentPoint : Sample) (neighbors : list Sample) (first : Sample) : Sample :=
  fold_left
    (fun steepest_ p =>
       let currentDrop := elevation currentPoint - elevation p in
       let steepestDrop := elevation currentPoint - elevation steepest_ in
       if currentDrop >? steepestDrop then p else steepest_)
    neighbors first.

(** The inner loop, by the number of steps left of the 20. *)
Fixpoint flowSteps (steps : nat) (currentPoint : Sample) (path : list Sample)
  (processed : list Pair) : list Sample * list Pair :=
  match steps with
  | O => (path, processed)
  | S steps' =>
      match downhillNeighbors processed currentPoint with
      | [] => (path, processed)
      | (first :: _) as neighbors =>
          let nextPoint := steepest currentPoint neighbors first in
          flowSteps steps' nextPoint (path ++ [nextPoint]) (processedAdd processed nextPoint)
      end
  end.

(** The callback of [highPoints.forEach], on the pair of [flowPaths] and
    [processedPoints]. *)
Definition flowFrom (state : list (list Sample) * list Pair) (startPoint : Sample)
  : list (list Sample) * list Pair :=
  let '(flowPaths, processed) := state in
  if processedHas processed startPoint then state
  else
    let '(path, processed') :=
      flowSteps 20 startPoint [startPoint] (processedAdd processed startPoint) in
    if (3 <? List.length path)%nat
    then (flowPaths ++ [path], processed')
    else (flowPaths, processed').

Definition calculateWaterFlow : list (list Sample) :=
  let highPoints := findHighPoints topography 10 in
  fst (fold_left flowFrom highPoints ([], [])).

End WaterFlow.

Section Contours.
Variable demData : list Sample.
Variable interval : num.

Definition onLevel (lv : num) : list Sample :=
  filter (fun p => Math_abs (elevation p - lv) <? dec 5 1) demData.

(** The loop [for (level = ...; level <= maxElevation; level += interval)],
    entered with the current [level].  It need not end (an interval of 0
    never leaves the level it starts on), so the model counts the passes it
    is allowed: [None] when they run out before the loop test fails. *)
Fixpoint contoursFrom (fuel : nat) (maxElevation lv : num) : option (list Contour) :=
  if lv <=? maxElevation then
    match fuel with
    | O => None
    | S fuel' =>
        let contourPoints := onLevel lv in
        match contoursFrom fuel' maxElevation (lv + interval) with
        | None => None
        | Some rest =>
            Some (if (10 <? List.length contourPoints)%nat
                  then {| level := lv; points := contourPoints |} :: rest
                  else rest)
        end
    end
  else Some [].

Definition generateContours (fuel : nat) : option (list Contour) :=
  let minElevation := Math_min_of (map elevation demData) in
  let maxElevation := Math_max_of (map elevation demData) in
  contoursFrom fuel maxElevation (Math_ceil minElevation).

End Contours.

End DEMUtils.

(** ** The element catalogue *)

Module ELEMENT_TYPES.

(** An entry of [ELEMENT_TYPES], without its presentation fields (icon,
    description, colour, local name). *)
Record entry : Type := {
  name : string;
  optimalZone : string;
  geometry : string;
  priority : nat
}.

Definition table : list (string * entry) :=
  [ ("HOUSE", {| name := "House"; optimalZone := "0"; geometry := "point"; priority := 1 |});
    ("WATER_TANK", {| name := "Water Tank"; optimalZone := "high"; geometry := "point"; priority := 2 |});
    ("COMPOST", {| name := "Compost"; optimalZone := "1"; geometry := "point"; priority := 3 |});
    ("CHICKEN_COOP", {| name := "Chicken Coop"; optimalZone := "1-2"; geometry := "point"; priority := 4 |});
    ("BEEHIVE", {| name := "Beehive"; optimalZone := "1-2"; geometry := "point"; priority := 5 |});
    ("WINDBREAK", {| name := "Windbreak"; optimalZone := "perimeter"; geometry := "line"; priority := 6 |});
    ("SHED", {| name := "Tool Shed"; optimalZone := "0-1"; geometry := "point"; priority := 7 |});
    ("POND", {| name := "Pond"; optimalZone := "low"; geometry := "polygon"; priority := 8 |});
    ("HERB_SPIRAL", {| name := "Herb Spiral"; optimalZone := "1"; geometry := "point"; priority := 9 |});
    ("MANDALA_GARDEN", {| name := "Mandala Garden"; optimalZone := "1-2"; geometry := "point"; priority := 10 |});
    ("SWALE", {| name := "Swale"; optimalZone := "contour"; geometry := "line"; priority := 11 |});
    ("POND_AREA", {| name := "Pond Area"; optimalZone := "low"; geometry := "polygon"; priority := 12 |});
    ("VEGETABLE_GARDEN", {| name := "Vegetable Garden"; optimalZone := "1"; geometry := "polygon"; priority := 13 |});
    ("FRUIT_ORCHARD", {| name := "Fruit Orchard"; optimalZone := "2"; geometry := "polygon"; priority := 14 |});
    ("GRAIN_FIELD", {| name := "Grain Field"; optimalZone := "3"; geometry := "polygon"; priority := 15 |}) ].

(** [ELEMENT_TYPES[key]]. *)
Definition get (key : string) : option entry :=
  option_map snd (find (fun kv => String.eqb (fst kv) key) table).

End ELEMENT_TYPES.

(** ** getBoundaryApproximateSize *)

Record Size : Type := {
  width : num;
  height : num
}.

Definition getBoundaryApproximateSize (boundaryGeoJson : option Feature) : Size :=
  let small := {| width := dec 1 2; height := dec 1 2 |} in
  match boundaryGeoJson with
  | None => small
  | Some f =>
      match geometry f with
      | None => small
      | Some g =>
          if negb (String.eqb (ftype f) "Feature") || negb (String.eqb (gtype g) "Polygon")
          then small
          else
            let coords := ring g in
            if (List.length coords <? 3)%nat then small
            else
              let b := boundingBox coords in
              let w := maxLng b - minLng b in
              let h := maxLat b - minLat b in
              {| width := if w >? of_Z 0 then w else dec 1 4;
                 height := if h >? of_Z 0 then h else dec 1 4 |}
      end
  end.

(** ** The component: state and callbacks *)

Module App.

(** The geometry an element carries: [position] (a point), [polygon] or
    [points] (a line); an element has exactly one of the three. *)
Inductive Shape : Type :=
| Position (position : Pair)
| Polygon (polygon : list Pair)
| Points (pts : list Pair).

Record Element : Type := {
  type : string;
  shape : Shape;
  name : string;
  id : num
}.

(** The state cells the element callbacks close over.  [onMapClick] also
    writes [env] and [waterSources] when it moves the marker; no callback
    here reads them and they are left out. *)
Record State : Type := {
  marker : Pair;
  elements : list Element;
  selectedElementType : option string;
  boundary : option Feature;
  demData : list Sample;
  topography : list Sample;
  windDirection : num;
  isDesigning : bool
}.

Definition setElements (s : State) (els : list Element) : State :=
  {| marker := marker s; elements := els;
     selectedElementType := selectedElementType s; boundary := boundary s;
     demData := demData s; topography := topography s;
     windDirection := windDirection s; isDesigning := isDesigning s |}.

Definition setMarker (s : State) (m : Pair) : State :=
  {| marker := m; elements := elements s;
     selectedElementType := selectedElementType s; boundary := boundary s;
     demData := demData s; topography := topography s;
     windDirection := windDirection s; isDesigning := isDesigning s |}.

Definition setIsDesigning (s : State) (b : bool) : State :=
  {| marker := marker s; elements := elements s;
     selectedElementType := selectedElementType s; boundary := boundary s;
     demData := demData s; topography := topography s;
     windDirection := windDirection s; isDesigning := b |}.

(** [elements.some(e => e && e.type === kind)]. *)
Definition someOfType (kind : string) (els : list Element) : bool :=
  existsb (fun e => String.eqb (type e) kind) els.

(** The 36-vertex circle the source builds in four places (a clicked
    polygon, the pond, the zone areas): a vertex every ten degrees, the
    first one pushed again at the end. *)
Definition circle (M : MathLib) (center : Pair) (radius : num) : list Pair :=
  let polygonPoints :=
    map (fun i =>
           let angle := (of_nat i * of_Z 10) * Math_PI / of_Z 180 in
           (fst center + radius * Math_cos M angle,
            snd center + radius * Math_sin M angle))
        (seq 0 36) in
  polygonPoints ++ firstn 1 polygonPoints.

(** What a callback shows with [alert]. *)
Definition Alerts : Type := list string.

Section Callbacks.
Variable M : MathLib.
Variable rnd : Random.
(** [Date.now()]. *)
Variable now : num.

(** [onMapClick(latlng)]. *)
Definition onMapClick (s : State) (latlng : Pair) : State * Alerts :=
  let '(la, ln) := latlng in
  match selectedElementType s with
  | Some sel =>
      if String.eqb sel "" then (setMarker s (la, ln), [])
      else
      match ELEMENT_TYPES.get sel with
      | None => (s, ["Unknown element type. Please select a valid element."])
      | Some elementType =>
          let isInsideBoundary :=
            match boundary s with
            | None => true
            | Some b =>
                let boundaryForUtils :=
                  match geometry b with
                  | Some g =>
                      if String.eqb (ftype b) "Feature" && String.eqb (gtype g) "Polygon"
                      then Some (map (fun coord => (snd coord, fst coord)) (ring g))
                      else None
                  | None => None
                  end in
                match boundaryForUtils with
                | Some latLngCoords =>
                    BoundaryUtils.isPointInBoundary (PArr la ln) (BArray latLngCoords)
                | None => true
                end
            end in
          if negb isInsideBoundary
          then (s, ["This element would be placed outside your boundary. Please place it inside."])
          else
            let newElement :=
              if String.eqb (ELEMENT_TYPES.geometry elementType) "point" then
                Some {| type := sel; shape := Position (la, ln);
                        name := ELEMENT_TYPES.name elementType; id := now |}
              else if String.eqb (ELEMENT_TYPES.geometry elementType) "polygon" then
                Some {| type := sel; shape := Polygon (circle M (la, ln) (dec 2 3));
                        name := ELEMENT_TYPES.name elementType; id := now |}
              else if String.eqb (ELEMENT_TYPES.geometry elementType) "line" then
                let length := dec 3 3 in
                Some {| type := sel;
                        shape := Points [ (la - length / of_Z 2, ln - length / of_Z 2);
                                          (la + length / of_Z 2, ln + length / of_Z 2) ];
                        name := ELEMENT_TYPES.name elementType; id := now |}
              else None in
            match newElement with
            | None => (s, [])
            | Some e => (setElements s (elements s ++ [e]), [])
            end
      end
  | None => (setMarker s (la, ln), [])
  end.

(** [onElementDrag(id, newPosition)]; [newPosition] is the Leaflet
    [{lat, lng}] of the marker that was dropped. *)
Definition dragOne (s : State) (i : num) (newLat newLng : num) (el : Element) : Element * Alerts :=
  match shape el with
  | Position _ =>
      if id el ==? i then
        let isInsideBoundary :=
          match boundary s with
          | None => true
          | Some b => BoundaryUtils.isPointInBoundary (PArr newLng newLat) (BFeature b)
          end in
        if negb isInsideBoundary
        then (el, ["Cannot move element outside the boundary"])
        else ({| type := type el; shape := Position (newLat, newLng);
                 name := name el; id := id el |}, [])
      else (el, [])
  | _ => (el, [])
  end.

Definition onElementDrag (s : State) (i : num) (newPosition : Pair) : State * Alerts :=
  let '(newLat, newLng) := newPosition in
  let moved := map (dragOne s i newLat newLng) (elements s) in
  (setElements s (map fst moved), flat_map snd moved).

(** The rendering of a number inside a template literal. *)
Variable render : num -> string.

(** *** autoDesignLayout

    The body of the timer callback, as a function of the state the
    callback closed over: what the body computes from that state, laid
    over that same state.  Each block below is one guarded block of the
    source and gives the elements that block pushes onto [newElements].
    What the body writes into the state the component is in when the
    timer fires is [autoDesignLayoutTimer], further down. *)

Definition pointElement (kind label : string) (p : Pair) (i : num) : Element :=
  {| type := kind; shape := Position p; name := label; id := i |}.

(** [elements.find(e => e.type === 'HOUSE')?.position || marker]. *)
Definition housePosition (s : State) : Pair :=
  match find (fun e => String.eqb (type e) "HOUSE") (elements s) with
  | Some {| shape := Position p |} => p
  | _ => marker s
  end.

Definition placeHouse (s : State) (b : Feature) (k : nat) : list Element * Pair * nat :=
  if negb (someOfType "HOUSE" (elements s)) then
    let '(pt, k') := BoundaryUtils.generateRandomPointInBoundary rnd (BFeature b) k in
    let housePoint := BoundaryUtils.sampled pt in
    ([pointElement "HOUSE" "House" housePoint now], housePoint, k')
  else ([], marker s, k).

(** [boundaryHighPoints.reduce((highest, point) => ..., boundaryHighPoints[0])]. *)
Definition highest (candidates : list Sample) (first : Sample) : Sample :=
  fold_left (fun highest_ point =>
               if elevation point >? elevation highest_ then point else highest_)
            candidates first.

Definition lowest (candidates : list Sample) (first : Sample) : Sample :=
  fold_left (fun lowest_ point =>
               if elevation point <? elevation lowest_ then point else lowest_)
            candidates first.

Definition placeWaterTank (s : State) (b : Feature) : list Element :=
  let highPoints := DEMUtils.findHighPoints (topography s) 20 in
  let boundaryHighPoints := BoundaryUtils.filterPointsInBoundary highPoints (BFeature b) in
  match boundaryHighPoints with
  | first :: _ =>
      if negb (someOfType "WATER_TANK" (elements s)) then
        let highestPoint := highest boundaryHighPoints first in
        [pointElement "WATER_TANK" "Water Tank"
           (lat highestPoint, lng highestPoint) (now + of_Z 1)]
      else []
  | [] => []
  end.

Definition placePond (s : State) (b : Feature) (baseElementSize : num) : list Element :=
  let lowPoints := DEMUtils.findLowPoints (topography s) 20 in
  let boundaryLowPoints := BoundaryUtils.filterPointsInBoundary lowPoints (BFeature b) in
  match boundaryLowPoints with
  | first :: _ =>
      if negb (someOfType "POND_AREA" (elements s)) then
        let lowestPoint := lowest boundaryLowPoints first in
        let pondRadius := baseElementSize * dec 8 1 in
        [{| type := "POND_AREA";
            shape := Polygon (circle M (lat lowestPoint, lng lowestPoint) pondRadius);
            name := "Pond Area"; id := now + of_Z 2 |}]
      else []
  | [] => []
  end.

(** Compost, chicken coop, beehive and shed: a fixed offset from the house
    position, pushed when the offset point is inside the boundary. *)
Definition placeNearHouse (s : State) (b : Feature) (kind label : string)
  (offset : Pair) (idOffset : Z) : list Element :=
  if negb (someOfType kind (elements s)) then
    let housePos := housePosition s in
    let pos := (fst housePos + fst offset, snd housePos + snd offset) in
    if BoundaryUtils.isPointInBoundary (PArr (fst pos) (snd pos)) (BFeature b)
    then [pointElement kind label pos (now + of_Z idOffset)]
    else []
  else [].

(** [contour.points.filter((_, index) => index % 3 === 0)]. *)
Fixpoint everyThird (A : Type) (l : list A) : list A :=
  match l with
  | x :: rest => x :: match rest with
                      | _ :: _ :: rest' => everyThird rest'
                      | _ => []
                      end
  | [] => []
  end.

(** The callback of [contours.forEach], on [swaleLines]. *)
Definition swaleOf (b : Feature) (swaleLines : list Element) (contour : Contour) : list Element :=
  if (5 <? List.length (points contour))%nat then
    let simplifiedPoints := everyThird (points contour) in
    if (2 <? List.length simplifiedPoints)%nat then
      let validPoints :=
        filter (fun point =>
                  BoundaryUtils.isPointInBoundary (PArr (lat point) (lng point)) (BFeature b))
               simplifiedPoints in
      if (2 <? List.length validPoints)%nat then
        swaleLines ++
        [{| type := "SWALE";
            shape := Points (map (fun p => (lat p, lng p)) validPoints);
            name := "Swale at " ++ render (level contour) ++ "m";
            id := now + of_Z 7 + of_nat (List.length swaleLines) |}]
      else swaleLines
    else swaleLines
  else swaleLines.

(** [None] when [generateContours] is not done within [fuel] passes. *)
Definition placeSwales (fuel : nat) (s : State) (b : Feature) : option (list Element) :=
  if negb (someOfType "SWALE" (elements s)) then
    match DEMUtils.generateContours (demData s) (of_Z 1) fuel with
    | None => None
    | Some contours =>
        let swaleLines := fold_left (swaleOf b) contours [] in
        Some (firstn 3 swaleLines)
    end
  else Some [].

Definition placeWindbreak (s : State) (b : Feature) (boundaryDiagonal : num) (k : nat)
  : list Element * nat :=
  if negb (someOfType "WINDBREAK" (elements s)) then
    let windAngle := (windDirection s + of_Z 90) * Math_PI / of_Z 180 in
    let windbreakLength := boundaryDiagonal * dec 3 1 in
    let '(pt, k') := BoundaryUtils.generateRandomPointInBoundary rnd (BFeature b) k in
    let startPoint := BoundaryUtils.sampled pt in
    let endPoint :=
      (fst startPoint + windbreakLength * Math_cos M windAngle,
       snd startPoint + windbreakLength * Math_sin M windAngle) in
    let adjustedEndPoint :=
      if negb (BoundaryUtils.isPointInBoundary (PArr (fst endPoint) (snd endPoint)) (BFeature b))
      then BoundaryUtils.findClosestPointOnBoundary M endPoint (BFeature b)
      else endPoint in
    if BoundaryUtils.isPointInBoundary (PArr (fst startPoint) (snd startPoint)) (BFeature b)
       && BoundaryUtils.isPointInBoundary
            (PArr (fst adjustedEndPoint) (snd adjustedEndPoint)) (BFeature b)
    then ([{| type := "WINDBREAK"; shape := Points [startPoint; adjustedEndPoint];
              name := "Windbreak"; id := now + of_Z 8 |}], k')
    else ([], k')
  else ([], k).

(** The callback of [zoneAreas.forEach], on [newElements] and the draw
    counter; an area is its type and its size. *)
Definition placeZone (s : State) (b : Feature) (acc : list Element * nat)
  (area : string * num) : list Element * nat :=
  let '(newElements, k) := acc in
  let '(kind, size) := area in
  if negb (someOfType kind (elements s)) then
    let '(pt, k') := BoundaryUtils.generateRandomPointInBoundary rnd (BFeature b) k in
    let randomPoint := BoundaryUtils.sampled pt in
    (newElements ++
     [{| type := kind;
         shape := Polygon (circle M randomPoint size);
         name := match ELEMENT_TYPES.get kind with
                 | Some e => ELEMENT_TYPES.name e
                 | None => ""
                 end;
         id := now + of_Z 20 + Math_random rnd k' * of_Z 1000 |}],
     S k')
  else acc.

Definition autoDesignLayout (fuel : nat) (s : State) (k : nat) : option (State * Alerts * nat) :=
  match boundary s with
  | None =>
      Some (s, ["Please draw a boundary first using the drawing tools on the map"], k)
  | Some b =>
      let newElements := elements s in
      let boundarySize := getBoundaryApproximateSize (Some b) in
      let boundaryDiagonal :=
        Math_sqrt M (width boundarySize * width boundarySize
                     + height boundarySize * height boundarySize) in
      let baseElementSize := boundaryDiagonal * dec 1 1 in
      let zoneAreas :=
        [ ("VEGETABLE_GARDEN", baseElementSize);
          ("FRUIT_ORCHARD", baseElementSize * dec 12 1);
          ("GRAIN_FIELD", baseElementSize * dec 15 1) ] in
      let '(house, marker', k) := placeHouse s b k in
      let newElements := newElements ++ house in
      let newElements := newElements ++ placeWaterTank s b in
      let newElements := newElements ++ placePond s b baseElementSize in
      let newElements :=
        newElements ++ placeNearHouse s b "COMPOST" "Compost" (dec 3 4, dec 2 4) 3 in
      let newElements :=
        newElements ++ placeNearHouse s b "CHICKEN_COOP" "Chicken Coop" (dec 5 4, dec 4 4) 4 in
      let newElements :=
        newElements ++ placeNearHouse s b "BEEHIVE" "Beehive" (dec 4 4, dec (-3) 4) 5 in
      let newElements :=
        newElements ++ placeNearHouse s b "SHED" "Tool Shed" (dec 1 4, dec 2 4) 6 in
      match placeSwales fuel s b with
      | None => None
      | Some swales =>
          let newElements := newElements ++ swales in
          let '(windbreak, k) := placeWindbreak s b boundaryDiagonal k in
          let newElements := newElements ++ windbreak in
          let '(newElements, k) := fold_left (placeZone s b) zoneAreas (newElements, k) in
          Some (setIsDesigning (setElements (setMarker s marker') newElements) false, [], k)
      end
  end.

(** *** The click and the timer

    The source runs that body from [setTimeout], two seconds after the
    click on the button.  The body reads [elements], [marker], [boundary],
    [topography], [demData] and the wind direction as the callback closed
    over them at the click, and it writes with [setMarker(housePoint)] (when
    it places a house), [setElements(newElements)] and
    [setIsDesigning(false)]: values, not updater functions, written into
    whatever state the component is in by then. *)

(** The click: the state it leaves, its alert, and the state the scheduled
    body closed over (none when there is no boundary and nothing is
    scheduled). *)
Definition autoDesignLayoutClick (s : State) : State * Alerts * option State :=
  match boundary s with
  | None => (s, ["Please draw a boundary first using the drawing tools on the map"], None)
  | Some _ => (setIsDesigning s true, [], Some s)
  end.

(** The timer: the body closed over [closed] runs while the component is in
    state [current].  A click without a boundary schedules nothing, and
    then nothing is written. *)
Definition autoDesignLayoutTimer (fuel : nat) (closed current : State) (k : nat)
  : option (State * Alerts * nat) :=
  match boundary closed with
  | None => Some (current, [], k)
  | Some _ =>
      match autoDesignLayout fuel closed k with
      | None => None
      | Some (computed, alerts, k') =>
          let moved :=
            if negb (someOfType "HOUSE" (elements closed))
            then setMarker current (marker computed)
            else current in
          Some (setIsDesigning (setElements moved (elements computed)) false, alerts, k')
      end
  end.

End Callbacks.

End App.

(** ** The same terrain functions over a store

    For what the terrain functions write, arrays and sample records are
    kept in a store: an array is an address whose cell holds the addresses
    of its elements, a record an address whose cell holds its fields.
    [[...a]], [filter] and [slice] allocate a new array, [sort] and [push]
    overwrite the cell of the array they are called on, an object literal
    allocates a record.  Arrays of numbers and the set of strings, which
    never leave the function that makes them, stay values. *)

Module Store.

Record store : Type := {
  arrays : list (list nat);
  objects : list Sample
}.

(** A computation that reads and writes the store. *)
Definition Mem (A : Type) : Type := store -> A * store.

Definition ret (A : Type) (x : A) : Mem A := fun h => (x, h).

Definition bind (A B : Type) (m : Mem A) (k : A -> Mem B) : Mem B :=
  fun h => let '(x, h') := m h in k x h'.

Declare Scope mem_scope.
Delimit Scope mem_scope with mem.
Notation "x <- m ;; k" := (bind m (fun x => k))
  (at level 61, m at next level, right associativity) : mem_scope.
Notation "m ;;; k" := (bind m (fun _ => k))
  (at level 61, right associativity) : mem_scope.
Local Open Scope mem_scope.

(** What reading a record that is not there gives. *)
Definition noSample : Sample := demPoint NaN NaN NaN.

Definition deref (os : list Sample) (r : nat) : Sample := nth r os noSample.

Fixpoint replace (A : Type) (n : nat) (x : A) (l : list A) : list A :=
  match l, n with
  | [], _ => []
  | _ :: l', O => x :: l'
  | y :: l', S n' => y :: replace n' x l'
  end.

Definition newArray (xs : list nat) : Mem nat :=
  fun h => (List.length (arrays h),
            {| arrays := arrays h ++ [xs]; objects := objects h |}).

Definition getArray (a : nat) : Mem (list nat) :=
  fun h => (nth a (arrays h) [], h).

Definition setArray (a : nat) (xs : list nat) : Mem unit :=
  fun h => (tt, {| arrays := replace a xs (arrays h); objects := objects h |}).

Definition newObject (o : Sample) : Mem nat :=
  fun h => (List.length (objects h),
            {| arrays := arrays h; objects := objects h ++ [o] |}).

(** The records as they are now, for the callbacks that only read. *)
Definition getObjects : Mem (list Sample) := fun h => (objects h, h).

(** [[...a]]. *)
Definition spread (a : nat) : Mem nat :=
  xs <- getArray a ;; newArray xs.

(** [a.sort(cmp)]: sorts [a] in place and returns [a]. *)
Definition sortArray (cmp : Sample -> Sample -> num) (a : nat) : Mem nat :=
  xs <- getArray a ;;
  os <- getObjects ;;
  setArray a (sort (fun r1 r2 => cmp (deref os r1) (deref os r2)) xs) ;;;
  ret a.

(** [a.filter(keep)]; the callback sees the element itself and its fields. *)
Definition filterArray (keep : nat -> Sample -> bool) (a : nat) : Mem nat :=
  xs <- getArray a ;;
  os <- getObjects ;;
  newArray (filter (fun r => keep r (deref os r)) xs).

(** [a.slice(0, count)]. *)
Definition slice (a : nat) (count : nat) : Mem nat :=
  xs <- getArray a ;; newArray (firstn count xs).

(** [a.push(x)]. *)
Definition push (a : nat) (x : nat) : Mem unit :=
  xs <- getArray a ;; setArray a (xs ++ [x]).

(** [xs.forEach(body)], with the state the callback closes over. *)
Fixpoint forEach (A S : Type) (xs : list A) (body : S -> A -> Mem S) (s : S) : Mem S :=
  match xs with
  | [] => ret s
  | x :: rest => s' <- body s x ;; forEach rest body s'
  end.

Definition findHighPoints (topography : nat) (count : nat) : Mem nat :=
  copy <- spread topography ;;
  sorted <- sortArray (fun a b => elevation b - elevation a) copy ;;
  slice sorted count.

Definition findLowPoints (topography : nat) (count : nat) : Mem nat :=
  copy <- spread topography ;;
  sorted <- sortArray (fun a b => elevation a - elevation b) copy ;;
  slice sorted count.

Section Topography.
Variable M : MathLib.

Definition calculateTopography (demData : nat) : Mem nat :=
  topography <- newArray [] ;;
  copy <- spread demData ;;
  sortedData <- sortArray DEMUtils.byLatThenLng copy ;;
  slots <- getArray sortedData ;;
  forEach slots
    (fun (_ : unit) point =>
       os <- getObjects ;;
       neighbors <- filterArray
                      (fun p fields => negb (Nat.eqb p point)
                                       && DEMUtils.near (dec 3 3) fields (deref os point))
                      sortedData ;;
       ns <- getArray neighbors ;;
       forEach (DEMUtils.topographyFrom M (map (deref os) ns) (deref os point))
         (fun (_ : unit) sample => o <- newObject sample ;; push topography o)
         tt)
    tt ;;;
  ret topography.

End Topography.

Section WaterFlow.
Variable topography : nat.

Definition downhill (processed : list Pair) (currentPoint : Sample) (p : Sample) : bool :=
  negb (DEMUtils.processedHas processed p)
  && (Math_abs (lat p - lat currentPoint) <? dec 2 3)
  && (Math_abs (lng p - lng currentPoint) <? dec 2 3)
  && (elevation p <? elevation currentPoint).

(** [neighbors.reduce((steepest, p) => ..., neighbors[0])], on addresses. *)
Definition steepest (os : list Sample) (currentPoint : Sample) (neighbors : list nat)
  (first : nat) : nat :=
  fold_left
    (fun steepest_ p =>
       let currentDrop := elevation currentPoint - elevation (deref os p) in
       let steepestDrop := elevation currentPoint - elevation (deref os steepest_) in
       if currentDrop >? steepestDrop then p else steepest_)
    neighbors first.

Fixpoint flowSteps (steps : nat) (currentPoint : nat) (path : nat) (processed : list Pair)
  : Mem (list Pair) :=
  match steps with
  | O => ret processed
  | S steps' =>
      os <- getObjects ;;
      neighbors <- filterArray
                     (fun p fields => downhill processed (deref os currentPoint) fields)
                     topography ;;
      ns <- getArray neighbors ;;
      match ns with
      | [] => ret processed
      | first :: _ =>
          let nextPoint := steepest os (deref os currentPoint) ns first in
          push path nextPoint ;;;
          flowSteps steps' nextPoint path
            (DEMUtils.processedAdd processed (deref os nextPoint))
      end
  end.

Definition flowFrom (flowPaths : nat) (processed : list Pair) (startPoint : nat)
  : Mem (list Pair) :=
  os <- getObjects ;;
  if DEMUtils.processedHas processed (deref os startPoint) then ret processed
  else
    path <- newArray [startPoint] ;;
    processed' <- flowSteps 20 startPoint path
                    (DEMUtils.processedAdd processed (deref os startPoint)) ;;
    points <- getArray path ;;
    (if (3 <? List.length points)%nat then push flowPaths path else ret tt) ;;;
    ret processed'.

Definition calculateWaterFlow : Mem nat :=
  flowPaths <- newArray [] ;;
  highPoints <- findHighPoints topography 10 ;;
  starts <- getArray highPoints ;;
  forEach starts (flowFrom flowPaths) [] ;;;
  ret flowPaths.

End WaterFlow.

End Store.

(** ** The rest of the site model *)

(** [Math.round]: the nearest integer, a tie going up. *)
Definition Math_round (a : num) : num :=
  match a with
  | Fin q => of_Z (Qfloor (q + (1 # 2)))
  | other => other
  end.

(** *** Mock spatial layers *)

(** A feature of a mock layer: its [properties], and [outer], the ring
    [geometry.coordinates[0]] of its polygon. *)
Record LayerFeature (P : Type) : Type := {
  properties : P;
  outer : list Pair
}.

Module Soil.

Record Properties : Type := {
  soil : string;
  name : string
}.

End Soil.

Definition soilPolygons : list (LayerFeature Soil.Properties) :=
  [ {| properties := {| Soil.soil := "lateritic-loam"; Soil.name := "Lateritic Loam Zone" |};
       outer := [ (dec 759 1, dec 1105 2); (dec 764 1, dec 1105 2); (dec 764 1, dec 95 1);
                  (dec 759 1, dec 95 1); (dec 759 1, dec 1105 2) ] |};
    {| properties := {| Soil.soil := "alluvial"; Soil.name := "Alluvial Lowland Zone" |};
       outer := [ (dec 759 1, dec 95 1); (dec 764 1, dec 95 1); (dec 764 1, dec 825 2);
                  (dec 759 1, dec 825 2); (dec 759 1, dec 95 1) ] |} ].

Module Watershed.

Record Properties : Type := {
  id : string;
  name : string;
  runoffFactor : num
}.

End Watershed.

Definition watershedPolygons : list (LayerFeature Watershed.Properties) :=
  [ {| properties := {| Watershed.id := "ws-1"; Watershed.name := "Example Watershed A";
                        Watershed.runoffFactor := dec 8 1 |};
       outer := [ (dec 757 1, of_Z 11); (dec 767 1, of_Z 11); (dec 767 1, of_Z 9);
                  (dec 757 1, of_Z 9); (dec 757 1, of_Z 11) ] |} ].

(** [sampleSoilAt(lng, lat)]: the soil of the first polygon that holds the
    point. *)
Definition sampleSoilAt (lng lat : num) : string :=
  let pt := (lng, lat) in
  match find (fun f => pointInPolygon pt (outer f)) soilPolygons with
  | Some f => Soil.soil (properties f)
  | None => "mixed-loam"
  end.

(** [sampleWatershedAt(lng, lat)]; [None] is [null]. *)
Definition sampleWatershedAt (lng lat : num) : option Watershed.Properties :=
  let pt := (lng, lat) in
  match find (fun f => pointInPolygon pt (outer f)) watershedPolygons with
  | Some f => Some (properties f)
  | None => None
  end.

(** *** Climate fallbacks *)

Definition fallbackRain (lat lng : num) : num :=
  if (lat >=? dec 92 1) && (lng >=? dec 755 1) && (lng <=? dec 769 1)
  then of_Z 2500 + Math_round ((dec 115 1 - lat) * of_Z 100)
  else of_Z 1500 + Math_round ((dec 105 1 - lat) * of_Z 50).

Definition fallbackSunHours (lat : num) : num :=
  dec 65 1 + (of_Z 10 - Math_abs (lat - dec 105 1)) * dec 1 1.

(** What [getClimateFromNASA] returns from its [catch] block, when the
    request fails. *)
Record Climate : Type := {
  source : string;
  avgRainfallMm : num;
  sunHours : num;
  monthlyRainfall : list num
}.

Definition fallbackClimate (lat lng : num) : Climate :=
  let fallbackRainfall := fallbackRain lat lng in
  {| source := "fallback";
     avgRainfallMm := fallbackRainfall;
     sunHours := fallbackSunHours lat;
     monthlyRainfall := repeat (Math_round (fallbackRainfall / of_Z 12)) 12 |}.

(** *** Flood risk *)

Module FloodRisk.

Record Map : Type := {
  risk : string;
  coordinates : list Pair
}.

End FloodRisk.

(** [generateFloodRiskMap(lat, lng, slope, rainfall)]: the risk level and
    the ring of the square polygon of the feature. *)
Definition generateFloodRiskMap (lat lng slope rainfall : num) : FloodRisk.Map :=
  let riskLevel :=
    if (slope <? of_Z 5) && (rainfall >? of_Z 2200) then "high"
    else if (slope <? of_Z 10) && (rainfall >? of_Z 1800) then "medium"
    else "low" in
  {| FloodRisk.risk := riskLevel;
     FloodRisk.coordinates :=
       [ (lng - dec 5 2, lat - dec 5 2);
         (lng + dec 5 2, lat - dec 5 2);
         (lng + dec 5 2, lat + dec 5 2);
         (lng - dec 5 2, lat + dec 5 2);
         (lng - dec 5 2, lat - dec 5 2) ] |}.

(** *** Monsoon advisory *)

(** [xs.indexOf(v)]: the first index whose element is strictly equal to
    [v], or -1. *)
Fixpoint indexOf_from (xs : list num) (v : num) (i : Z) : Z :=
  match xs with
  | [] => (-1)%Z
  | x :: rest => if x ==? v then i else indexOf_from rest v (i + 1)%Z
  end.

Definition indexOf (xs : list num) (v : num) : Z := indexOf_from xs v 0.

Record Advisory : Type := {
  status : string;
  advice : string
}.

(** [getMonsoonAdvisory(monthlyRainfall)]; the argument is [None] when the
    climate has no monthly series, and so is the result for [null]. *)
Definition getMonsoonAdvisory (monthlyRainfall : option (list num)) : option Advisory :=
  match monthlyRainfall with
  | None | Some [] => None
  | Some series =>
      let maxMonth := indexOf series (Math_max_of series) in
      let monsoonMonths := [6; 7; 8; 9]%Z in
      let inMonsoon := existsb (Z.eqb maxMonth) monsoonMonths in
      Some {| status := if inMonsoon then "active" else "dormant";
              advice := if inMonsoon
                        then "🌧️ Monsoon Active: Focus on water diversion and soil protection"
                        else "☀️ Dry Season: Focus on water conservation and irrigation" |}
  end.

(** *** Carbon *)

Module CarbonCalculator.

Definition CARBON_RATES : list (string * num) :=
  [ ("TREE", of_Z 22); ("SHRUB", of_Z 5); ("GRASS", of_Z 1); ("BAMBOO", of_Z 30);
    ("LEGUME", of_Z 8); ("CLIMBER", of_Z 3); ("FRUIT", of_Z 22); ("VINE", of_Z 5);
    ("VEGETABLE", of_Z 1); ("LEAFY_GREEN", of_Z 1); ("ROOT", of_Z 1) ].

(** What the calculator reads of a plant: its [type], and its [count] when
    it has one. *)
Record Plant : Type := {
  type : string;
  count : option num
}.

(** [plant.count || 1]. *)
Definition countOr1 (plant : Plant) : num :=
  match count plant with
  | Some c => or_else c (of_Z 1)
  | None => of_Z 1
  end.

(** The keys every object literal inherits from [Object.prototype]; under
    one of them [CARBON_RATES[key]] is a function or an object, which is
    truthy and multiplies to NaN. *)
Definition inheritedKeys : list string :=
  [ "constructor"; "__proto__"; "hasOwnProperty"; "isPrototypeOf";
    "propertyIsEnumerable"; "toLocaleString"; "toString"; "valueOf";
    "__defineGetter__"; "__defineSetter__"; "__lookupGetter__"; "__lookupSetter__" ].

(** [this.CARBON_RATES[plant.type] || 0], as the number it multiplies as. *)
Definition rateOf (plant : Plant) : num :=
  match find (fun kv => String.eqb (fst kv) (type plant)) CARBON_RATES with
  | Some kv => or_else (snd kv) (of_Z 0)
  | None =>
      if existsb (String.eqb (type plant)) inheritedKeys then NaN else of_Z 0
  end.

Definition calculateSequestration (plants : list Plant) : num :=
  fold_left (fun total plant =>
               let sequestrationRate := rateOf plant in
               let count := countOr1 plant in
               total + sequestrationRate * count)
            plants (of_Z 0).

End CarbonCalculator.

(** [plants.map(plant => ({...plant, count: plant.count || 1}))], the list
    [CarbonSequestrationComponent] hands to the calculator. *)
Definition plantsWithCount (plants : list CarbonCalculator.Plant) : list CarbonCalculator.Plant :=
  map (fun plant => {| CarbonCalculator.type := CarbonCalculator.type plant;
                       CarbonCalculator.count := Some (CarbonCalculator.countOr1 plant) |})
      plants.

(** *** Community *)

Module CommunityUtils.

Record Transaction : Type := {
  from : string;
  to : string;
  resource : string;
  amount : num;
  date : num
}.

(** The object [createResourceExchange] returns; parties are compared with
    [===] and are strings here. *)
Record Exchange (R S : Type) : Type := {
  resourcesAvailable : R;
  skillsAvailable : S;
  transactions : list Transaction
}.

Definition createResourceExchange (R S : Type) (resources : R) (skills : S) : Exchange R S :=
  {| resourcesAvailable := resources; skillsAvailable := skills; transactions := [] |}.

(** [addTransaction] pushes onto [this.transactions]; [now] is the
    [new Date()] of the call. *)
Definition addTransaction (R S : Type) (this : Exchange R S)
  (from_ to_ resource_ : string) (amount_ now : num) : Exchange R S :=
  {| resourcesAvailable := resourcesAvailable this;
     skillsAvailable := skillsAvailable this;
     transactions := transactions this ++
                     [{| from := from_; to := to_; resource := resource_;
                         amount := amount_; date := now |}] |}.

Definition getBalance (R S : Type) (this : Exchange R S) (user : string) : num :=
  fold_left (fun balance transaction =>
               if String.eqb (to transaction) user then balance + amount transaction
               else if String.eqb (from transaction) user then balance - amount transaction
               else balance)
            (transactions this) (of_Z 0).

End CommunityUtils.

(** *** Natural patterns *)


Module NaturalPatterns.

Section Patterns.
Variable M : MathLib.



(** [BRANCHING.generatePoints(start, angle, length, generations)]; the
    recursion need not end (a NaN number of generations never reaches 0),
    so the model counts the calls it may nest: [None] when they run out. *)
Fixpoint branching (depth : nat) (start : Pair) (angle length generations : num)
  : option (list Pair) :=
  match depth with
  | O => None
  | S depth' =>
      if generations <=? of_Z 0 then Some [start]
      else
        let leftAngle := angle - Math_PI / of_Z 4 in
        let rightAngle := angle + Math_PI / of_Z 4 in
        let leftEnd := (fst start + length * Math_cos M leftAngle,
                        snd start + length * Math_sin M leftAngle) in
        let rightEnd := (fst start + length * Math_cos M rightAngle,
                         snd start + length * Math_sin M rightAngle) in
        match branching depth' leftEnd leftAngle (length * dec 7 1) (generations - of_Z 1),
              branching depth' rightEnd rightAngle (length * dec 7 1) (generations - of_Z 1) with
        | Some leftPoints, Some rightPoints => Some (start :: leftPoints ++ rightPoints)
        | _, _ => None
        end
  end.


End Patterns.

End NaturalPatterns.

(** *** Plants *)

(** [s.includes(sub)]. *)
Definition includes (s sub : string) : bool :=
  match String.index 0 sub s with
  | Some _ => true
  | None => false
  end.

Module Plants.

(** What the advisers read of [env]. *)
Record Env : Type := {
  soil : string;
  slopePercent : num;
  avgRainfallMm : num;
  sunHours : num
}.

(** An entry of [PLANTS], without the fields that are only shown (the
    scientific name, spacing, companions and the like); [score] is the
    field [recommendPlants] adds. *)
Record Plant : Type := {
  name : string;
  functions : list string;
  waterRequirement : option string;
  sunlightRequirement : option string;
  suitability : Env -> bool;
  type : string;
  score : option nat
}.

Definition plant (name_ : string) (functions_ : list string)
  (waterRequirement_ sunlightRequirement_ : option string)
  (suitability_ : Env -> bool) (type_ : string) : Plant :=
  {| name := name_; functions := functions_;
     waterRequirement := waterRequirement_; sunlightRequirement := sunlightRequirement_;
     suitability := suitability_; type := type_; score := None |}.

Definition PLANTS : list Plant :=
  [
    plant "Coconut" ["food"; "shade"; "windbreak"]
      None None
      (fun e => (avgRainfallMm e >=? of_Z 1200) && (sunHours e >=? of_Z 5)) "TREE";
    plant "Banana" ["food"; "mulch biomass"]
      None None
      (fun e => (avgRainfallMm e >=? of_Z 1400) && includes (soil e) "loam") "SHRUB";
    plant "Black Pepper" ["cash crop"; "climber"]
      None None
      (fun e => (avgRainfallMm e >=? of_Z 1800) && (includes (soil e) "loam" || includes (soil e) "lateritic")) "CLIMBER";
    plant "Arecanut" ["cash crop"; "canopy"]
      None None
      (fun e => (avgRainfallMm e >=? of_Z 1500)) "TREE";
    plant "Moringa" ["food"; "fast biomass"; "soil improver"]
      None None
      (fun e => (sunHours e >=? of_Z 5) && (avgRainfallMm e >=? of_Z 800)) "TREE";
    plant "Pigeon Pea" ["nitrogen fixer"; "mulch"]
      None None
      (fun _ => true) "LEGUME";
    plant "Turmeric" ["cash crop"; "mulch"]
      None None
      (fun e => (avgRainfallMm e >=? of_Z 1500) && includes (soil e) "loam") "ROOT";
    plant "Ginger" ["cash crop"; "mulch"]
      None None
      (fun e => (avgRainfallMm e >=? of_Z 1500)) "ROOT";
    plant "Cassava (Tapioca)" ["food"; "erosion control"]
      None None
      (fun e => (slopePercent e >=? of_Z 3)) "ROOT";
    plant "Jackfruit" ["food"; "shade"; "habitat"]
      None None
      (fun e => (avgRainfallMm e >=? of_Z 1200)) "TREE";
    plant "Nutmeg" ["spice"; "understory"]
      None None
      (fun e => (avgRainfallMm e >=? of_Z 2000)) "TREE";
    plant "Cardamom" ["spice"; "understory"]
      None None
      (fun e => (avgRainfallMm e >=? of_Z 2000) && (sunHours e <=? of_Z 6)) "HERB";
    plant "Pokkali Rice" ["food"; "salt-tolerant"; "traditional crop"]
      (Some "very high") (Some "full")
      (fun e => includes (soil e) "alluvial" && (avgRainfallMm e >=? of_Z 2200)) "GRAIN";
    plant "Drumstick (Moringa)" ["food"; "medicinal"; "fast-growing"]
      (Some "low") (Some "full")
      (fun e => (sunHours e >=? of_Z 6)) "TREE";
    plant "Taro (Chembu)" ["food"; "shade-tolerant"; "wetland crop"]
      (Some "high") (Some "partial")
      (fun e => (avgRainfallMm e >=? of_Z 1800)) "ROOT";
    plant "Yam (Chena)" ["food"; "climber"; "shade-tolerant"]
      (Some "moderate") (Some "partial")
      (fun e => (includes (soil e) "sandy" || includes (soil e) "loam")) "ROOT";
    plant "Curry Leaf" ["culinary"; "medicinal"; "hedge plant"]
      (Some "moderate") (Some "full to partial")
      (fun e => (avgRainfallMm e >=? of_Z 1000)) "SHRUB";
    plant "Bitter Gourd (Pavakka)" ["food"; "medicinal"; "climber"]
      (Some "moderate") (Some "full")
      (fun e => (sunHours e >=? of_Z 5)) "VINE";
    plant "Okra (Vendakka)" ["food"; "quick yield"]
      (Some "moderate") (Some "full")
      (fun e => (sunHours e >=? of_Z 6)) "VEGETABLE";
    plant "Amaranth (Cheera)" ["food"; "leafy vegetable"; "drought-tolerant"]
      (Some "low-moderate") (Some "full")
      (fun _ => true) "LEAFY_GREEN";
    plant "Cucumber (Vellarikka)" ["food"; "climber"; "high yield"]
      (Some "high") (Some "full")
      (fun e => (sunHours e >=? of_Z 5) && (avgRainfallMm e >=? of_Z 1200)) "VINE";
    plant "Pineapple" ["food"; "cash crop"; "drought-tolerant"]
      (Some "low-moderate") (Some "full")
      (fun e => (slopePercent e >=? of_Z 5) && includes (soil e) "lateritic") "FRUIT";
    plant "Tamarind" ["food"; "shade"; "long-lived"]
      (Some "low") (Some "full")
      (fun e => (avgRainfallMm e >=? of_Z 500)) "TREE";
    plant "Betel Leaf (Vettila)" ["cash crop"; "shade-loving"; "climber"]
      (Some "high") (Some "shade")
      (fun e => (sunHours e <=? of_Z 4) && (avgRainfallMm e >=? of_Z 2000)) "CLIMBER" ].

(** [filterByWaterRequirement(plants, waterAvailability)]. *)
Definition filterByWaterRequirement (plants : list Plant) (waterAvailability : string)
  : list Plant :=
  filter (fun p =>
            match waterRequirement p with
            | Some "low" =>
                String.eqb waterAvailability "low" || String.eqb waterAvailability "medium"
            | Some "moderate" =>
                String.eqb waterAvailability "medium" || String.eqb waterAvailability "high"
            | Some "high" => String.eqb waterAvailability "high"
            | Some "very high" => String.eqb waterAvailability "very high"
            | _ => true
            end)
         plants.

(** [filterBySunlight(plants, sunlightHours)]. *)
Definition filterBySunlight (plants : list Plant) (sunlightHours : num) : list Plant :=
  filter (fun p =>
            match sunlightRequirement p with
            | Some "shade" => sunlightHours <=? of_Z 4
            | Some "partial" => (sunlightHours >? of_Z 4) && (sunlightHours <=? of_Z 6)
            | Some "full" => sunlightHours >? of_Z 6
            | _ => true
            end)
         plants.

Record PlantFilter : Type := {
  function : string;
  edibility : string
}.

Definition hasFunction (p : Plant) (f : string) : bool :=
  existsb (String.eqb f) (functions p).

Definition waterAvailabilityOf (env : Env) : string :=
  if avgRainfallMm env >? of_Z 2000 then "very high"
  else if avgRainfallMm env >? of_Z 1500 then "high"
  else if avgRainfallMm env >? of_Z 1000 then "medium"
  else "low".

(** [{...p, score: p.functions.length}]. *)
Definition scored (p : Plant) : Plant :=
  {| name := name p; functions := functions p;
     waterRequirement := waterRequirement p; sunlightRequirement := sunlightRequirement p;
     suitability := suitability p; type := type p;
     score := Some (List.length (functions p)) |}.

Definition scoreOf (p : Plant) : num :=
  match score p with
  | Some n => of_nat n
  | None => NaN
  end.

(** [recommendPlants(env, plantFilter)]. *)
Definition recommendPlants (env : Env) (plantFilter : PlantFilter) : list Plant :=
  let filteredPlants := filter (fun p => suitability p env) PLANTS in
  let waterAvailability := waterAvailabilityOf env in
  let filteredPlants := filterByWaterRequirement filteredPlants waterAvailability in
  let filteredPlants := filterBySunlight filteredPlants (sunHours env) in
  let filteredPlants :=
    filter (fun p =>
              if negb (String.eqb (function plantFilter) "")
                 && negb (hasFunction p (function plantFilter))
              then false
              else if String.eqb (edibility plantFilter) "edible"
                      && negb (hasFunction p "food")
                      && negb (hasFunction p "cash crop")
              then false
              else true)
           filteredPlants in
  sort (fun a b => scoreOf b - scoreOf a) (map scored filteredPlants).

End Plants.

(** * Vocabulary of the properties *)

(** ** Predicates *)

(** A sample whose elevation is a finite number. *)
Definition finiteElevation (p : Sample) : Prop := is_finite (elevation p) = true.

(** What the specification asks of a contour: more than 10 points, all of
    them samples of the input, each with a finite elevation less than 1/2
    away from the (finite) level. *)
Definition contour_ok (demData : list Sample) (c : Contour) : Prop :=
  (10 < List.length (points c))%nat
  /\ incl (points c) demData
  /\ Forall (fun p => exists e l, elevation p = Fin e /\ level c = Fin l
                                  /\ (Qabs (e - l) < 1 # 2)%Q)
            (points c).

(** Consecutive points of a path: every point is followed by an [R]-related
    one. *)
Inductive Chain (A : Type) (R : A -> A -> Prop) : list A -> Prop :=
| Chain_nil : Chain R []
| Chain_one : forall x, Chain R [x]
| Chain_cons : forall x y l, R x y -> Chain R (y :: l) -> Chain R (x :: y :: l).

(** From [a] to [b] the elevation goes strictly down; it does not go up. *)
Definition strictlyDown (a b : Sample) : Prop := (elevation b <? elevation a) = true.
Definition notUp (a b : Sample) : Prop := (elevation b <=? elevation a) = true.

(** What the specification asks of a flow path. *)
Definition path_ok (path : list Sample) : Prop :=
  (3 < List.length path)%nat /\ Chain strictlyDown path /\ Chain notUp path.

(** A slope and an aspect in range: finite, the slope not negative, the
    aspect from 0 to 360, both ends included. *)
Definition inRange (t : Sample) : Prop :=
  exists s a, slope t = Some (Fin s) /\ aspect t = Some (Fin a)
              /\ (0 <= s)%Q /\ (0 <= a <= 360)%Q.

(** In the fourth quadrant (x > 0, y < 0) the arctangent lies strictly
    between [y / x] and 0. *)
Definition atan2_fourth_quadrant (M : MathLib) : Prop :=
  forall y x, (0 < x)%Q -> (y < 0)%Q ->
    (y < atan2Q M y x * x)%Q /\ (atan2Q M y x < 0)%Q.

(** A sample that [isPointInBoundary] accepts for the feature. *)
Definition interior (b : Feature) (p : Sample) : bool :=
  BoundaryUtils.isPointInBoundary (PArr (lat p) (lng p)) (BFeature b).

Definition isWaterTank (e : App.Element) : bool := String.eqb (App.type e) "WATER_TANK".

(** Elements whose kind is one of [kinds] and is the kind of no element of
    the list the callback started from. *)
Definition among (s : App.State) (kinds : list string) (l : list App.Element) : Prop :=
  Forall (fun e => In (App.type e) kinds
                   /\ App.someOfType (App.type e) (App.elements s) = false) l.

(** The kinds of the blocks of [autoDesignLayout] that run after the water
    tank's. *)
Definition kindsAfterTank : list string :=
  [ "POND_AREA"; "COMPOST"; "CHICKEN_COOP"; "BEEHIVE"; "SHED"; "SWALE"; "WINDBREAK";
    "VEGETABLE_GARDEN"; "FRUIT_ORCHARD"; "GRAIN_FIELD" ].

(** Every kind a block of [autoDesignLayout] pushes. *)
Definition synthesisKinds : list string := "HOUSE" :: "WATER_TANK" :: kindsAfterTank.

(** An element that no block of [autoDesignLayout] closed over [closed]
    pushes: its kind is none of the blocks', or the list closed over
    already has that kind. *)
Definition notSynthesized (closed : App.State) (e : App.Element) : Prop :=
  ~ In (App.type e) synthesisKinds
  \/ App.someOfType (App.type e) (App.elements closed) = true.


(** A position whose two coordinates are finite numbers. *)
Definition finitePair (p : Pair) : Prop :=
  is_finite (fst p) = true /\ is_finite (snd p) = true.

(** [south], [north], [west] and [east] are the least and the greatest
    latitude and longitude among the vertices of a ring of [[lng, lat]]
    positions: every vertex lies between them, and each is the coordinate
    of a vertex. *)
Definition extremes (ring_ : list Pair) (south north west east : Q) : Prop :=
  Forall (fun v => exists x y, v = (Fin x, Fin y)
                               /\ (west <= x <= east)%Q /\ (south <= y <= north)%Q) ring_
  /\ (exists v, In v ring_ /\ snd v = Fin south)
  /\ (exists v, In v ring_ /\ snd v = Fin north)
  /\ (exists v, In v ring_ /\ fst v = Fin west)
  /\ (exists v, In v ring_ /\ fst v = Fin east).

(** The first [na] arrays and the first [no] records are the same in [h']
    as in [h], and nothing was taken away. *)
Definition agree (na no : nat) (h h' : Store.store) : Prop :=
  firstn na (Store.arrays h') = firstn na (Store.arrays h)
  /\ firstn no (Store.objects h') = firstn no (Store.objects h)
  /\ (List.length (Store.arrays h) <= List.length (Store.arrays h'))%nat
  /\ (List.length (Store.objects h) <= List.length (Store.objects h'))%nat.

(** A computation that, started on a store with at least [na] arrays and
    [no] records, leaves those as they were and returns a result in [Q]. *)
Definition frames (na no : nat) (A : Type) (m : Store.Mem A) (Q : A -> Prop) : Prop :=
  forall h, (na <= List.length (Store.arrays h))%nat ->
            (no <= List.length (Store.objects h))%nat ->
    agree na no h (snd (m h)) /\ Q (fst (m h)).

(** An address that is not one of the first [na]: what an allocation
    returns. *)
Definition fresh (na a : nat) : Prop := (na <= a)%nat.

(** Every array and every record of [h] is in [h'] at the same address
    with the same content. *)
Definition unchanged (h h' : Store.store) : Prop :=
  (forall a, (a < List.length (Store.arrays h))%nat ->
             nth_error (Store.arrays h') a = nth_error (Store.arrays h) a)
  /\ (forall r, (r < List.length (Store.objects h))%nat ->
                nth_error (Store.objects h') r = nth_error (Store.objects h) r).

(** The samples an array holds. *)
Definition contents (h : Store.store) (a : nat) : list Sample :=
  map (Store.deref (Store.objects h)) (nth a (Store.arrays h) []).

(** The closed ring of the rectangle with corners [(a, b)] and [(c, d)],
    in the order the mock layers and the flood square list it: along
    [b] first, back along [d]. *)
Definition rectangleRing (a c b d : Q) : list Pair :=
  [ (Fin a, Fin b); (Fin c, Fin b); (Fin c, Fin d); (Fin a, Fin d); (Fin a, Fin b) ].

(** [Number.EPSILON] as a rational. *)
Definition epsilonQ : Q := 1 # 4503599627370496.

(** The half-open box from [(a, b)] to [(c, d)]: its west and south sides
    belong to it, its east and north sides do not. *)
Definition inBox (a c b d x y : Q) : Prop := (a <= x < c)%Q /\ (b <= y < d)%Q.

(** The order of the three risk levels. *)
Definition riskRank (r : string) : nat :=
  if String.eqb r "high" then 2 else if String.eqb r "medium" then 1 else 0.

(** The point of the segment from [(x1, y1)] to [(x2, y2)] at parameter
    [t], and the square of the distance between two points. *)
Definition along (x1 y1 x2 y2 t : Q) : Q * Q :=
  (x1 + t * (x2 - x1), y1 + t * (y2 - y1))%Q.

Definition distSq (p q : Q * Q) : Q :=
  ((fst p - fst q) * (fst p - fst q) + (snd p - snd q) * (snd p - snd q))%Q.

(** A position inside a box (a GeoJSON position: longitude first). *)
Definition inBounds (b : Box) (lng_ lat_ : num) : Prop :=
  (minLng b <=? lng_) = true /\ (lng_ <=? maxLng b) = true
  /\ (minLat b <=? lat_) = true /\ (lat_ <=? maxLat b) = true.

(** A sample at a finite position between [south] and [north], [west] and
    [east]. *)
Definition inExtent (south north west east : Q) (sample : Sample) : Prop :=
  exists a o, lat sample = Fin a /\ lng sample = Fin o
              /\ (south <= a <= north)%Q /\ (west <= o <= east)%Q.

(** A point with finite coordinates that is, on each axis, no further
    than [reach] from [(x0, y0)]. *)
Definition within (x0 y0 reach : Q) (p : Pair) : Prop :=
  exists x y, p = (Fin x, Fin y)
              /\ (Qabs (x - x0) <= reach)%Q /\ (Qabs (y - y0) <= reach)%Q.

(** A plant that serves at least as many functions as the next, and a
    plant that carries its number of functions as its score. *)
Definition noFewerFunctions (a b : Plants.Plant) : Prop :=
  (List.length (Plants.functions b) <= List.length (Plants.functions a))%nat.

Definition carriesScore (p : Plants.Plant) : Prop :=
  Plants.score p = Some (List.length (Plants.functions p)).

(** The three labels [filterByWaterRequirement] drops under a "very high"
    availability. *)
Definition modestWaterLabels : list string := [ "low"; "moderate"; "high" ].

(** ** A stand-in platform *)

(** Coarse rational stand-ins for the four [Math] functions, to run the
    model on sample inputs: the integer square root of numerator times
    denominator over the denominator, the sine and cosine of 0, and an
    arctangent that follows [y / 2x] in the fourth quadrant (where the
    true one lies between [y / x] and 0). *)
Definition coarse_sqrt (q : Q) : Q :=
  Qred (Z.sqrt (Qnum q * Zpos (Qden q)) # Qden q).

Definition coarse_atan2 (y x : Q) : Q :=
  if Qlt_le_dec 0 x then
    if Qlt_le_dec y 0 then Qred (Qmax (y / (2 * x)) (-3)) else 0
  else 0.

Definition coarseMath : MathLib :=
  {| sinQ := fun _ => 0%Q; cosQ := fun _ => 1%Q;
     sqrtQ := coarse_sqrt; atan2Q := coarse_atan2 |}.

(** A stream that always draws 1/4. *)
Definition steadyDraws : Random := fun _ => (1 # 4)%Q.

(** A clock reading, and a rendering of numbers that prints nothing. *)
Definition noon : num := of_Z 1700000000000.
Definition mute : num -> string := fun _ => "".

(** ** Sample inputs *)

(** Eleven samples at 5 m and one at 7 m, and the contour of the eleven. *)
Definition plateau : list Sample :=
  map (fun i => demPoint (of_nat i) (of_Z 0) (of_Z 5)) (seq 0 11)
  ++ [demPoint (of_Z 20) (of_Z 0) (of_Z 7)].

Definition plateauContour : Contour :=
  {| level := of_Z 5; points := firstn 11 plateau |}.

(** A slope of five samples, one step of 0.001 apart, from 10 m down to
    6 m. *)
Definition ramp : list Sample :=
  map (fun i => withTopography
                  (demPoint (dec (Z.of_nat i) 3) (of_Z 0) (of_nat (10 - i)))
                  (of_Z 0) (of_Z 0))
      (seq 0 5).

(** Four samples: a corner at 2.1 m, a wall of 200 m one step east of it,
    and two samples at 2 m to the north. *)
Definition corner : Sample := demPoint (of_Z 0) (of_Z 0) (dec 21 1).
Definition eastWall : Sample := demPoint (of_Z 0) (dec 1 3) (of_Z 200).
Definition northStep : Sample := demPoint (dec 2 3) (of_Z 0) (of_Z 2).
Definition farStep : Sample := demPoint (dec 2 3) (dec 2 3) (of_Z 2).
Definition cliff : list Sample := [corner; eastWall; northStep; farStep].

(** A right triangle with legs of 10 along the axes, as [[lng, lat]]
    positions; a point with [lat + lng > 10] is outside it. *)
Definition triangle : Feature :=
  polygonFeature [ (of_Z 0, of_Z 0); (of_Z 10, of_Z 0); (of_Z 0, of_Z 10); (of_Z 0, of_Z 0) ].

(** A plot 4 wide (longitude) and 2 high (latitude). *)
Definition plot : Feature :=
  polygonFeature [ (of_Z 0, of_Z 0); (of_Z 4, of_Z 0); (of_Z 4, of_Z 2);
                   (of_Z 0, of_Z 2); (of_Z 0, of_Z 0) ].

(** A ring of three vertices on one meridian (longitude 76), closed: a
    boundary of zero width. *)
Definition sliverRing : list Pair :=
  [ (of_Z 76, of_Z 10); (of_Z 76, dec 10001 3); (of_Z 76, dec 10002 3); (of_Z 76, of_Z 10) ].

Definition sliver : Feature := polygonFeature sliverRing.

(** The grid over the sliver, as [generateDEM] makes it on any platform:
    16 rows of 16 samples on the meridian, the elevation of each NaN. *)
Definition blankCell (b : Box) (points : num) (i j : nat) : Sample :=
  demPoint (minLat b + (of_nat i / points) * (maxLat b - minLat b))
           (minLng b + (of_nat j / points) * (maxLng b - minLng b)) NaN.

Definition sliverDEM : list Sample :=
  DEMUtils.grid 16 (fun i j _ => blankCell (boundingBox sliverRing) (of_Z 15) i j) 0.

(** A square field a thousandth of a degree wide, and the elevation grid
    the stand-in platform generates over it. *)
Definition fieldRing : list Pair :=
  [ (of_Z 76, of_Z 10); (dec 76001 3, of_Z 10); (dec 76001 3, dec 10001 3);
    (of_Z 76, dec 10001 3); (of_Z 76, of_Z 10) ].

Definition field : Feature := polygonFeature fieldRing.

Definition fieldDEM : list Sample :=
  match DEMUtils.generateDEM coarseMath steadyDraws (of_Z 10) (of_Z 76) (dec 5 2)
          (BFeature field) 0 with
  | Some (samples, _) => samples
  | None => []
  end.

Definition topoPoint (la ln e : num) : Sample :=
  withTopography (demPoint la ln e) (of_Z 0) (of_Z 0).

(** The state the component starts in, and a state with a boundary and
    terrain but no element, the synthesis under way. *)
Definition emptyState : App.State :=
  {| App.marker := (dec 108505 4, dec 762711 4); App.elements := [];
     App.selectedElementType := None; App.boundary := None;
     App.demData := []; App.topography := [];
     App.windDirection := of_Z 225; App.isDesigning := false |}.

Definition withTerrain (b : Feature) (dem topo : list Sample) : App.State :=
  {| App.marker := App.marker emptyState; App.elements := [];
     App.selectedElementType := None; App.boundary := Some b;
     App.demData := dem; App.topography := topo;
     App.windDirection := of_Z 225; App.isDesigning := true |}.

(** The state a run of [autoDesignLayout] on the stand-in platform leaves,
    or the state it started from when the run is not done within [fuel]. *)
Definition laidOut (fuel : nat) (s : App.State) : App.State :=
  match App.autoDesignLayout coarseMath steadyDraws noon mute fuel s 0 with
  | Some (s', _, _) => s'
  | None => s
  end.

(** Over the triangle: three topography samples inside it, and one, the
    highest of all, outside. *)
Definition meadow : App.State :=
  withTerrain triangle plateau
    [ topoPoint (of_Z 2) (of_Z 2) (of_Z 3);
      topoPoint (of_Z 3) (of_Z 3) (of_Z 7);
      topoPoint (of_Z 1) (of_Z 4) (of_Z 5);
      topoPoint (of_Z 9) (of_Z 9) (of_Z 9) ].

(** Over the triangle: a ridge of 20 samples at 9 m inside the bounding
    box but outside the triangle, and one sample at 6 m inside it. *)
Definition ridge : list Sample :=
  map (fun i => topoPoint (of_Z 9) (Fin (5 + inject_Z (Z.of_nat i) / 4)) (of_Z 9)) (seq 0 20)
  ++ [topoPoint (of_Z 2) (of_Z 2) (of_Z 6)].

Definition ridgeState : App.State := withTerrain triangle [] ridge.

(** Over the plot: the house tool selected and nothing placed yet. *)
Definition placing : App.State :=
  {| App.marker := App.marker emptyState; App.elements := [];
     App.selectedElementType := Some "HOUSE"; App.boundary := Some plot;
     App.demData := []; App.topography := [];
     App.windDirection := of_Z 225; App.isDesigning := false |}.

(** Over the plot: a compost heap at latitude 1, longitude 1, inside it,
    and no tool selected. *)
Definition heap : App.Element :=
  App.pointElement "COMPOST" "Compost" (of_Z 1, of_Z 1) (of_Z 7).

Definition tending : App.State :=
  {| App.marker := App.marker emptyState; App.elements := [heap];
     App.selectedElementType := None; App.boundary := Some plot;
     App.demData := []; App.topography := [];
     App.windDirection := of_Z 225; App.isDesigning := false |}.

(** Over the meadow with the herb-spiral tool selected, a use of the
    component in four steps: the button is clicked; within the two seconds
    of the timer the map is clicked at latitude 2, longitude 2, which
    places a herb spiral; then the timer fires, at a clock reading two
    seconds on. *)
Definition meadowTool : App.State :=
  {| App.marker := App.marker meadow; App.elements := App.elements meadow;
     App.selectedElementType := Some "HERB_SPIRAL"; App.boundary := App.boundary meadow;
     App.demData := App.demData meadow; App.topography := App.topography meadow;
     App.windDirection := App.windDirection meadow; App.isDesigning := false |}.

Definition clicked : App.State := fst (fst (App.autoDesignLayoutClick meadowTool)).

Definition planted : App.State :=
  fst (App.onMapClick coarseMath noon clicked (of_Z 2, of_Z 2)).

Definition herbSpiral : App.Element :=
  App.pointElement "HERB_SPIRAL" "Herb Spiral" (of_Z 2, of_Z 2) noon.

Definition twoSecondsOn : num := noon + of_Z 2000.

Definition fired : App.State :=
  match App.autoDesignLayoutTimer coarseMath steadyDraws twoSecondsOn mute 3
          meadowTool planted 0 with
  | Some (after, _, _) => after
  | None => planted
  end.


(** A store with one array of two samples, the lower one first; and the
    store that holds a list of samples in one array. *)
Definition twoSamples : Store.store :=
  {| Store.arrays := [[0; 1]%nat];
     Store.objects := [ demPoint (of_Z 0) (of_Z 0) (of_Z 3);
                        demPoint (of_Z 1) (of_Z 0) (of_Z 8) ] |}.

Definition inStore (samples : list Sample) : Store.store :=
  {| Store.arrays := [seq 0 (List.length samples)]; Store.objects := samples |}.

(** A wet alluvial site in full sun, the filter the component starts
    with, and Pokkali rice as the recommender scores it. *)
Definition wetland : Plants.Env :=
  {| Plants.soil := "alluvial"; Plants.slopePercent := of_Z 2;
     Plants.avgRainfallMm := of_Z 2300; Plants.sunHours := of_Z 7 |}.

Definition allPlants : Plants.PlantFilter :=
  {| Plants.function := ""; Plants.edibility := "" |}.

Definition pokkaliRice : Plants.Plant :=
  Plants.scored
    (Plants.plant "Pokkali Rice" ["food"; "salt-tolerant"; "traditional crop"]
       (Some "very high") (Some "full")
       (fun e => includes (Plants.soil e) "alluvial"
                 && (Plants.avgRainfallMm e >=? of_Z 2200)) "GRAIN").

(** * Properties *)

(** ** Facts about numbers *)

Lemma ltb_leb (a b : num) : (a <? b) = true -> (a <=? b) = true.
Proof.
  unfold ltb, leb. destruct (compare a b) as [[ | | ] | ]; congruence.
Qed.

Lemma ltb_Fin (x y : Q) : (Fin x <? Fin y) = true <-> (x < y)%Q.
Proof.
  unfold ltb; simpl. rewrite Qlt_alt. destruct (x ?= y)%Q; split; congruence.
Qed.

Lemma leb_Fin (x y : Q) : (Fin x <=? Fin y) = true <-> (x <= y)%Q.
Proof.
  unfold leb; simpl. rewrite Qle_alt.
  destruct (x ?= y)%Q; split; try congruence; intros H; try reflexivity;
    exfalso; apply H; reflexivity.
Qed.

Lemma ltb_irrefl (a : num) : (a <? a) = false.
Proof.
  destruct a; try reflexivity.
  destruct (Fin q <? Fin q) eqn:E; [ | reflexivity ].
  apply ltb_Fin in E. exfalso; revert E; apply Qlt_irrefl.
Qed.

(** A number under a finite bound in absolute value is finite. *)
Lemma abs_ltb_finite (a : num) (t : Q) :
  (Math_abs a <? Fin t) = true -> exists q, a = Fin q /\ (Qabs q < t)%Q.
Proof.
  destruct a as [ | | | q]; simpl; try discriminate.
  intros H. exists q. split; [ reflexivity | now apply ltb_Fin ].
Qed.

Lemma sub_Fin_inv (a b : num) (q : Q) :
  a - b = Fin q -> exists x y, a = Fin x /\ b = Fin y /\ q = (x + - y)%Q.
Proof.
  destruct a as [ | | | x], b as [ | | | y]; simpl; try discriminate.
  intros H; injection H as <-. now exists x, y.
Qed.

(** ** Sorting facts *)

Section SortFacts.
Variable A : Type.
Variable cmp : A -> A -> num.

Lemma insert_perm (x : A) (l : list A) : Permutation (insert cmp x l) (x :: l).
Proof.
  induction l as [ | y l IH]; simpl; [ reflexivity | ].
  destruct (cmp x y >? of_Z 0); [ | reflexivity ].
  rewrite IH. apply perm_swap.
Qed.

Lemma sort_perm (l : list A) : Permutation (sort cmp l) l.
Proof.
  induction l as [ | x l IH]; simpl; [ reflexivity | ].
  rewrite insert_perm. now constructor.
Qed.

Lemma sort_In (x : A) (l : list A) : In x (sort cmp l) <-> In x l.
Proof.
  split; apply Permutation_in; [ | symmetry ]; apply sort_perm.
Qed.

(** On a domain [P] where the comparator decides an order [R] that is
    transitive, the result is sorted: every element is [R]-related to all
    that come after it. *)
Variable P : A -> Prop.
Variable R : A -> A -> Prop.
Hypothesis R_trans : forall a b c, P a -> P b -> P c -> R a b -> R b c -> R a c.
Hypothesis cmp_keeps : forall x y, P x -> P y -> (cmp x y >? of_Z 0) = false -> R x y.
Hypothesis cmp_swaps : forall x y, P x -> P y -> (cmp x y >? of_Z 0) = true -> R y x.

Lemma insert_sorted (x : A) (l : list A) :
  P x -> Forall P l -> StronglySorted R l -> StronglySorted R (insert cmp x l).
Proof.
  intros Px Pl Hs. induction Hs as [ | y l Hs IH Hy]; simpl.
  - constructor; constructor.
  - inversion Pl as [ | ? ? Py Pl']; subst.
    destruct (cmp x y >? of_Z 0) eqn:E.
    + constructor; [ now apply IH | ].
      apply Forall_forall. intros z Hz.
      apply (Permutation_in _ (insert_perm x l)) in Hz.
      destruct Hz as [<- | Hz]; [ now apply cmp_swaps | ].
      rewrite Forall_forall in Hy. now apply Hy.
    + constructor; [ now constructor | ].
      constructor; [ now apply cmp_keeps | ].
      apply Forall_forall. intros z Hz.
      rewrite Forall_forall in Hy, Pl'.
      apply R_trans with y; auto.
Qed.

Lemma sort_sorted (l : list A) : Forall P l -> StronglySorted R (sort cmp l).
Proof.
  induction 1 as [ | x l Px Pl IH]; simpl; [ constructor | ].
  apply insert_sorted; [ exact Px | | exact IH ].
  apply Forall_forall. intros z Hz. apply (proj1 (sort_In z l)) in Hz.
  rewrite Forall_forall in Pl. auto.
Qed.

(** In a sorted list, whatever is among the first [n] is related to
    whatever is not. *)
Lemma sorted_firstn_skipn (n : nat) (l : list A) (x y : A) :
  StronglySorted R l -> In x (firstn n l) -> In y (skipn n l) -> R x y.
Proof.
  intros Hs. revert n. induction Hs as [ | a l Hs IH Ha]; intros n Hx Hy.
  - destruct n; destruct Hx.
  - destruct n as [ | n]; [ destruct Hx | ]. simpl in Hx, Hy.
    destruct Hx as [<- | Hx].
    + rewrite Forall_forall in Ha. apply Ha.
      rewrite <- (firstn_skipn n l). apply in_or_app. now right.
    + now apply IH with n.
Qed.

End SortFacts.

Lemma leb_trans_finite (a b c : Sample) :
  finiteElevation a -> finiteElevation b -> finiteElevation c ->
  notUp a b -> notUp b c -> notUp a c.
Proof.
  unfold finiteElevation, notUp.
  destruct (elevation a), (elevation b), (elevation c); try discriminate.
  intros _ _ _ H1 H2. apply leb_Fin in H1, H2. apply leb_Fin. lra.
Qed.

Lemma descending_keeps (x y : Sample) :
  finiteElevation x -> finiteElevation y ->
  (elevation y - elevation x >? of_Z 0) = false -> notUp x y.
Proof.
  unfold finiteElevation, notUp, gtb.
  destruct (elevation x) as [ | | | ex], (elevation y) as [ | | | ey]; try discriminate.
  intros _ _ H. apply leb_Fin.
  destruct (Qlt_le_dec ex ey) as [Hlt | Hle]; [ | exact Hle ].
  exfalso. assert (Ht : (of_Z 0 <? Fin ey - Fin ex) = true).
  { apply ltb_Fin. change (inject_Z 0) with 0%Q. lra. }
  congruence.
Qed.

Lemma descending_swaps (x y : Sample) :
  finiteElevation x -> finiteElevation y ->
  (elevation y - elevation x >? of_Z 0) = true -> notUp y x.
Proof.
  unfold finiteElevation, notUp, gtb.
  destruct (elevation x) as [ | | | ex], (elevation y) as [ | | | ey]; try discriminate.
  intros _ _ H. apply leb_Fin. apply ltb_Fin in H.
  change (inject_Z 0) with 0%Q in H. lra.
Qed.

(** [findHighPoints]: among the samples it returns, none is lower than a
    sample it leaves out. *)
Lemma findHighPoints_top (topography : list Sample) (count : nat) (x y : Sample) :
  Forall finiteElevation topography ->
  In x (DEMUtils.findHighPoints topography count) ->
  In y topography ->
  In y (DEMUtils.findHighPoints topography count) \/ notUp x y.
Proof.
  intros Hfin Hx Hy. unfold DEMUtils.findHighPoints in *.
  set (cmp := fun a b : Sample => elevation b - elevation a) in *.
  apply (proj2 (sort_In cmp y topography)) in Hy.
  rewrite <- (firstn_skipn count (sort cmp topography)) in Hy.
  apply in_app_or in Hy. destruct Hy as [Hy | Hy]; [ now left | right ].
  apply sorted_firstn_skipn with (n := count) (l := sort cmp topography); try assumption.
  apply sort_sorted with (P := finiteElevation); try assumption.
  - exact leb_trans_finite.
  - intros a b. apply descending_keeps.
  - intros a b. apply descending_swaps.
Qed.

Lemma findHighPoints_In (topography : list Sample) (count : nat) (x : Sample) :
  In x (DEMUtils.findHighPoints topography count) -> In x topography.
Proof.
  unfold DEMUtils.findHighPoints. intros H.
  apply (sort_In (fun a b : Sample => elevation b - elevation a)).
  rewrite <- (firstn_skipn count). apply in_or_app. now left.
Qed.

(** ** The stand-in platform meets the assumptions *)

Lemma coarseMath_ok : MathLib_ok coarseMath.
Proof.
  constructor; simpl.
  - intros _. lra.
  - intros _. lra.
  - intros x Hx. unfold coarse_sqrt. rewrite Qred_correct.
    unfold Qle; simpl. rewrite Z.mul_1_r. apply Z.sqrt_nonneg.
  - intros y x. unfold coarse_atan2, Math_PI_Q.
    destruct (Qlt_le_dec 0 x) as [Hx | Hx]; [ | lra ].
    destruct (Qlt_le_dec y 0) as [Hy | Hy]; [ | lra ].
    rewrite Qred_correct.
    assert (Hneg : (y / (2 * x) < 0)%Q).
    { unfold Qdiv. setoid_replace 0%Q with (0 * / (2 * x))%Q by ring.
      apply Qmult_lt_compat_r; [ apply Qinv_lt_0_compat; lra | exact Hy ]. }
    destruct (Q.max_spec (y / (2 * x)) (-3)) as [[_ ->] | [H ->]]; lra.
Qed.

Lemma steadyDraws_ok : Random_ok steadyDraws.
Proof. intros n. unfold steadyDraws. lra. Qed.

(** ** C1: placement and drag against the boundary *)

(** The boundary test of [onMapClick] passes whatever the point: the
    callback hands [isPointInBoundary] an array of positions, in which it
    finds no [geometry]. *)
Lemma isPointInBoundary_array (point : PointArg) (latLngCoords : list Pair) :
  BoundaryUtils.isPointInBoundary point (BArray latLngCoords) = true.
Proof. reflexivity. Qed.

(** So a click with a catalogued kind selected never raises the
    outside-the-boundary alert. *)
Lemma onMapClick_no_alert (M : MathLib) (now : num) (s : App.State) (latlng : Pair)
  (sel : string) (e : ELEMENT_TYPES.entry) :
  App.selectedElementType s = Some sel ->
  ELEMENT_TYPES.get sel = Some e ->
  snd (App.onMapClick M now s latlng) = [].
Proof.
  intros Hsel Hget. unfold App.onMapClick. destruct latlng as [la ln]. rewrite Hsel.
  destruct (String.eqb sel ""); [ reflexivity | ]. rewrite Hget.
  assert (Hin : match App.boundary s with
                | None => true
                | Some b =>
                    match match geometry b with
                          | Some g =>
                              if String.eqb (ftype b) "Feature" && String.eqb (gtype g) "Polygon"
                              then Some (map (fun coord => (snd coord, fst coord)) (ring g))
                              else None
                          | None => None
                          end with
                    | Some latLngCoords =>
                        BoundaryUtils.isPointInBoundary (PArr la ln) (BArray latLngCoords)
                    | None => true
                    end
                end = true).
  { destruct (App.boundary s) as [b | ]; [ | reflexivity ].
    destruct (geometry b) as [g | ]; [ | reflexivity ].
    destruct (String.eqb (ftype b) "Feature" && String.eqb (gtype g) "Polygon"); reflexivity. }
  rewrite Hin. simpl.
  repeat match goal with |- context [if ?c then _ else _] => destruct c end; reflexivity.
Qed.

(** The house tool over the plot, a click outside the plot. *)
Lemma onMapClick_no_alert_witness :
  snd (App.onMapClick coarseMath noon placing (of_Z 5, of_Z 5)) = [].
Proof.
  apply (@onMapClick_no_alert coarseMath noon placing (of_Z 5, of_Z 5) "HOUSE"
           {| ELEMENT_TYPES.name := "House"; ELEMENT_TYPES.optimalZone := "0";
              ELEMENT_TYPES.geometry := "point"; ELEMENT_TYPES.priority := 1 |});
    reflexivity.
Defined.

(** The boundary test of [onElementDrag] is made on the transposed point:
    a marker dropped at latitude [newLat], longitude [newLng] is moved
    exactly when the point with x = [newLat] and y = [newLng] is inside the
    ring, whose vertices are (x = longitude, y = latitude). *)
Lemma dragOne_tests_transposed (s : App.State) (r : list Pair) (el : App.Element)
  (p : Pair) (newLat newLng : num) :
  App.boundary s = Some (polygonFeature r) ->
  App.shape el = App.Position p ->
  fst (App.dragOne s (App.id el) newLat newLng el)
  = if (App.id el ==? App.id el) && pointInPolygon (newLat, newLng) r
    then {| App.type := App.type el; App.shape := App.Position (newLat, newLng);
            App.name := App.name el; App.id := App.id el |}
    else el.
Proof.
  intros Hb Hshape. unfold App.dragOne. rewrite Hshape, Hb.
  destruct (App.id el ==? App.id el); [ | reflexivity ].
  unfold BoundaryUtils.isPointInBoundary. simpl.
  destruct (pointInPolygon_from _ _ _ _ _); reflexivity.
Qed.

(** The heap dropped at latitude 3, longitude 1. *)
Lemma dragOne_tests_transposed_witness :
  fst (App.dragOne tending (App.id heap) (of_Z 3) (of_Z 1) heap)
  = if (App.id heap ==? App.id heap)
       && pointInPolygon (of_Z 3, of_Z 1)
            [ (of_Z 0, of_Z 0); (of_Z 4, of_Z 0); (of_Z 4, of_Z 2);
              (of_Z 0, of_Z 2); (of_Z 0, of_Z 0) ]
    then {| App.type := App.type heap; App.shape := App.Position (of_Z 3, of_Z 1);
            App.name := App.name heap; App.id := App.id heap |}
    else heap.
Proof.
  exact (@dragOne_tests_transposed tending _ heap (of_Z 1, of_Z 1) (of_Z 3) (of_Z 1)
           eq_refl eq_refl).
Defined.

(** C1, on the code.  Over the plot (longitude 0 to 4, latitude 0 to 2):
    a click at latitude 5, longitude 5, outside the plot, places the house
    there without an alert; dragging the heap to latitude 3, longitude 1,
    outside the plot, moves it there without an alert; dragging it to
    latitude 1, longitude 3, inside the plot, is refused. *)
Theorem placement_and_drag_ignore_boundary :
  forall (M : MathLib) (now : num),
    let outside := (of_Z 5, of_Z 5) in
    let north := (of_Z 3, of_Z 1) in
    let east := (of_Z 1, of_Z 3) in
    (BoundaryUtils.isPointInBoundary (PArr (fst outside) (snd outside)) (BFeature plot) = false
     /\ App.onMapClick M now placing outside
        = (App.setElements placing [App.pointElement "HOUSE" "House" outside now], []))
    /\ (BoundaryUtils.isPointInBoundary (PArr (fst north) (snd north)) (BFeature plot) = false
        /\ App.onElementDrag tending (of_Z 7) north
           = (App.setElements tending
                [App.pointElement "COMPOST" "Compost" north (of_Z 7)], []))
    /\ (BoundaryUtils.isPointInBoundary (PArr (fst east) (snd east)) (BFeature plot) = true
        /\ App.onElementDrag tending (of_Z 7) east
           = (tending, ["Cannot move element outside the boundary"])).
Proof.
  intros M now. cbv zeta. repeat split; vm_compute; reflexivity.
Qed.

(** ** Placement synthesis: what each block pushes *)

Lemma Forall_firstn_keeps (A : Type) (P : A -> Prop) (n : nat) (l : list A) :
  Forall P l -> Forall P (firstn n l).
Proof.
  revert l. induction n as [ | n IH]; intros l H; simpl; [ constructor | ].
  destruct H; constructor; auto.
Qed.

Section LayoutFacts.
Variable M : MathLib.
Variable rnd : Random.
Variable now : num.
Variable render : num -> string.
Variable s : App.State.
Variable b : Feature.

Lemma among_nil (kinds : list string) : among s kinds [].
Proof. constructor. Qed.

Lemma among_app (kinds : list string) (l l' : list App.Element) :
  among s kinds l -> among s kinds l' -> among s kinds (l ++ l').
Proof. intros H H'. apply Forall_app. now split. Qed.

Lemma among_incl (kinds kinds' : list string) (l : list App.Element) :
  incl kinds kinds' -> among s kinds l -> among s kinds' l.
Proof.
  intros Hi H. eapply Forall_impl; [ | exact H ].
  intros e [Hin Hno]. split; [ now apply Hi | exact Hno ].
Qed.

Lemma among_one (kind : string) (e : App.Element) :
  App.type e = kind ->
  negb (App.someOfType kind (App.elements s)) = true ->
  among s [kind] [e].
Proof.
  intros <- Hguard. constructor; [ | constructor ].
  split; [ now left | ]. now apply negb_true_iff.
Qed.

Lemma placeHouse_among (k : nat) :
  among s ["HOUSE"] (fst (fst (App.placeHouse rnd now s b k))).
Proof.
  unfold App.placeHouse.
  destruct (negb (App.someOfType "HOUSE" (App.elements s))) eqn:G; [ | apply among_nil ].
  destruct (BoundaryUtils.generateRandomPointInBoundary rnd (BFeature b) k) as [pt k'].
  simpl. now apply among_one.
Qed.

Lemma placeWaterTank_among : among s ["WATER_TANK"] (App.placeWaterTank now s b).
Proof.
  unfold App.placeWaterTank.
  destruct (BoundaryUtils.filterPointsInBoundary _ _); [ apply among_nil | ].
  destruct (negb (App.someOfType "WATER_TANK" (App.elements s))) eqn:G; [ | apply among_nil ].
  now apply among_one.
Qed.

Lemma placePond_among (size : num) : among s ["POND_AREA"] (App.placePond M now s b size).
Proof.
  unfold App.placePond.
  destruct (BoundaryUtils.filterPointsInBoundary _ _); [ apply among_nil | ].
  destruct (negb (App.someOfType "POND_AREA" (App.elements s))) eqn:G; [ | apply among_nil ].
  now apply among_one.
Qed.

Lemma placeNearHouse_among (kind label : string) (offset : Pair) (idOffset : Z) :
  among s [kind] (App.placeNearHouse now s b kind label offset idOffset).
Proof.
  unfold App.placeNearHouse.
  destruct (negb (App.someOfType kind (App.elements s))) eqn:G; [ | apply among_nil ].
  destruct (BoundaryUtils.isPointInBoundary _ _); [ | apply among_nil ].
  now apply among_one.
Qed.

Lemma swaleOf_among (swaleLines : list App.Element) (contour : Contour) :
  negb (App.someOfType "SWALE" (App.elements s)) = true ->
  among s ["SWALE"] swaleLines ->
  among s ["SWALE"] (App.swaleOf now render b swaleLines contour).
Proof.
  intros G H. unfold App.swaleOf.
  repeat match goal with |- context [if ?c then _ else _] => destruct c end;
    try exact H.
  apply among_app; [ exact H | now apply among_one ].
Qed.

Lemma placeSwales_among (fuel : nat) (swales : list App.Element) :
  App.placeSwales now render fuel s b = Some swales -> among s ["SWALE"] swales.
Proof.
  unfold App.placeSwales.
  destruct (negb (App.someOfType "SWALE" (App.elements s))) eqn:G.
  - destruct (DEMUtils.generateContours _ _ _) as [contours | ]; [ | discriminate ].
    intros H; injection H as <-.
    assert (Hall : forall acc, among s ["SWALE"] acc ->
                     among s ["SWALE"] (fold_left (App.swaleOf now render b) contours acc)).
    { induction contours as [ | c cs IH]; intros acc Hacc; simpl; [ exact Hacc | ].
      apply IH. now apply swaleOf_among. }
    apply (@Forall_firstn_keeps _ _ 3 (fold_left (App.swaleOf now render b) contours [])).
    apply Hall. apply among_nil.
  - intros H; injection H as <-. apply among_nil.
Qed.

Lemma placeWindbreak_among (diagonal : num) (k : nat) :
  among s ["WINDBREAK"] (fst (App.placeWindbreak M rnd now s b diagonal k)).
Proof.
  unfold App.placeWindbreak.
  destruct (negb (App.someOfType "WINDBREAK" (App.elements s))) eqn:G; [ | apply among_nil ].
  destruct (BoundaryUtils.generateRandomPointInBoundary rnd (BFeature b) k) as [pt k'].
  match goal with |- context [if ?c then _ else _] =>
    destruct c; simpl; [ now apply among_one | apply among_nil ] end.
Qed.

Lemma placeZone_among (kinds : list string) (acc : list App.Element * nat)
  (area : string * num) :
  In (fst area) kinds ->
  exists zone,
    fst (App.placeZone M rnd now s b acc area) = fst acc ++ zone /\ among s kinds zone.
Proof.
  destruct acc as [l k], area as [kind size]. simpl. intros Hin.
  destruct (negb (App.someOfType kind (App.elements s))) eqn:G.
  - destruct (BoundaryUtils.generateRandomPointInBoundary rnd (BFeature b) k) as [pt k'].
    simpl. eexists; split; [ reflexivity | ].
    apply among_incl with (kinds := [kind]).
    + intros x [<- | []]. exact Hin.
    + now apply among_one.
  - exists []. split; [ now rewrite app_nil_r | apply among_nil ].
Qed.

Lemma placeZones_among (areas : list (string * num)) :
  forall acc, exists zones,
    fst (fold_left (App.placeZone M rnd now s b) areas acc) = fst acc ++ zones
    /\ among s (map fst areas) zones.
Proof.
  induction areas as [ | area areas IH]; intros acc; simpl.
  - exists []. split; [ now rewrite app_nil_r | apply among_nil ].
  - destruct (@placeZone_among (fst area :: map fst areas) acc area (or_introl eq_refl))
      as [zone [Hz Hzone]].
    destruct (IH (App.placeZone M rnd now s b acc area)) as [zones [Hzs Hzones]].
    exists (zone ++ zones). split.
    + rewrite Hzs, Hz. now rewrite app_assoc.
    + apply among_app; [ exact Hzone | ].
      eapply among_incl; [ | exact Hzones ]. intros x Hx. now right.
Qed.

(** With a boundary, the new list is the old one followed by what the
    blocks pushed, in the order of the blocks. *)
Lemma autoDesignLayout_pushes (fuel k : nat) (s' : App.State) (alerts : App.Alerts) (k' : nat) :
  App.boundary s = Some b ->
  App.autoDesignLayout M rnd now render fuel s k = Some (s', alerts, k') ->
  exists house rest,
    App.elements s' = App.elements s ++ house ++ App.placeWaterTank now s b ++ rest
    /\ among s ["HOUSE"] house
    /\ among s kindsAfterTank rest.
Proof.
  intros Hb. unfold App.autoDesignLayout. rewrite Hb.
  pose proof (placeHouse_among k) as Hhouse.
  destruct (App.placeHouse rnd now s b k) as [[house marker'] k1]. simpl in Hhouse.
  destruct (App.placeSwales now render fuel s b) as [swales | ] eqn:Hsw; [ | discriminate ].
  apply placeSwales_among in Hsw.
  match goal with |- context [App.placeWindbreak M rnd now s b ?d k1] =>
    pose proof (placeWindbreak_among d k1) as Hwind;
    destruct (App.placeWindbreak M rnd now s b d k1) as [windbreak k2] end.
  simpl in Hwind.
  match goal with |- context [fold_left (App.placeZone M rnd now s b) ?areas ?acc] =>
    destruct (placeZones_among areas acc) as [zones [Hz Hzones]];
    destruct (fold_left (App.placeZone M rnd now s b) areas acc) as [newElements k3] end.
  simpl in Hz, Hzones. intros H; injection H as <- _ _. simpl. subst newElements.
  match goal with |- context [App.placePond M now s b ?size] =>
    pose proof (placePond_among size) as Hpond; set (pond := App.placePond M now s b size) in * end.
  pose proof (placeNearHouse_among "COMPOST" "Compost" (dec 3 4, dec 2 4) 3) as Hcompost.
  pose proof (placeNearHouse_among "CHICKEN_COOP" "Chicken Coop" (dec 5 4, dec 4 4) 4) as Hcoop.
  pose proof (placeNearHouse_among "BEEHIVE" "Beehive" (dec 4 4, dec (-3) 4) 5) as Hbee.
  pose proof (placeNearHouse_among "SHED" "Tool Shed" (dec 1 4, dec 2 4) 6) as Hshed.
  set (compost := App.placeNearHouse now s b "COMPOST" _ _ _) in *.
  set (coop := App.placeNearHouse now s b "CHICKEN_COOP" _ _ _) in *.
  set (bee := App.placeNearHouse now s b "BEEHIVE" _ _ _) in *.
  set (shed := App.placeNearHouse now s b "SHED" _ _ _) in *.
  exists house, (pond ++ compost ++ coop ++ bee ++ shed ++ swales ++ windbreak ++ zones).
  split; [ now rewrite <- !app_assoc | ].
  split; [ exact Hhouse | ].
  assert (Hin : forall kind l, In kind kindsAfterTank -> among s [kind] l -> among s kindsAfterTank l).
  { intros kind l Hk. apply among_incl. intros x [<- | []]. exact Hk. }
  unfold kindsAfterTank in *.
  repeat apply among_app;
    try (eapply Hin; [ | eassumption ]; simpl; tauto).
  eapply among_incl; [ | exact Hzones ].
  intros x Hx. simpl in Hx |- *. tauto.
Qed.

End LayoutFacts.

(** ** C2: the water tank *)

Lemma filterPointsInBoundary_interior (b : Feature) (pts : list Sample) :
  BoundaryUtils.filterPointsInBoundary pts (BFeature b) = filter (interior b) pts.
Proof.
  unfold BoundaryUtils.filterPointsInBoundary, interior, BoundaryUtils.isPointInBoundary.
  destruct (outerRing (BFeature b)); [ reflexivity | ].
  induction pts as [ | p pts IH]; simpl; congruence.
Qed.

Lemma notUp_refl (p : Sample) : finiteElevation p -> notUp p p.
Proof.
  unfold finiteElevation, notUp. destruct (elevation p); try discriminate.
  intros _. apply leb_Fin. lra.
Qed.

(** The reduce that picks the highest candidate returns a candidate that
    no candidate exceeds. *)
Lemma highest_spec (candidates : list Sample) :
  Forall finiteElevation candidates ->
  forall first, finiteElevation first ->
    let h := App.highest candidates first in
    (h = first \/ In h candidates)
    /\ notUp h first
    /\ forall c, In c candidates -> notUp h c.
Proof.
  unfold App.highest.
  induction 1 as [ | p l Pp Pl IH]; intros first Pf; simpl.
  - split; [ now left | ]. split; [ now apply notUp_refl | intros c [] ].
  - destruct (elevation p >? elevation first) eqn:E.
    + destruct (IH p Pp) as [Hin [Hp Hall]]. split; [ | split ].
      * destruct Hin as [-> | Hin]; right; [ now left | now right ].
      * apply leb_trans_finite with p; try assumption.
        -- destruct Hin as [-> | Hin]; [ exact Pp | ].
           rewrite Forall_forall in Pl. now apply Pl.
        -- apply ltb_leb. exact E.
      * intros c [<- | Hc]; [ exact Hp | now apply Hall ].
    + destruct (IH first Pf) as [Hin [Hf Hall]]. split; [ | split ].
      * destruct Hin as [-> | Hin]; [ now left | right; now right ].
      * exact Hf.
      * intros c [Hc | Hc]; [ subst c | now apply Hall ].
        apply leb_trans_finite with first; try assumption.
        -- destruct Hin as [-> | Hin]; [ exact Pf | ].
           rewrite Forall_forall in Pl. now apply Pl.
        -- unfold finiteElevation, notUp, gtb in *.
           destruct (elevation p) as [ | | | ep], (elevation first) as [ | | | ef];
             try discriminate.
           apply leb_Fin.
           destruct (Qlt_le_dec ef ep) as [Hlt | Hle]; [ | exact Hle ].
           apply ltb_Fin in Hlt. congruence.
Qed.

Lemma among_no_tank (s : App.State) (kinds : list string) (l : list App.Element) :
  among s kinds l -> ~ In "WATER_TANK" kinds -> filter isWaterTank l = [].
Proof.
  intros H Hno. induction H as [ | e l [Hin _] Hl IH]; simpl; [ reflexivity | ].
  unfold isWaterTank at 1. destruct (String.eqb_spec (App.type e) "WATER_TANK") as [Heq | _].
  - exfalso. apply Hno. now rewrite <- Heq.
  - exact IH.
Qed.

Lemma someOfType_no_tank (l : list App.Element) :
  App.someOfType "WATER_TANK" l = false -> filter isWaterTank l = [].
Proof.
  unfold App.someOfType. induction l as [ | e l IH]; simpl; [ reflexivity | ].
  intros H. apply orb_false_iff in H. destruct H as [He Hl].
  unfold isWaterTank at 1. rewrite He. now apply IH.
Qed.

(** When none of the 20 highest samples is interior, the block pushes
    nothing and the run ends without a water tank. *)
Lemma autoDesignLayout_skips_water_tank (M : MathLib) (rnd : Random) (now : num)
  (render : num -> string) (fuel : nat) (s : App.State) (k : nat) (b : Feature)
  (s' : App.State) (alerts : App.Alerts) (k' : nat) :
  App.boundary s = Some b ->
  App.someOfType "WATER_TANK" (App.elements s) = false ->
  existsb (interior b) (DEMUtils.findHighPoints (App.topography s) 20) = false ->
  App.autoDesignLayout M rnd now render fuel s k = Some (s', alerts, k') ->
  filter isWaterTank (App.elements s') = [].
Proof.
  intros Hb Hnone Hout H.
  destruct (@autoDesignLayout_pushes M rnd now render s b fuel k s' alerts k' Hb H)
    as [house [rest [Hel [Hhouse Hrest]]]].
  assert (Htank : App.placeWaterTank now s b = []).
  { unfold App.placeWaterTank. rewrite filterPointsInBoundary_interior.
    set (top := DEMUtils.findHighPoints (App.topography s) 20) in *.
    destruct (filter (interior b) top) as [ | first cands] eqn:Hf; [ reflexivity | ].
    exfalso. assert (Hin : In first (filter (interior b) top)) by (rewrite Hf; now left).
    apply filter_In in Hin. destruct Hin as [Hin Hint].
    assert (Hex : existsb (interior b) top = true).
    { apply existsb_exists. now exists first. }
    congruence. }
  rewrite Hel, !filter_app, Htank.
  rewrite (someOfType_no_tank _ Hnone).
  rewrite (among_no_tank Hhouse) by (simpl; intuition discriminate).
  rewrite (among_no_tank Hrest) by (unfold kindsAfterTank; simpl; intuition discriminate).
  reflexivity.
Qed.

(** Over the ridge. *)
Lemma autoDesignLayout_skips_water_tank_witness :
  filter isWaterTank (App.elements (laidOut 0 ridgeState)) = [].
Proof.
  apply (@autoDesignLayout_skips_water_tank coarseMath steadyDraws noon mute 0 ridgeState 0
           triangle (laidOut 0 ridgeState) [] 13%nat);
    vm_compute; reflexivity.
Defined.

(** Where the water tank goes.  With no water tank yet, finite elevations
    and at least one of the 20 highest topography samples inside the
    boundary, the block of the water tank pushes one element, and it stands
    on an interior topography sample that no interior topography sample
    exceeds in elevation. *)
Lemma placeWaterTank_highest_interior (now : num) (s : App.State) (b : Feature) :
  App.someOfType "WATER_TANK" (App.elements s) = false ->
  Forall finiteElevation (App.topography s) ->
  existsb (interior b) (DEMUtils.findHighPoints (App.topography s) 20) = true ->
  exists h,
    App.placeWaterTank now s b
    = [App.pointElement "WATER_TANK" "Water Tank" (lat h, lng h) (now + of_Z 1)]
    /\ In h (App.topography s)
    /\ interior b h = true
    /\ forall p, In p (App.topography s) -> interior b p = true -> notUp h p.
Proof.
  intros Hnone Hfin Hsome.
  set (top := DEMUtils.findHighPoints (App.topography s) 20) in *.
  assert (Htank : App.placeWaterTank now s b
                  = match filter (interior b) top with
                    | first :: _ =>
                        [App.pointElement "WATER_TANK" "Water Tank"
                           (lat (App.highest (filter (interior b) top) first),
                            lng (App.highest (filter (interior b) top) first))
                           (now + of_Z 1)]
                    | [] => []
                    end).
  { unfold App.placeWaterTank. fold top. rewrite filterPointsInBoundary_interior.
    rewrite Hnone. reflexivity. }
  apply existsb_exists in Hsome. destruct Hsome as [w [Hw Hwin]].
  assert (Hcand : In w (filter (interior b) top)) by (apply filter_In; now split).
  destruct (filter (interior b) top) as [ | first cands] eqn:Hf; [ destruct Hcand | ].
  set (h := App.highest (first :: cands) first) in *.
  assert (Hcfin : Forall finiteElevation (first :: cands)).
  { apply Forall_forall. intros c Hc. rewrite <- Hf in Hc. apply filter_In in Hc.
    destruct Hc as [Hc _]. apply findHighPoints_In in Hc.
    rewrite Forall_forall in Hfin. now apply Hfin. }
  assert (Hffin : finiteElevation first) by (inversion Hcfin; assumption).
  destruct (highest_spec Hcfin Hffin) as [Hin [_ Hmax]]. fold h in Hin, Hmax.
  assert (Hh : In h (first :: cands)).
  { destruct Hin as [-> | Hin]; [ now left | exact Hin ]. }
  rewrite <- Hf in Hh. apply filter_In in Hh. destruct Hh as [Hhtop Hhin].
  exists h. split; [ exact Htank | split; [ | split ] ].
  - now apply findHighPoints_In with 20%nat.
  - exact Hhin.
  - intros p Hp Hpin.
    destruct (@findHighPoints_top (App.topography s) 20 h p Hfin Hhtop Hp) as [Hptop | Hle].
    + apply Hmax. rewrite <- Hf. apply filter_In. now split.
    + exact Hle.
Qed.

(** A run over the meadow: it is done within 3 passes and makes 13 draws. *)
Lemma autoDesignLayout_meadow :
  App.autoDesignLayout coarseMath steadyDraws noon mute 3 meadow 0
  = Some (laidOut 3 meadow, [], 13%nat).
Proof. vm_compute. reflexivity. Qed.

(** Against C2 as it is stated: with a boundary, an interior topography
    sample and no water tank yet, the run on [ridgeState] ends with no
    water tank, because none of the 20 highest samples is interior. *)
Lemma water_tank_counterexample :
  App.boundary ridgeState = Some triangle
  /\ existsb (interior triangle) (App.topography ridgeState) = true
  /\ App.someOfType "WATER_TANK" (App.elements ridgeState) = false
  /\ option_map (fun r => filter isWaterTank (App.elements (fst (fst r))))
       (App.autoDesignLayout coarseMath steadyDraws noon mute 0 ridgeState 0)
     = Some [].
Proof. vm_compute. repeat split. Qed.

(** ** C3 and C4: the elevation grid *)

Lemma add_NaN_r (a : num) : a + NaN = NaN.
Proof. destruct a; reflexivity. Qed.

Lemma Math_max_Fin (x : Q) (a : num) (p : Q) :
  Math_max (Fin x) a = Fin p -> (x <= p)%Q.
Proof.
  destruct a as [ | | | y]; unfold Math_max; simpl; try discriminate.
  - intros H; injection H as <-. lra.
  - destruct (x ?= y)%Q eqn:E; intros H; injection H as <-; try lra.
    apply Qlt_alt in E. lra.
Qed.

Lemma grid_In (A : Type) (n : nat) (cell : nat -> nat -> nat -> A) (k : nat) (x : A) :
  In x (DEMUtils.grid n cell k) ->
  exists i j, (i < n)%nat /\ (j < n)%nat /\ x = cell i j (k + i * n + j)%nat.
Proof.
  unfold DEMUtils.grid. intros H. apply in_flat_map in H. destruct H as [i [Hi H]].
  apply in_map_iff in H. destruct H as [j [<- Hj]].
  apply in_seq in Hi, Hj. exists i, j. repeat split; lia.
Qed.

Lemma grid_length (A : Type) (n : nat) (cell : nat -> nat -> nat -> A) (k : nat) :
  List.length (DEMUtils.grid n cell k) = (n * n)%nat.
Proof.
  unfold DEMUtils.grid.
  assert (H : forall l, List.length (flat_map (fun i => map (fun j => cell i j (k + i * n + j)%nat)
                                                            (seq 0 n)) l)
                        = (List.length l * n)%nat).
  { induction l as [ | i l IH]; simpl; [ reflexivity | ].
    rewrite length_app, IH, length_map, length_seq. reflexivity. }
  rewrite H, length_seq. reflexivity.
Qed.

Section GridFacts.
Variable M : MathLib.
Variable rnd : Random.

(** Over a box of zero width the eastward term of a cell is 0/0. *)
Lemma boundaryCell_zero_width (b : Box) (p : Q) (i j draw : nat) (west east : Q) :
  minLng b = Fin west -> maxLng b = Fin east -> (west == east)%Q -> ~ (p == 0)%Q ->
  elevation (DEMUtils.boundaryCell M rnd b (Fin p) i j draw) = NaN.
Proof.
  intros Hw He Heq Hp. unfold DEMUtils.boundaryCell, demPoint. cbv zeta. cbn [elevation].
  rewrite Hw, He.
  assert (Hterm : (Fin west + of_nat j / Fin p * (Fin east - Fin west) - Fin west)
                  / (Fin east - Fin west) = NaN).
  { unfold of_nat, of_Z. simpl.
    assert (Hp' : Qis_zero p = false).
    { unfold Qis_zero. apply not_true_is_false. intros H. apply Qeq_bool_iff in H. tauto. }
    rewrite Hp'. simpl.
    assert (Hz : Qis_zero (east + - west) = true).
    { unfold Qis_zero. apply Qeq_bool_iff. lra. }
    rewrite Hz.
    assert (Hn : Qis_zero (west + inject_Z (Z.of_nat j) / p * (east + - west) + - west) = true).
    { unfold Qis_zero. apply Qeq_bool_iff. rewrite <- Heq. ring. }
    rewrite Hn. reflexivity. }
  rewrite Hterm. change (NaN * of_Z 8) with NaN. rewrite add_NaN_r. reflexivity.
Qed.

(** With a ring of zero width, every sample [generateDEM] makes has the
    elevation NaN. *)
Lemma generateDEM_zero_width (la ln radius : num) (boundary : BoundaryArg)
  (coords : list Pair) (west east : Q) (k : nat) (samples : list Sample) (k' : nat) :
  outerRing boundary = Some coords ->
  minLng (boundingBox coords) = Fin west ->
  maxLng (boundingBox coords) = Fin east ->
  (west == east)%Q ->
  DEMUtils.generateDEM M rnd la ln radius boundary k = Some (samples, k') ->
  Forall (fun s => elevation s = NaN) samples.
Proof.
  intros Hring Hw He Heq. unfold DEMUtils.generateDEM. rewrite Hring.
  set (points := Math_max (of_Z 15) _).
  destruct (passes points) as [n | ] eqn:Hn; [ | discriminate ].
  intros H; injection H as <- _.
  apply Forall_forall. intros s Hs. apply grid_In in Hs.
  destruct Hs as [i [j [Hi [_ ->]]]].
  destruct points as [ | | | p] eqn:Hp.
  - simpl in Hn. injection Hn as <-. lia.
  - discriminate.
  - simpl in Hn. injection Hn as <-. lia.
  - apply boundaryCell_zero_width with west east; try assumption.
    apply Math_max_Fin in Hp. change (inject_Z 15) with 15%Q in Hp. lra.
Qed.

End GridFacts.

Lemma generateDEM_sliver (M : MathLib) (rnd : Random) (la ln radius : num) (k : nat) :
  exists samples,
    DEMUtils.generateDEM M rnd la ln radius (BFeature sliver) k = Some (samples, (k + 256)%nat)
    /\ List.length samples = 256%nat
    /\ Forall (fun s => elevation s = NaN) samples.
Proof.
  assert (Hrun : exists samples,
             DEMUtils.generateDEM M rnd la ln radius (BFeature sliver) k
             = Some (samples, (k + 256)%nat) /\ List.length samples = 256%nat).
  { unfold DEMUtils.generateDEM.
    change (outerRing (BFeature sliver)) with (Some sliverRing). cbv zeta. cbv iota.
    match goal with |- context [passes ?p] =>
      replace (passes p) with (Some 16%nat) by (vm_compute; reflexivity) end.
    eexists. split; [ reflexivity | ]. apply grid_length. }
  destruct Hrun as [samples [Hrun Hlen]]. exists samples.
  split; [ exact Hrun | ]. split; [ exact Hlen | ].
  apply (@generateDEM_zero_width M rnd la ln radius (BFeature sliver)
           sliverRing 76 76 k samples (k + 256)%nat);
    try reflexivity; try exact Hrun.
Qed.

(** C3, on the code.  Over the sliver, a boundary of zero width,
    [getBoundaryApproximateSize] widens the width to 0.0001, but
    [generateDEM] divides by the width as it is, which is 0: it returns 256
    samples and the elevation of none of them is a finite number. *)
Theorem generateDEM_divides_by_zero_width :
  forall (M : MathLib) (rnd : Random) (la ln radius : num) (k : nat),
    width (getBoundaryApproximateSize (Some sliver)) = dec 1 4
    /\ maxLng (boundingBox sliverRing) - minLng (boundingBox sliverRing) = Fin 0
    /\ exists samples,
         DEMUtils.generateDEM M rnd la ln radius (BFeature sliver) k
         = Some (samples, (k + 256)%nat)
         /\ List.length samples = 256%nat
         /\ Forall (fun s => is_finite (elevation s) = false) samples.
Proof.
  intros M rnd la ln radius k.
  split; [ vm_compute; reflexivity | ]. split; [ vm_compute; reflexivity | ].
  destruct (generateDEM_sliver M rnd la ln radius k) as [samples [Hrun [Hlen Hnan]]].
  exists samples. repeat split; try assumption.
  eapply Forall_impl; [ | exact Hnan ]. intros s Hs. now rewrite Hs.
Qed.

(** C4, on the code.  Over the same sliver no sample of [generateDEM]
    reaches the floor: the comparison [elevation >= 2] is false on each of
    the 256 samples. *)
Theorem generateDEM_misses_floor :
  forall (M : MathLib) (rnd : Random) (la ln radius : num) (k : nat),
    exists samples,
      DEMUtils.generateDEM M rnd la ln radius (BFeature sliver) k
      = Some (samples, (k + 256)%nat)
      /\ samples <> []
      /\ Forall (fun s => (elevation s >=? of_Z 2) = false) samples.
Proof.
  intros M rnd la ln radius k.
  destruct (generateDEM_sliver M rnd la ln radius k) as [samples [Hrun [Hlen Hnan]]].
  exists samples. split; [ exact Hrun | ]. split.
  - intros ->. discriminate Hlen.
  - eapply Forall_impl; [ | exact Hnan ]. intros s Hs. now rewrite Hs.
Qed.

(** *** Where the floor does hold *)

(** Rounding to one decimal does not go below a bound that is itself a
    multiple of 1/10 (here [z / 10]). *)
Lemma round1_nonneg_ge (z : Z) (q : Q) :
  (inject_Z z <= q * 10)%Q -> (inject_Z z <= round1_nonneg q * 10)%Q.
Proof.
  intros H. unfold round1_nonneg. rewrite Qred_correct.
  assert (Hq : (inject_Z z <= q * 10 + (1 # 2))%Q) by lra.
  apply Qfloor_resp_le in Hq. rewrite Qfloor_Z in Hq.
  rewrite Zle_Qle in Hq.
  setoid_replace (inject_Z (Qfloor (q * 10 + (1 # 2))) / 10 * 10)%Q
    with (inject_Z (Qfloor (q * 10 + (1 # 2)))) by field.
  exact Hq.
Qed.

Lemma round1Q_ge (z : Z) (q : Q) :
  (0 <= z)%Z -> (inject_Z z <= q * 10)%Q -> (inject_Z z <= round1Q q * 10)%Q.
Proof.
  intros Hz H. unfold round1Q.
  assert (H0 : (0 <= q)%Q).
  { rewrite Zle_Qle in Hz. change (inject_Z 0) with 0%Q in Hz. lra. }
  apply Qle_bool_iff in H0. rewrite H0. now apply round1_nonneg_ge.
Qed.

Section FloorFacts.
Variable M : MathLib.
Variable rnd : Random.

(** Over a box with finite corners and a width that is not 0, a cell of
    the boundary grid is floored at 2. *)
Lemma boundaryCell_floor (b : Box) (p : Q) (i j draw : nat) (south north west east : Q) :
  minLat b = Fin south -> maxLat b = Fin north ->
  minLng b = Fin west -> maxLng b = Fin east ->
  ~ (west == east)%Q -> ~ (p == 0)%Q ->
  (elevation (DEMUtils.boundaryCell M rnd b (Fin p) i j draw) >=? of_Z 2) = true.
Proof.
  intros Hs Hn Hw He Hwide Hp.
  unfold DEMUtils.boundaryCell, demPoint. cbv zeta. cbn [elevation].
  rewrite Hs, Hn, Hw, He.
  assert (Hp' : Qis_zero p = false).
  { unfold Qis_zero. apply not_true_is_false. intros H. apply Qeq_bool_iff in H. tauto. }
  assert (Hz : Qis_zero (east + - west) = false).
  { unfold Qis_zero. apply not_true_is_false. intros H. apply Qeq_bool_iff in H.
    apply Hwide. lra. }
  unfold of_nat, of_Z, Math_random, dec. simpl. rewrite Hp'. simpl. rewrite Hz. simpl.
  match goal with |- context [Math_max (Fin ?a) (Fin ?e)] =>
    assert (Hmax : exists m, Math_max (Fin a) (Fin e) = Fin m /\ (a <= m)%Q) end.
  { unfold Math_max; simpl.
    match goal with |- context [(?a ?= ?e)%Q] => destruct (a ?= e)%Q eqn:E end;
      eexists; (split; [ reflexivity | ]); try lra.
    apply Qlt_alt in E. lra. }
  destruct Hmax as [m [-> Hm]]. simpl. unfold geb. apply leb_Fin.
  assert (H20 : (inject_Z 20 <= round1Q m * 10)%Q).
  { apply round1Q_ge; [ lia | ]. change (inject_Z 20) with 20%Q.
    change (inject_Z 2) with 2%Q in Hm. lra. }
  change (inject_Z 20) with 20%Q in H20. change (inject_Z 2) with 2%Q. lra.
Qed.

(** With a boundary whose box has finite corners and a width that is not
    0, every sample is floored at 2. *)
Lemma generateDEM_floor_boundary (la ln radius : num) (boundary : BoundaryArg)
  (coords : list Pair) (south north west east : Q) (k : nat)
  (samples : list Sample) (k' : nat) :
  outerRing boundary = Some coords ->
  minLat (boundingBox coords) = Fin south -> maxLat (boundingBox coords) = Fin north ->
  minLng (boundingBox coords) = Fin west -> maxLng (boundingBox coords) = Fin east ->
  ~ (west == east)%Q ->
  DEMUtils.generateDEM M rnd la ln radius boundary k = Some (samples, k') ->
  Forall (fun s => (elevation s >=? of_Z 2) = true) samples.
Proof.
  intros Hring Hs Hn Hw He Hwide. unfold DEMUtils.generateDEM. rewrite Hring.
  set (points := Math_max (of_Z 15) _).
  destruct (passes points) as [n | ] eqn:Hpass; [ | discriminate ].
  intros H; injection H as <- _.
  apply Forall_forall. intros s Hin. apply grid_In in Hin.
  destruct Hin as [i [j [Hi [_ ->]]]].
  destruct points as [ | | | p] eqn:Hp.
  - simpl in Hpass. injection Hpass as <-. lia.
  - discriminate.
  - simpl in Hpass. injection Hpass as <-. lia.
  - apply boundaryCell_floor with south north west east; try assumption.
    apply Math_max_Fin in Hp. change (inject_Z 15) with 15%Q in Hp. lra.
Qed.

Hypothesis M_ok : MathLib_ok M.
Hypothesis rnd_ok : Random_ok rnd.

(** A cell of the anchor grid is at least 3.5: 10, less 0.3 for each of at
    most 15 rows south, less 2 for the sine, and a draw that is not
    negative. *)
Lemma anchorCell_floor (la ln step : Q) (i j : Z) (draw : nat) :
  (-15 <= i)%Z ->
  (elevation (DEMUtils.anchorCell M rnd (Fin la) (Fin ln) (Fin step) i j draw)
   >=? dec 35 1) = true.
Proof.
  intros Hi. unfold DEMUtils.anchorCell, demPoint. cbv zeta. cbn [elevation].
  unfold of_Z, Math_random, dec. simpl. unfold geb. apply leb_Fin.
  match goal with |- (_ <= round1Q ?e)%Q =>
    assert (H35 : (inject_Z 35 <= round1Q e * 10)%Q) end.
  { apply round1Q_ge; [ lia | ].
    pose proof (sin_range M_ok ((la + inject_Z i * step) * inject_Z 50)) as Hsin.
    pose proof (rnd_ok draw) as Hr.
    rewrite Zle_Qle in Hi.
    change (inject_Z 35) with 35%Q. change (inject_Z 10) with 10%Q.
    change (inject_Z 2) with 2%Q. change (inject_Z (-15)) with (-15)%Q in Hi.
    lra. }
  change (inject_Z 35) with 35%Q in H35. lra.
Qed.

(** Without a boundary, around a finite anchor and with a finite radius,
    every one of the 961 samples is at least 2 (and indeed 3.5). *)
Lemma generateDEM_floor_anchor (la ln radius : Q) (boundary : BoundaryArg) (k : nat) :
  outerRing boundary = None ->
  exists samples,
    DEMUtils.generateDEM M rnd (Fin la) (Fin ln) (Fin radius) boundary k
    = Some (samples, (k + 961)%nat)
    /\ List.length samples = 961%nat
    /\ Forall (fun s => (elevation s >=? of_Z 2) = true) samples.
Proof.
  intros Hring. unfold DEMUtils.generateDEM. rewrite Hring. cbv zeta.
  eexists. split; [ reflexivity | ]. split; [ apply grid_length | ].
  apply Forall_forall. intros s Hin. apply grid_In in Hin.
  destruct Hin as [i [j [Hi [_ ->]]]].
  assert (Hstep : exists step, Fin radius / of_nat 15 = Fin step).
  { eexists. vm_compute. reflexivity. }
  destruct Hstep as [step ->].
  pose proof (@anchorCell_floor la ln step (Z.of_nat i - Z.of_nat 15)
                (Z.of_nat j - Z.of_nat 15) (k + i * (2 * 15 + 1) + j)%nat
                ltac:(lia)) as Hcell.
  unfold geb in *.
  destruct (elevation _) as [ | | | e]; try discriminate; [ reflexivity | ].
  apply leb_Fin in Hcell. apply leb_Fin.
  change (inject_Z 2) with 2%Q.
  assert (H35 : (Qred (35 # 10) == 35 # 10)%Q) by apply Qred_correct.
  unfold dec in Hcell. simpl Pos.of_nat in Hcell. lra.
Qed.

End FloorFacts.

(** Over the field, 256 samples, each at least 2. *)
Lemma generateDEM_floor_boundary_witness :
  Forall (fun s => (elevation s >=? of_Z 2) = true) fieldDEM.
Proof.
  apply (@generateDEM_floor_boundary coarseMath steadyDraws (of_Z 10) (of_Z 76) (dec 5 2)
           (BFeature field) fieldRing 10 (10001 # 1000) 76 (76001 # 1000) 0
           fieldDEM 256%nat);
    try (vm_compute; reflexivity).
  intros H. vm_compute in H. discriminate H.
Defined.

(** Around latitude 10, longitude 76, with the radius 0.05 the component
    passes. *)
Lemma generateDEM_floor_anchor_witness :
  exists samples,
    DEMUtils.generateDEM coarseMath steadyDraws (Fin 10) (Fin 76) (Fin (1 # 20)) BNull 0
    = Some (samples, (0 + 961)%nat)
    /\ List.length samples = 961%nat
    /\ Forall (fun s => (elevation s >=? of_Z 2) = true) samples.
Proof.
  exact (generateDEM_floor_anchor coarseMath_ok steadyDraws_ok 10 76 (1 # 20) BNull 0 eq_refl).
Defined.

(** ** C5: what placement synthesis adds, and what it takes away *)

(** Relative to the list it closed over, the body only appends: the list
    it computes is that list followed by the new elements, and no new
    element has the kind of an element of that list. *)
Lemma autoDesignLayout_appends :
  forall (M : MathLib) (rnd : Random) (now : num) (render : num -> string)
         (fuel : nat) (s : App.State) (k : nat)
         (s' : App.State) (alerts : App.Alerts) (k' : nat),
    App.autoDesignLayout M rnd now render fuel s k = Some (s', alerts, k') ->
    exists added,
      App.elements s' = App.elements s ++ added
      /\ forall kind, App.someOfType kind (App.elements s) = true ->
                      App.someOfType kind added = false.
Proof.
  intros M rnd now render fuel s k s' alerts k' H.
  destruct (App.boundary s) as [b | ] eqn:Hb.
  - destruct (@autoDesignLayout_pushes M rnd now render s b fuel k s' alerts k' Hb H)
      as [house [rest [Hel [Hhouse Hrest]]]].
    pose proof (placeWaterTank_among now s b) as Htank.
    exists (house ++ App.placeWaterTank now s b ++ rest). split; [ exact Hel | ].
    intros kind Hkind.
    assert (Hno : forall kinds l, among s kinds l -> App.someOfType kind l = false).
    { intros kinds l Hl. unfold App.someOfType.
      apply not_true_is_false. intros Hex. apply existsb_exists in Hex.
      destruct Hex as [e [He Heq]]. apply String.eqb_eq in Heq.
      unfold among in Hl. rewrite Forall_forall in Hl. destruct (Hl e He) as [_ Habs].
      rewrite Heq in Habs. congruence. }
    unfold App.someOfType. rewrite !existsb_app.
    fold (App.someOfType kind house) (App.someOfType kind (App.placeWaterTank now s b))
         (App.someOfType kind rest).
    rewrite (Hno _ _ Hhouse), (Hno _ _ Htank), (Hno _ _ Hrest). reflexivity.
  - unfold App.autoDesignLayout in H. rewrite Hb in H. injection H as <- _ _.
    exists []. split; [ now rewrite app_nil_r | reflexivity ].
Qed.

(** A second run, on the state the first one left. *)
Lemma autoDesignLayout_again :
  App.autoDesignLayout coarseMath steadyDraws noon mute 3 (laidOut 3 meadow) 13
  = Some (laidOut 3 (laidOut 3 meadow), [], 13%nat).
Proof. vm_compute. reflexivity. Qed.

(** What the second run adds to what the first one left. *)
Lemma autoDesignLayout_appends_witness :
  exists added,
    App.elements (laidOut 3 (laidOut 3 meadow)) = App.elements (laidOut 3 meadow) ++ added
    /\ forall kind, App.someOfType kind (App.elements (laidOut 3 meadow)) = true ->
                    App.someOfType kind added = false.
Proof.
  exact (@autoDesignLayout_appends coarseMath steadyDraws noon mute 3 (laidOut 3 meadow) 13
           (laidOut 3 (laidOut 3 meadow)) [] 13%nat autoDesignLayout_again).
Defined.

(** What the timer writes into [elements] is the list the body computed
    from the state it closed over, whatever the list is by then. *)
Lemma autoDesignLayoutTimer_elements (M : MathLib) (rnd : Random) (now : num)
  (render : num -> string) (fuel : nat) (closed current : App.State) (k : nat)
  (b : Feature) (after : App.State) (alerts : App.Alerts) (k' : nat) :
  App.boundary closed = Some b ->
  App.autoDesignLayoutTimer M rnd now render fuel closed current k = Some (after, alerts, k') ->
  exists computed,
    App.autoDesignLayout M rnd now render fuel closed k = Some (computed, alerts, k')
    /\ App.elements after = App.elements computed.
Proof.
  intros Hb. unfold App.autoDesignLayoutTimer. rewrite Hb.
  destruct (App.autoDesignLayout M rnd now render fuel closed k) as [[[computed al] kk] | ];
    [ | discriminate ].
  intros H. injection H as <- <- <-. exists computed. split; reflexivity.
Qed.

(** C5.  The list the timer leaves is the list the callback closed over at
    the click, followed by new elements of kinds that list did not have;
    so an element that is in the list when the timer fires, was not in the
    list at the click (it was placed in between) and is not one the body
    pushes, is not in the list afterwards: the timer takes it away. *)
Theorem autoDesignLayoutTimer_discards_later_elements :
  forall (M : MathLib) (rnd : Random) (now : num) (render : num -> string)
         (fuel : nat) (closed current : App.State) (k : nat) (b : Feature)
         (after : App.State) (alerts : App.Alerts) (k' : nat),
    App.boundary closed = Some b ->
    App.autoDesignLayoutTimer M rnd now render fuel closed current k
    = Some (after, alerts, k') ->
    exists added,
      App.elements after = App.elements closed ++ added
      /\ among closed synthesisKinds added
      /\ forall e, In e (App.elements current) ->
                   ~ In e (App.elements closed) ->
                   notSynthesized closed e ->
                   ~ In e (App.elements after).
Proof.
  intros M rnd now render fuel closed current k b after alerts k' Hb H.
  destruct (autoDesignLayoutTimer_elements _ _ _ _ _ _ _ _ Hb H) as [computed [Hrun Hel]].
  destruct (@autoDesignLayout_pushes M rnd now render closed b fuel k computed alerts k' Hb Hrun)
    as [house [rest [Hpush [Hhouse Hrest]]]].
  pose proof (placeWaterTank_among now closed b) as Htank.
  assert (Hadded : among closed synthesisKinds
                     (house ++ App.placeWaterTank now closed b ++ rest)).
  { unfold synthesisKinds. repeat apply among_app.
    - eapply among_incl; [ | exact Hhouse ]. intros x [<- | []]. now left.
    - eapply among_incl; [ | exact Htank ]. intros x [<- | []]. right. now left.
    - eapply among_incl; [ | exact Hrest ]. intros x Hx. right. now right. }
  exists (house ++ App.placeWaterTank now closed b ++ rest).
  split; [ now rewrite Hel, Hpush | ]. split; [ exact Hadded | ].
  intros e _ Hnew Hnot Hin. rewrite Hel, Hpush in Hin.
  apply in_app_or in Hin. destruct Hin as [Hin | Hin]; [ now apply Hnew | ].
  unfold among in Hadded. rewrite Forall_forall in Hadded.
  destruct (Hadded e Hin) as [Hkind Habsent].
  destruct Hnot as [Hnot | Hnot]; [ now apply Hnot | congruence ].
Qed.

(** The timer over the meadow, fired on the state the map click left. *)
Lemma autoDesignLayoutTimer_meadow :
  App.autoDesignLayoutTimer coarseMath steadyDraws twoSecondsOn mute 3 meadowTool planted 0
  = Some (fired, [], 13%nat).
Proof. vm_compute. reflexivity. Qed.

(** The herb spiral the map click placed during the two seconds is in the
    list when the timer fires and not in the list the timer leaves. *)
Lemma autoDesignLayoutTimer_discards_later_elements_witness :
  In herbSpiral (App.elements planted)
  /\ exists added,
       App.elements fired = App.elements meadowTool ++ added
       /\ among meadowTool synthesisKinds added
       /\ forall e, In e (App.elements planted) ->
                    ~ In e (App.elements meadowTool) ->
                    notSynthesized meadowTool e ->
                    ~ In e (App.elements fired).
Proof.
  split; [ left; reflexivity | ].
  exact (@autoDesignLayoutTimer_discards_later_elements coarseMath steadyDraws twoSecondsOn
           mute 3 meadowTool planted 0 triangle fired [] 13%nat eq_refl
           autoDesignLayoutTimer_meadow).
Defined.

(** Step by step: the click schedules the body and raises no alert, the
    map click places the herb spiral without an alert, and the list after
    the timer has 8 elements, none of which is a herb spiral. *)
Lemma herbSpiral_lost :
  App.autoDesignLayoutClick meadowTool = (clicked, [], Some meadowTool)
  /\ App.onMapClick coarseMath noon clicked (of_Z 2, of_Z 2) = (planted, [])
  /\ App.elements planted = [herbSpiral]
  /\ List.length (App.elements fired) = 8%nat
  /\ existsb (fun e => String.eqb (App.type e) "HERB_SPIRAL") (App.elements fired) = false.
Proof. vm_compute. repeat split. Qed.

(** ** C6: slope and aspect *)

Lemma coarseMath_fourth_quadrant : atan2_fourth_quadrant coarseMath.
Proof.
  intros y x Hx Hy. simpl. unfold coarse_atan2.
  destruct (Qlt_le_dec 0 x) as [_ | Hx']; [ | lra ].
  destruct (Qlt_le_dec y 0) as [_ | Hy']; [ | lra ].
  rewrite Qred_correct.
  assert (Hhalf : (y / (2 * x) * x == y * (1 # 2))%Q) by (field; lra).
  destruct (Q.max_spec (y / (2 * x)) (-3)) as [[Hlt ->] | [Hle ->]].
  - split; [ | lra ].
    assert (H3 : (y / (2 * x) * x < -3 * x)%Q) by (apply Qmult_lt_compat_r; assumption).
    lra.
  - split; [ lra | ].
    assert (H0 : (y / (2 * x) * x < 0 * x)%Q) by lra.
    destruct (Qlt_le_dec (y / (2 * x)) 0) as [Hn | Hn]; [ exact Hn | ].
    exfalso. assert (H1 : (0 * x <= y / (2 * x) * x)%Q).
    { apply Qmult_le_compat_r; lra. }
    lra.
Qed.

Lemma Qfloor_eq (z : Z) (x : Q) :
  (inject_Z z <= x)%Q -> (x < inject_Z (z + 1))%Q -> Qfloor x = z.
Proof.
  intros Hlo Hhi.
  pose proof (Qfloor_le x) as H1. pose proof (Qlt_floor x) as H2.
  assert (Ha : (inject_Z (Qfloor x) < inject_Z (z + 1))%Q) by lra.
  assert (Hb : (inject_Z z < inject_Z (Qfloor x + 1))%Q) by lra.
  rewrite <- Zlt_Qlt in Ha, Hb. lia.
Qed.

(** The aspect at the corner: the bearing is less than 0.03 degrees below
    0, so 360 is added and the sum, above 359.95, prints as 360.0. *)
Lemma aspect_at_corner (M : MathLib) :
  atan2_fourth_quadrant M ->
  toFixed1
    (let a := Math_atan2 M (elevation northStep - elevation corner)
                           (elevation eastWall - elevation corner)
              * of_Z 180 / Math_PI in
     if a <? of_Z 0 then a + of_Z 360 else a)
  = of_Z 360.
Proof.
  intros HM. cbv zeta.
  replace (elevation northStep - elevation corner) with (Fin (-1 # 10))
    by (vm_compute; reflexivity).
  replace (elevation eastWall - elevation corner) with (Fin (1979 # 10))
    by (vm_compute; reflexivity).
  destruct (HM (-1 # 10)%Q (1979 # 10)%Q) as [Hlo Hhi]; [ lra | lra | ].
  cbn [Math_atan2]. set (v := atan2Q M (-1 # 10) (1979 # 10)) in *.
  assert (Ha : Fin v * of_Z 180 / Math_PI
               = Fin (v * 180 * (281474976710656 # 884279719003555))) by reflexivity.
  rewrite Ha.
  assert (Hneg : (Fin (v * 180 * (281474976710656 # 884279719003555)) <? of_Z 0) = true).
  { apply ltb_Fin. change (inject_Z 0) with 0%Q. lra. }
  rewrite Hneg. cbn [add toFixed1 of_Z]. unfold round1Q.
  set (r := (v * 180 * (281474976710656 # 884279719003555) + inject_Z 360)%Q).
  assert (Hr : (3599500 <= r * 10000 /\ r < 360)%Q).
  { unfold r. change (inject_Z 360) with 360%Q. split; lra. }
  assert (Hpos : Qle_bool 0 r = true) by (apply Qle_bool_iff; lra).
  rewrite Hpos. unfold round1_nonneg.
  rewrite (@Qfloor_eq 3600).
  - reflexivity.
  - change (inject_Z 3600) with 3600%Q. lra.
  - change (inject_Z (3600 + 1)) with 3601%Q. lra.
Qed.

Lemma topographyAt_corner (M : MathLib) :
  atan2_fourth_quadrant M ->
  DEMUtils.topographyAt M cliff 0 corner
  = [withTopography corner (of_Z 6590) (of_Z 360)].
Proof.
  intros HM. unfold DEMUtils.topographyAt. cbv zeta.
  set (nb := map snd _).
  assert (Hnb : nb = [eastWall; northStep; farStep]) by (vm_compute; reflexivity).
  clearbody nb. subst nb. unfold DEMUtils.topographyFrom. cbv zeta.
  change (3 <=? List.length [eastWall; northStep; farStep])%nat with true. cbv iota.
  match goal with |- context [find ?f ?l] =>
    replace (find f l) with (Some eastWall) by (vm_compute; reflexivity) end.
  match goal with |- context [find ?f ?l] =>
    replace (find f l) with (Some northStep) by (vm_compute; reflexivity) end.
  cbv iota beta.
  pose proof (aspect_at_corner HM) as Ha. cbv zeta in Ha. rewrite Ha.
  vm_compute. reflexivity.
Qed.

(** C6, on the code.  On the four samples of [cliff], all finite and at
    least 2 m, and with an arctangent that is where the true one is in the
    fourth quadrant, the sample [calculateTopography] emits for the corner
    has the aspect 360, which is not below 360. *)
Theorem calculateTopography_aspect_reaches_360 :
  forall M : MathLib,
    atan2_fourth_quadrant M ->
    exists t a,
      In t (DEMUtils.calculateTopography M cliff)
      /\ aspect t = Some a
      /\ a = of_Z 360
      /\ (a <? of_Z 360) = false.
Proof.
  intros M HM.
  exists (withTopography corner (of_Z 6590) (of_Z 360)), (of_Z 360).
  split; [ | repeat split ].
  unfold DEMUtils.calculateTopography.
  replace (sort DEMUtils.byLatThenLng cliff) with cliff by (vm_compute; reflexivity).
  change (combine (seq 0 (List.length cliff)) cliff)
    with [(0%nat, corner); (1%nat, eastWall); (2%nat, northStep); (3%nat, farStep)].
  cbn [flat_map]. apply in_or_app. left.
  rewrite (topographyAt_corner HM). now left.
Qed.

(** The same on the stand-in platform. *)
Lemma calculateTopography_aspect_reaches_360_witness :
  exists t a,
    In t (DEMUtils.calculateTopography coarseMath cliff)
    /\ aspect t = Some a
    /\ a = of_Z 360
    /\ (a <? of_Z 360) = false.
Proof.
  exact (calculateTopography_aspect_reaches_360 coarseMath_fourth_quadrant).
Defined.

(** Samples without a finite elevation come out without a slope: with
    every input elevation NaN, every emitted slope is NaN. *)
Lemma calculateTopography_NaN_slope (M : MathLib) (demData : list Sample) :
  Forall (fun s => elevation s = NaN) demData ->
  Forall (fun t => slope t = Some NaN) (DEMUtils.calculateTopography M demData).
Proof.
  intros Hnan. unfold DEMUtils.calculateTopography.
  set (sortedData := sort DEMUtils.byLatThenLng demData).
  apply Forall_forall. intros t Ht. apply in_flat_map in Ht.
  destruct Ht as [[i point] [Hin Ht]].
  assert (Hp : elevation point = NaN).
  { apply in_combine_r in Hin. apply (proj1 (sort_In _ _ _)) in Hin.
    rewrite Forall_forall in Hnan. now apply Hnan. }
  unfold DEMUtils.topographyAt, DEMUtils.topographyFrom in Ht. cbv zeta in Ht.
  match type of Ht with In _ (if ?c then _ else _) => destruct c end;
    [ | destruct Ht ].
  destruct Ht as [<- | []]. simpl. rewrite Hp. reflexivity.
Qed.

Lemma grid_ext (A : Type) (n : nat) (cell cell' : nat -> nat -> nat -> A) (k k' : nat) :
  (forall i j d d', (i < n)%nat -> (j < n)%nat -> cell i j d = cell' i j d') ->
  DEMUtils.grid n cell k = DEMUtils.grid n cell' k'.
Proof.
  intros H. unfold DEMUtils.grid.
  assert (Hrows : forall rows, (forall i, In i rows -> (i < n)%nat) ->
            flat_map (fun i => map (fun j => cell i j (k + i * n + j)%nat) (seq 0 n)) rows
            = flat_map (fun i => map (fun j => cell' i j (k' + i * n + j)%nat) (seq 0 n)) rows).
  { induction rows as [ | i rows IH]; intros Hin; simpl; [ reflexivity | ].
    rewrite IH by (intros i' Hi'; apply Hin; now right). f_equal.
    apply map_ext_in. intros j Hj. apply in_seq in Hj.
    apply H; [ apply Hin; now left | lia ]. }
  apply Hrows. intros i Hi. apply in_seq in Hi. lia.
Qed.

(** Over the sliver [generateDEM] returns the same grid whatever the
    platform, the anchor and the draws. *)
Lemma generateDEM_sliverDEM (M : MathLib) (rnd : Random) (la ln radius : num) (k : nat) :
  DEMUtils.generateDEM M rnd la ln radius (BFeature sliver) k
  = Some (sliverDEM, (k + 256)%nat).
Proof.
  unfold DEMUtils.generateDEM.
  change (outerRing (BFeature sliver)) with (Some sliverRing). cbv zeta. cbv iota.
  match goal with |- context [Math_max ?a ?b] =>
    replace (Math_max a b) with (of_Z 15) by (vm_compute; reflexivity) end.
  change (passes (of_Z 15)) with (Some 16%nat). cbv iota.
  change (k + 16 * 16)%nat with (k + 256)%nat.
  apply f_equal. apply (f_equal2 pair); [ | reflexivity ].
  unfold sliverDEM. apply grid_ext. intros i j d d' Hi Hj.
  assert (H15 : ~ (inject_Z 15 == 0)%Q) by (intros H; vm_compute in H; discriminate H).
  pose proof (@boundaryCell_zero_width M rnd (boundingBox sliverRing) (inject_Z 15) i j d
                76 76 eq_refl eq_refl ltac:(reflexivity) H15) as Hnan.
  unfold DEMUtils.boundaryCell, blankCell, demPoint in *. cbv zeta in *.
  cbn [elevation] in Hnan. unfold of_Z in Hnan |- *. rewrite Hnan. reflexivity.
Qed.

(** So the pipeline of the component, over the sliver, emits a topography
    sample whose slope is NaN. *)
Lemma calculateTopography_over_sliver (M : MathLib) (rnd : Random) (la ln radius : num)
  (k : nat) :
  exists dem t,
    DEMUtils.generateDEM M rnd la ln radius (BFeature sliver) k = Some (dem, (k + 256)%nat)
    /\ In t (DEMUtils.calculateTopography M dem)
    /\ slope t = Some NaN
    /\ (NaN >=? of_Z 0) = false.
Proof.
  exists sliverDEM.
  assert (Hin : exists t, In t (DEMUtils.calculateTopography M sliverDEM)).
  { unfold DEMUtils.calculateTopography.
    replace (sort DEMUtils.byLatThenLng sliverDEM) with sliverDEM by (vm_compute; reflexivity).
    set (tagged := combine (seq 0 (List.length sliverDEM)) sliverDEM).
    assert (Htag : tagged = (0%nat, hd Store.noSample sliverDEM) :: tl tagged)
      by (vm_compute; reflexivity).
    rewrite Htag. cbn [flat_map].
    assert (Hfirst : exists t, DEMUtils.topographyAt M sliverDEM 0 (hd Store.noSample sliverDEM)
                               = [t]).
    { eexists. vm_compute. reflexivity. }
    destruct Hfirst as [t Ht]. exists t. apply in_or_app. left. rewrite Ht. now left. }
  destruct Hin as [t Ht]. exists t.
  split; [ apply generateDEM_sliverDEM | ]. split; [ exact Ht | ]. split; [ | reflexivity ].
  assert (Hnan : Forall (fun s => elevation s = NaN) sliverDEM).
  { apply Forall_forall. intros p Hp. unfold sliverDEM in Hp. apply grid_In in Hp.
    destruct Hp as [i [j [_ [_ ->]]]]. reflexivity. }
  pose proof (calculateTopography_NaN_slope M Hnan) as Hall.
  rewrite Forall_forall in Hall. exact (Hall t Ht).
Qed.

(** *** Where slope and aspect are in range *)

Lemma round1Q_le (z : Z) (q : Q) :
  (0 <= q)%Q -> (q * 10 <= inject_Z z)%Q -> (round1Q q * 10 <= inject_Z z)%Q.
Proof.
  intros H0 H. unfold round1Q. apply Qle_bool_iff in H0. rewrite H0.
  unfold round1_nonneg. rewrite Qred_correct.
  setoid_replace (inject_Z (Qfloor (q * 10 + (1 # 2))) / 10 * 10)%Q
    with (inject_Z (Qfloor (q * 10 + (1 # 2)))) by field.
  rewrite <- Zle_Qle.
  pose proof (Qfloor_le (q * 10 + (1 # 2))) as Hf.
  assert (Hlt : (inject_Z (Qfloor (q * 10 + (1 # 2))) < inject_Z (z + 1))%Q).
  { rewrite inject_Z_plus. change (inject_Z 1) with 1%Q. lra. }
  rewrite <- Zlt_Qlt in Hlt. lia.
Qed.

Lemma sum_finite (xs : list num) (a : Q) :
  Forall (fun x => is_finite x = true) xs ->
  exists t, fold_left add xs (Fin a) = Fin t.
Proof.
  revert a. induction xs as [ | x xs IH]; intros a H; simpl.
  - now exists a.
  - inversion H as [ | ? ? Hx Hxs]; subst.
    destruct x as [ | | | q]; try discriminate. simpl. now apply IH.
Qed.

Section RangeFacts.
Variable M : MathLib.
Hypothesis M_ok : MathLib_ok M.

Lemma rounded_slope (e avg : Q) :
  exists s, toFixed1 (Math_abs (Fin e - Fin avg) * of_Z 100) = Fin s /\ (0 <= s)%Q.
Proof.
  cbn [sub add opp Math_abs mul of_Z toFixed1]. eexists. split; [ reflexivity | ].
  assert (H : (inject_Z 0 <= round1Q (Qabs (e + - avg) * inject_Z 100) * 10)%Q).
  { apply round1Q_ge; [ lia | ].
    pose proof (Qabs_nonneg (e + - avg)) as Habs.
    change (inject_Z 0) with 0%Q. change (inject_Z 100) with 100%Q.
    set (d := Qabs (e + - avg)) in *. lra. }
  change (inject_Z 0) with 0%Q in H. lra.
Qed.

Lemma rounded_aspect (dy dx : Q) :
  exists a,
    toFixed1 (let b := Math_atan2 M (Fin dy) (Fin dx) * of_Z 180 / Math_PI in
              if b <? of_Z 0 then b + of_Z 360 else b) = Fin a
    /\ (0 <= a <= 360)%Q.
Proof.
  cbv zeta. cbn [Math_atan2]. set (v := atan2Q M dy dx).
  assert (Hb : Fin v * of_Z 180 / Math_PI
               = Fin (v * 180 * (281474976710656 # 884279719003555))) by reflexivity.
  rewrite Hb. clear Hb.
  pose proof (atan2_range M_ok dy dx) as Hv. fold v in Hv. unfold Math_PI_Q in Hv.
  set (b := (v * 180 * (281474976710656 # 884279719003555))%Q).
  assert (Hbr : (-180 <= b <= 180)%Q) by (unfold b; split; lra).
  destruct (Fin b <? of_Z 0) eqn:E.
  - apply ltb_Fin in E. change (inject_Z 0) with 0%Q in E.
    cbn [add toFixed1 of_Z]. eexists. split; [ reflexivity | ].
    change (inject_Z 360) with 360%Q.
    assert (Hlo : (inject_Z 0 <= round1Q (b + 360) * 10)%Q).
    { apply round1Q_ge; [ lia | ]. change (inject_Z 0) with 0%Q. lra. }
    assert (Hhi : (round1Q (b + 360) * 10 <= inject_Z 3600)%Q).
    { apply round1Q_le; [ lra | ]. change (inject_Z 3600) with 3600%Q. lra. }
    change (inject_Z 0) with 0%Q in Hlo. change (inject_Z 3600) with 3600%Q in Hhi.
    split; lra.
  - assert (Hb0 : (0 <= b)%Q).
    { destruct (Qlt_le_dec b 0) as [Hlt | Hle]; [ | exact Hle ].
      assert (Ht : (Fin b <? of_Z 0) = true) by (apply ltb_Fin; exact Hlt).
      congruence. }
    cbn [toFixed1]. eexists. split; [ reflexivity | ].
    assert (Hlo : (inject_Z 0 <= round1Q b * 10)%Q).
    { apply round1Q_ge; [ lia | ]. change (inject_Z 0) with 0%Q. lra. }
    assert (Hhi : (round1Q b * 10 <= inject_Z 3600)%Q).
    { apply round1Q_le; [ lra | ]. change (inject_Z 3600) with 3600%Q. lra. }
    change (inject_Z 0) with 0%Q in Hlo. change (inject_Z 3600) with 3600%Q in Hhi.
    split; lra.
Qed.

Lemma topographyFrom_inRange (neighbors : list Sample) (point : Sample) :
  Forall finiteElevation neighbors -> finiteElevation point ->
  Forall inRange (DEMUtils.topographyFrom M neighbors point).
Proof.
  intros Hn Hp. unfold DEMUtils.topographyFrom.
  destruct (3 <=? List.length neighbors)%nat eqn:Hlen; [ | constructor ].
  apply Nat.leb_le in Hlen. cbv zeta.
  constructor; [ | constructor ].
  unfold finiteElevation in Hp. destruct (elevation point) as [ | | | e] eqn:He;
    try discriminate.
  assert (Hel : Forall (fun x => is_finite x = true) (map elevation neighbors)).
  { apply Forall_forall. intros x Hx. apply in_map_iff in Hx.
    destruct Hx as [p [<- Hin]]. rewrite Forall_forall in Hn. now apply Hn. }
  destruct (sum_finite 0 Hel) as [total Htotal].
  change (Fin 0) with (of_Z 0) in Htotal. rewrite Htotal.
  assert (Havg : exists avg, Fin total / of_nat (List.length (map elevation neighbors))
                             = Fin avg).
  { rewrite length_map. unfold of_nat, of_Z. simpl.
    assert (Hz : Qis_zero (inject_Z (Z.of_nat (List.length neighbors))) = false).
    { unfold Qis_zero. apply not_true_is_false. intros H. apply Qeq_bool_iff in H.
      assert (H3 : (inject_Z 3 <= inject_Z (Z.of_nat (List.length neighbors)))%Q).
      { rewrite <- Zle_Qle. lia. }
      change (inject_Z 3) with 3%Q in H3. lra. }
    rewrite Hz. eexists. reflexivity. }
  destruct Havg as [avg ->].
  destruct (rounded_slope e avg) as [s [Hs Hs0]].
  assert (Hfound : forall f, match find f neighbors with
                             | Some p => exists q, elevation p = Fin q
                             | None => True
                             end).
  { intros f. destruct (find f neighbors) as [p | ] eqn:Hf; [ | exact I ].
    apply find_some in Hf. destruct Hf as [Hin _].
    rewrite Forall_forall in Hn. specialize (Hn p Hin). unfold finiteElevation in Hn.
    destruct (elevation p) as [ | | | q]; try discriminate. now exists q. }
  match goal with |- context [find ?f neighbors] =>
    pose proof (Hfound f) as Heast; destruct (find f neighbors) as [east | ] end.
  - match goal with |- context [find ?f neighbors] =>
      pose proof (Hfound f) as Hnorth; destruct (find f neighbors) as [north | ] end.
    + destruct Heast as [qe Hqe], Hnorth as [qn Hqn]. rewrite Hqe, Hqn.
      destruct (rounded_aspect (qn + - e) (qe + - e)) as [a [Ha Ha0]].
      exists s, a. simpl. cbv zeta in Ha. simpl in Ha, Hs. rewrite Ha, Hs. auto.
    + exists s, 0%Q. simpl. simpl in Hs. rewrite Hs.
      repeat split; try assumption; try lra.
  - exists s, 0%Q. simpl. simpl in Hs. rewrite Hs.
    repeat split; try assumption; try lra.
Qed.

(** With finite input elevations every emitted slope is at least 0 and
    every emitted aspect is in the closed interval from 0 to 360. *)
Lemma calculateTopography_inRange (demData : list Sample) :
  Forall finiteElevation demData ->
  Forall inRange (DEMUtils.calculateTopography M demData).
Proof.
  intros Hfin. unfold DEMUtils.calculateTopography.
  set (sortedData := sort DEMUtils.byLatThenLng demData).
  assert (Hsorted : Forall finiteElevation sortedData).
  { apply Forall_forall. intros p Hp. apply (proj1 (sort_In _ _ _)) in Hp.
    rewrite Forall_forall in Hfin. now apply Hfin. }
  apply Forall_forall. intros t Ht. apply in_flat_map in Ht.
  destruct Ht as [[i point] [Hin Ht]].
  revert t Ht. apply Forall_forall. unfold DEMUtils.topographyAt. cbv zeta.
  apply topographyFrom_inRange.
  - apply Forall_forall. intros p Hp. apply in_map_iff in Hp.
    destruct Hp as [[k p'] [<- Hp]]. unfold DEMUtils.neighborsOf in Hp.
    apply filter_In in Hp. destruct Hp as [Hp _]. apply in_combine_r in Hp.
    rewrite Forall_forall in Hsorted. now apply Hsorted.
  - apply in_combine_r in Hin. rewrite Forall_forall in Hsorted. now apply Hsorted.
Qed.

End RangeFacts.

(** On the cliff, where one aspect is 360 itself. *)
Lemma calculateTopography_inRange_witness :
  Forall inRange (DEMUtils.calculateTopography coarseMath cliff).
Proof.
  apply (@calculateTopography_inRange coarseMath coarseMath_ok cliff).
  repeat constructor.
Defined.

(** ** C7: flow paths *)

#[local] Hint Constructors Chain : core.

Lemma Chain_snoc (A : Type) (R : A -> A -> Prop) (l : list A) (d x : A) :
  Chain R l -> (l <> [] -> R (last l d) x) -> Chain R (l ++ [x]).
Proof.
  induction 1 as [ | a | a b l Hab Hl IH]; intros Hlast; simpl.
  - constructor.
  - constructor; [ | constructor ]. apply Hlast. discriminate.
  - constructor; [ exact Hab | ]. apply IH. intros _. apply Hlast. discriminate.
Qed.

Lemma Chain_impl (A : Type) (R R' : A -> A -> Prop) (l : list A) :
  (forall x y, R x y -> R' x y) -> Chain R l -> Chain R' l.
Proof. intros HR. induction 1; auto. Qed.

Section FlowFacts.
Variable topography : list Sample.

Lemma steepest_In (currentPoint : Sample) (neighbors : list Sample) (first : Sample) :
  let s := DEMUtils.steepest currentPoint neighbors first in
  s = first \/ In s neighbors.
Proof.
  unfold DEMUtils.steepest. revert first.
  induction neighbors as [ | p l IH]; intros first; simpl.
  - left; reflexivity.
  - match goal with |- context [if ?c then _ else _] => destruct c end.
    + destruct (IH p) as [-> | H]; auto.
    + destruct (IH first) as [-> | H]; auto.
Qed.

Lemma downhillNeighbors_lower (processed : list Pair) (currentPoint p : Sample) :
  In p (DEMUtils.downhillNeighbors topography processed currentPoint) ->
  In p topography /\ strictlyDown currentPoint p.
Proof.
  unfold DEMUtils.downhillNeighbors. intros H. apply filter_In in H.
  destruct H as [Hin H]. split; [ exact Hin | ].
  apply andb_true_iff in H. apply H.
Qed.

Lemma flowSteps_S (steps : nat) (currentPoint : Sample) (path : list Sample)
  (processed : list Pair) :
  DEMUtils.flowSteps topography (S steps) currentPoint path processed
  = match DEMUtils.downhillNeighbors topography processed currentPoint with
    | [] => (path, processed)
    | first :: _ =>
        let nextPoint :=
          DEMUtils.steepest currentPoint
            (DEMUtils.downhillNeighbors topography processed currentPoint) first in
        DEMUtils.flowSteps topography steps nextPoint (path ++ [nextPoint])
          (DEMUtils.processedAdd processed nextPoint)
    end.
Proof.
  simpl. destruct (DEMUtils.downhillNeighbors topography processed currentPoint); reflexivity.
Qed.

(** The walk keeps the path a strictly descending chain that ends on the
    current point. *)
Lemma flowSteps_chain (steps : nat) :
  forall currentPoint path processed,
    Chain strictlyDown path -> path <> [] -> last path currentPoint = currentPoint ->
    Chain strictlyDown
      (fst (DEMUtils.flowSteps topography steps currentPoint path processed)).
Proof.
  induction steps as [ | steps IH]; intros cur path processed Hc Hne Hlast.
  - exact Hc.
  - rewrite flowSteps_S.
    destruct (DEMUtils.downhillNeighbors topography processed cur) as [ | first rest] eqn:E.
    + exact Hc.
    + cbv zeta. set (next := DEMUtils.steepest cur (first :: rest) first).
      assert (Hnext : In next (first :: rest)).
      { destruct (steepest_In cur (first :: rest) first) as [H | H]; fold next in H.
        - rewrite H. left; reflexivity.
        - exact H. }
      rewrite <- E in Hnext. apply downhillNeighbors_lower in Hnext.
      apply IH.
      * apply Chain_snoc with (d := cur); [ exact Hc | ].
        intros _. rewrite Hlast. apply (proj2 Hnext).
      * destruct path; discriminate.
      * apply last_last.
Qed.

Lemma flowFrom_ok (state : list (list Sample) * list Pair) (startPoint : Sample) :
  Forall path_ok (fst state) ->
  Forall path_ok (fst (DEMUtils.flowFrom topography state startPoint)).
Proof.
  destruct state as [flowPaths processed]. unfold DEMUtils.flowFrom. intros H.
  destruct (DEMUtils.processedHas processed startPoint); [ exact H | ].
  pose proof (@flowSteps_chain 20 startPoint [startPoint]
                (DEMUtils.processedAdd processed startPoint)
                (Chain_one _ _) ltac:(discriminate) eq_refl) as Hc.
  destruct (DEMUtils.flowSteps topography 20 startPoint [startPoint]
              (DEMUtils.processedAdd processed startPoint)) as [path processed'].
  simpl in Hc.
  destruct (3 <? List.length path)%nat eqn:Hlen; simpl; [ | exact H ].
  apply Forall_app. split; [ exact H | ].
  constructor; [ | constructor ].
  repeat split.
  - now apply Nat.ltb_lt.
  - exact Hc.
  - apply Chain_impl with (R := strictlyDown); [ | exact Hc ].
    intros x y. apply ltb_leb.
Qed.

Lemma flowFrom_fold_ok (highPoints : list Sample) :
  forall state,
    Forall path_ok (fst state) ->
    Forall path_ok (fst (fold_left (DEMUtils.flowFrom topography) highPoints state)).
Proof.
  induction highPoints as [ | h hs IH]; intros state H; simpl.
  - exact H.
  - apply IH. now apply flowFrom_ok.
Qed.

End FlowFacts.

(** C7. Every path [calculateWaterFlow] returns has more than 3 points and
    descends strictly from each point to the next, so it never rises; this
    for every list of topography samples. *)
Theorem calculateWaterFlow_paths :
  forall topography : list Sample,
    Forall path_ok (DEMUtils.calculateWaterFlow topography).
Proof.
  intros topography. unfold DEMUtils.calculateWaterFlow.
  apply flowFrom_fold_ok. constructor.
Qed.

(** On the ramp, the flow from the top takes all five samples. *)
Example calculateWaterFlow_ramp : DEMUtils.calculateWaterFlow ramp = [ramp].
Proof. vm_compute. reflexivity. Qed.

(** ** C8: interior sampling *)

Section SamplingFacts.
Variable rnd : Random.
Variable coordinates : list Pair.

Let tested (k : nat) : bool :=
  let point := BoundaryUtils.candidate rnd coordinates k in
  pointInPolygon (snd point, fst point) coordinates.

Lemma rejectionLoop_S (remaining k : nat) :
  BoundaryUtils.rejectionLoop rnd coordinates (S remaining) k
  = if tested k
    then ({| BoundaryUtils.sampled := BoundaryUtils.candidate rnd coordinates k;
             BoundaryUtils.warned := false |}, (k + 2)%nat)
    else BoundaryUtils.rejectionLoop rnd coordinates remaining (k + 2)%nat.
Proof. reflexivity. Qed.

(** The loop either stops on a candidate that passed the test, or, with
    all its [remaining] candidates rejected, gives the midpoint. *)
Lemma rejectionLoop_spec (remaining k : nat) :
  let r := fst (BoundaryUtils.rejectionLoop rnd coordinates remaining k) in
  if BoundaryUtils.warned r
  then BoundaryUtils.sampled r = BoundaryUtils.midpoint coordinates
       /\ forall i, (i < remaining)%nat -> tested (k + 2 * i) = false
  else pointInPolygon (snd (BoundaryUtils.sampled r), fst (BoundaryUtils.sampled r))
                      coordinates = true.
Proof.
  revert k. induction remaining as [ | n IH]; intros k.
  - simpl. split; [ reflexivity | intros i Hi; lia ].
  - rewrite rejectionLoop_S. destruct (tested k) eqn:E.
    + exact E.
    + specialize (IH (k + 2)%nat). cbv zeta in IH |- *.
      destruct (BoundaryUtils.warned _); [ | exact IH ].
      destruct IH as [Hm Hall]. split; [ exact Hm | ].
      intros [ | i] Hi.
      * replace (k + 2 * 0)%nat with k by lia. exact E.
      * replace (k + 2 * S i)%nat with (k + 2 + 2 * i)%nat by lia.
        apply Hall; lia.
Qed.


End SamplingFacts.

(** On the boundaries of the component, a call returns a point: one that
    passes [isPointInBoundary] when it returns without the warning, the
    midpoint after 1000 candidates that did not. *)
Lemma generateRandomPointInBoundary_spec :
  forall (rnd : Random) (boundary : BoundaryArg) (k : nat),
    let r := fst (BoundaryUtils.generateRandomPointInBoundary rnd boundary k) in
    let '(la, ln) := BoundaryUtils.sampled r in
    if BoundaryUtils.warned r
    then exists coordinates,
           outerRing boundary = Some coordinates
           /\ (la, ln) = BoundaryUtils.midpoint coordinates
           /\ forall i, (i < 1000)%nat ->
                let c := BoundaryUtils.candidate rnd coordinates (k + 2 * i) in
                pointInPolygon (snd c, fst c) coordinates = false
    else BoundaryUtils.isPointInBoundary (PArr la ln) boundary = true.
Proof.
  intros rnd boundary k.
  unfold BoundaryUtils.generateRandomPointInBoundary, BoundaryUtils.isPointInBoundary.
  destruct (outerRing boundary) as [coordinates | ] eqn:Hring.
  - pose proof (rejectionLoop_spec rnd coordinates 1000 k) as H. cbv zeta in H |- *.
    destruct (BoundaryUtils.rejectionLoop rnd coordinates 1000 k) as [r k'].
    unfold fst in H |- *.
    destruct r as [[la ln] w]. unfold BoundaryUtils.sampled, BoundaryUtils.warned in H |- *.
    destruct w.
    + destruct H as [Hm Hall]. exists coordinates. repeat split; auto.
    + exact H.
  - reflexivity.
Qed.

(** The loop as it is written ends: with [attempts] on entry and
    [remaining] attempts to go of the 1000, more than [remaining] turns are
    enough, and what it returns is what the loop by attempts left returns. *)
Lemma sampleLoop_ends (rnd : Random) (ring_ : list Pair) (remaining : nat) :
  forall turns attempts k,
    (attempts + remaining = 1000)%nat -> (remaining < turns)%nat ->
    BoundaryUtils.sampleLoop rnd ring_ turns attempts k
    = Some (BoundaryUtils.rejectionLoop rnd ring_ remaining k).
Proof.
  induction remaining as [ | remaining IH]; intros turns attempts k Hsum Hturns;
    (destruct turns as [ | turns]; [ lia | ]); cbn [BoundaryUtils.sampleLoop].
  - replace (1000 <? S attempts)%nat with true by (symmetry; apply Nat.ltb_lt; lia).
    reflexivity.
  - replace (1000 <? S attempts)%nat with false by (symmetry; apply Nat.ltb_ge; lia).
    rewrite rejectionLoop_S.
    change (snd (BoundaryUtils.candidate rnd ring_ k), fst (BoundaryUtils.candidate rnd ring_ k))
      with (minLng (boundingBox ring_)
            + Math_random rnd k * (maxLng (boundingBox ring_) - minLng (boundingBox ring_)),
            minLat (boundingBox ring_)
            + Math_random rnd (S k) * (maxLat (boundingBox ring_) - minLat (boundingBox ring_))).
    cbn [fst snd].
    destruct (pointInPolygon _ ring_); cbn [negb]; [ reflexivity | ].
    apply IH; lia.
Qed.

(** On a boundary of the component the raw sampler returns what the
    sampler of the model returns. *)
Lemma generateRandomPointInBoundary_refines (rnd : Random) (boundary : BoundaryArg)
  (turns k : nat) :
  (1001 <= turns)%nat ->
  BoundaryUtils.generateRandomPointInBoundaryRaw rnd (BoundaryUtils.raw boundary) turns k
  = Some (BoundaryUtils.Returned
            (fst (BoundaryUtils.generateRandomPointInBoundary rnd boundary k))
            (snd (BoundaryUtils.generateRandomPointInBoundary rnd boundary k))).
Proof.
  intros Hturns.
  unfold BoundaryUtils.generateRandomPointInBoundaryRaw,
    BoundaryUtils.generateRandomPointInBoundary, BoundaryUtils.raw.
  destruct boundary as [ | f | arr]; cbn [outerRing BoundaryUtils.rawGeometry];
    try reflexivity.
  destruct (geometry f) as [g | ]; [ | reflexivity ].
  cbn [BoundaryUtils.coordinates].
  rewrite (@sampleLoop_ends rnd (ring g) 1000 turns 0 k) by lia.
  destruct (BoundaryUtils.rejectionLoop rnd (ring g) 1000 k). reflexivity.
Qed.

(** *** The bounding box *)

Lemma boundingBox_snoc (coords : list Pair) (v : Pair) :
  boundingBox (coords ++ [v])
  = {| minLat := Math_min (minLat (boundingBox coords)) (snd v);
       maxLat := Math_max (maxLat (boundingBox coords)) (snd v);
       minLng := Math_min (minLng (boundingBox coords)) (fst v);
       maxLng := Math_max (maxLng (boundingBox coords)) (fst v) |}.
Proof.
  unfold boundingBox. rewrite fold_left_app. destruct v as [ln la]. reflexivity.
Qed.

Lemma Math_min_Fin_cases (a b : Q) :
  (Math_min (Fin a) (Fin b) = Fin a /\ (a <= b)%Q)
  \/ (Math_min (Fin a) (Fin b) = Fin b /\ (b <= a)%Q).
Proof.
  unfold Math_min; simpl. destruct (a ?= b)%Q eqn:E.
  - apply Qeq_alt in E. left. split; [ reflexivity | lra ].
  - apply Qlt_alt in E. left. split; [ reflexivity | lra ].
  - apply Qgt_alt in E. right. split; [ reflexivity | lra ].
Qed.

Lemma Math_max_Fin_cases (a b : Q) :
  (Math_max (Fin a) (Fin b) = Fin a /\ (b <= a)%Q)
  \/ (Math_max (Fin a) (Fin b) = Fin b /\ (a <= b)%Q).
Proof.
  unfold Math_max; simpl. destruct (a ?= b)%Q eqn:E.
  - apply Qeq_alt in E. left. split; [ reflexivity | lra ].
  - apply Qlt_alt in E. right. split; [ reflexivity | lra ].
  - apply Qgt_alt in E. left. split; [ reflexivity | lra ].
Qed.

(** The box of a ring of finite positions: its corners are the least and
    the greatest coordinates of the vertices. *)
Lemma boundingBox_extremes (coords : list Pair) :
  coords <> [] -> Forall finitePair coords ->
  exists south north west east,
    boundingBox coords
    = {| minLat := Fin south; maxLat := Fin north; minLng := Fin west; maxLng := Fin east |}
    /\ extremes coords south north west east.
Proof.
  induction coords as [ | v coords IH] using rev_ind; [ congruence | ].
  intros _ Hfin. apply Forall_app in Hfin. destruct Hfin as [Hfin Hv].
  inversion Hv as [ | ? ? [Hx Hy] _]; subst.
  destruct v as [[ | | | x] [ | | | y]]; try discriminate. clear Hx Hy Hv.
  rewrite boundingBox_snoc. cbn [fst snd].
  destruct coords as [ | v0 coords0] eqn:Ec.
  - exists y, y, x, x. split; [ reflexivity | ]. unfold extremes. cbn [app].
    split; [ | repeat split; exists (Fin x, Fin y); (split; [ now left | reflexivity ]) ].
    constructor; [ | constructor ]. exists x, y. split; [ reflexivity | ]. split; lra.
  - rewrite <- Ec in *.
    destruct IH as (s & n & w & e & Hbox & Hall & Hs & Hn & Hw & He);
      [ subst; discriminate | assumption | ].
    rewrite Hbox. cbn [minLat maxLat minLng maxLng].
    assert (Hold : forall u, In u coords -> In u (coords ++ [(Fin x, Fin y)]))
      by (intros u Hu; apply in_or_app; now left).
    assert (Hnew : In (Fin x, Fin y) (coords ++ [(Fin x, Fin y)]))
      by (apply in_or_app; right; now left).
    destruct (Math_min_Fin_cases s y) as [[-> Hs'] | [-> Hs']];
      destruct (Math_max_Fin_cases n y) as [[-> Hn'] | [-> Hn']];
      destruct (Math_min_Fin_cases w x) as [[-> Hw'] | [-> Hw']];
      destruct (Math_max_Fin_cases e x) as [[-> He'] | [-> He']];
      eexists _, _, _, _; (split; [ reflexivity | ]); unfold extremes;
      (split; [ apply Forall_app; split;
                [ eapply Forall_impl; [ | exact Hall ];
                  intros u (ux & uy & -> & Hux & Huy); exists ux, uy;
                  (split; [ reflexivity | split; lra ])
                | constructor; [ | constructor ]; exists x, y;
                  (split; [ reflexivity | ]);
                  rewrite Forall_forall in Hall;
                  destruct Hs as (vs & Hvs & Evs), Hn as (vn & Hvn & Evn),
                           Hw as (vw & Hvw & Evw), He as (ve & Hve & Eve);
                  destruct (Hall vs Hvs) as (? & ? & -> & ? & ?);
                  destruct (Hall vn Hvn) as (? & ? & -> & ? & ?);
                  destruct (Hall vw Hvw) as (? & ? & -> & ? & ?);
                  destruct (Hall ve Hve) as (? & ? & -> & ? & ?);
                  cbn [fst snd] in *;
                  injection Evs as ->; injection Evn as ->;
                  injection Evw as ->; injection Eve as ->;
                  split; lra ]
              | ]);
      repeat split;
      first [ destruct Hs as (u & Hu & Eu); exists u; split; [ now apply Hold | exact Eu ]
            | destruct Hn as (u & Hu & Eu); exists u; split; [ now apply Hold | exact Eu ]
            | destruct Hw as (u & Hu & Eu); exists u; split; [ now apply Hold | exact Eu ]
            | destruct He as (u & Hu & Eu); exists u; split; [ now apply Hold | exact Eu ]
            | exists (Fin x, Fin y); split; [ exact Hnew | reflexivity ] ].
Qed.



(** Over the plot, whose every draw of 1/4 gives the candidate at latitude
    1/2, longitude 1, inside it: the first turn returns. *)
Example generateRandomPointInBoundary_plot :
  BoundaryUtils.generateRandomPointInBoundaryRaw steadyDraws
    (BoundaryUtils.raw (BFeature plot)) 1001 0
  = Some (BoundaryUtils.Returned
            {| BoundaryUtils.sampled := (Fin (0 + (1 # 4) * (2 + - 0)), Fin (0 + (1 # 4) * (4 + - 0)));
               BoundaryUtils.warned := false |} 2).
Proof. vm_compute. reflexivity. Qed.

(** ** C9: contour extraction *)

Lemma onLevel_spec (demData : list Sample) (lv : num) :
  incl (DEMUtils.onLevel demData lv) demData
  /\ Forall (fun p => exists e l, elevation p = Fin e /\ lv = Fin l
                                  /\ (Qabs (e - l) < 1 # 2)%Q)
            (DEMUtils.onLevel demData lv).
Proof.
  unfold DEMUtils.onLevel. split.
  - intros p Hp. apply filter_In in Hp. tauto.
  - apply Forall_forall. intros p Hp. apply filter_In in Hp. destruct Hp as [_ Hp].
    apply abs_ltb_finite in Hp. destruct Hp as [q [Hq Hlt]].
    apply sub_Fin_inv in Hq. destruct Hq as [e [l [He [Hl ->]]]].
    exists e, l. repeat split; assumption.
Qed.

Lemma contoursFrom_ok (demData : list Sample) (interval maxElevation : num) (fuel : nat) :
  forall lv cs,
    DEMUtils.contoursFrom demData interval fuel maxElevation lv = Some cs ->
    Forall (contour_ok demData) cs.
Proof.
  induction fuel as [ | fuel IH]; intros lv cs; simpl.
  - destruct (lv <=? maxElevation); [ discriminate | ].
    intros H; injection H as <-. constructor.
  - destruct (lv <=? maxElevation).
    + destruct (DEMUtils.contoursFrom demData interval fuel maxElevation (lv + interval))
        as [rest | ] eqn:E; [ | discriminate ].
      intros H; injection H as <-. specialize (IH _ _ E).
      destruct (10 <? List.length (DEMUtils.onLevel demData lv))%nat eqn:Hlen; [ | exact IH ].
      constructor; [ | exact IH ].
      destruct (onLevel_spec demData lv) as [Hincl Hnear].
      repeat split; simpl; try assumption.
      now apply Nat.ltb_lt.
    + intros H; injection H as <-. constructor.
Qed.

(** C9. Whenever [generateContours] returns, every contour in its result
    holds more than 10 points and each point of a contour is within 0.5 of
    the contour's level; this for every sample list and every interval. *)
Theorem generateContours_contours :
  forall (demData : list Sample) (interval : num) (fuel : nat) (cs : list Contour),
    DEMUtils.generateContours demData interval fuel = Some cs ->
    Forall (contour_ok demData) cs.
Proof.
  intros demData interval fuel cs. unfold DEMUtils.generateContours.
  apply contoursFrom_ok.
Qed.

(** On the plateau, the contour at 5 m. *)
Lemma generateContours_contours_witness :
  Forall (contour_ok plateau) [plateauContour].
Proof.
  apply (@generateContours_contours plateau (of_Z 1) 3 [plateauContour]).
  vm_compute. reflexivity.
Defined.

(** The loop ends for a positive interval: with finite elevations, some
    number of passes is enough, and any larger number gives the same
    result. *)
Lemma contoursFrom_returns (demData : list Sample) (q mx : Q) (n : nat) :
  (0 < q)%Q ->
  forall lv, (mx - lv < inject_Z (Z.of_nat n) * q)%Q ->
    DEMUtils.contoursFrom demData (Fin q) n (Fin mx) (Fin lv) <> None.
Proof.
  intros Hq. induction n as [ | n IH]; intros lv Hlt.
  - simpl. destruct (Fin lv <=? Fin mx) eqn:E; [ | discriminate ].
    apply leb_Fin in E. change (inject_Z (Z.of_nat 0)) with 0%Q in Hlt.
    exfalso; lra.
  - simpl. destruct (Fin lv <=? Fin mx) eqn:E; [ | discriminate ].
    assert (Hrec : (mx - (lv + q) < inject_Z (Z.of_nat n) * q)%Q).
    { rewrite Nat2Z.inj_succ, <- Z.add_1_r, inject_Z_plus in Hlt.
      change (inject_Z 1) with 1%Q in Hlt. lra. }
    specialize (IH _ Hrec).
    destruct (DEMUtils.contoursFrom demData (Fin q) n (Fin mx) (Fin (lv + q)));
      [ discriminate | congruence ].
Qed.

Lemma Math_min_of_finite (xs : list num) (a : num) :
  Forall (fun x => is_finite x = true) xs ->
  (a = PInf \/ is_finite a = true) ->
  let m := fold_left Math_min xs a in
  (m = PInf /\ xs = [] /\ a = PInf) \/ is_finite m = true.
Proof.
  revert a. induction xs as [ | x xs IH]; intros a Hxs Ha; simpl.
  - destruct Ha as [-> | Ha]; [ left; auto | right; exact Ha ].
  - inversion Hxs as [ | ? ? Hx Hxs']; subst.
    destruct x as [ | | | x]; try discriminate.
    right.
    assert (Hfin : is_finite (Math_min a (Fin x)) = true).
    { destruct Ha as [-> | Ha]; [ reflexivity | ].
      destruct a as [ | | | a]; try discriminate.
      unfold Math_min; simpl. destruct (a ?= x)%Q; reflexivity. }
    destruct (IH (Math_min a (Fin x)) Hxs' (or_intror Hfin)) as [[H1 [H2 H3]] | H]; [ | exact H ].
    rewrite H3 in Hfin. discriminate.
Qed.

Lemma Math_max_of_finite (xs : list num) (a : num) :
  Forall (fun x => is_finite x = true) xs ->
  (a = NInf \/ is_finite a = true) ->
  let m := fold_left Math_max xs a in
  (m = NInf /\ xs = [] /\ a = NInf) \/ is_finite m = true.
Proof.
  revert a. induction xs as [ | x xs IH]; intros a Hxs Ha; simpl.
  - destruct Ha as [-> | Ha]; [ left; auto | right; exact Ha ].
  - inversion Hxs as [ | ? ? Hx Hxs']; subst.
    destruct x as [ | | | x]; try discriminate.
    right.
    assert (Hfin : is_finite (Math_max a (Fin x)) = true).
    { destruct Ha as [-> | Ha]; [ reflexivity | ].
      destruct a as [ | | | a]; try discriminate.
      unfold Math_max; simpl. destruct (a ?= x)%Q; reflexivity. }
    destruct (IH (Math_max a (Fin x)) Hxs' (or_intror Hfin)) as [[H1 [H2 H3]] | H]; [ | exact H ].
    rewrite H3 in Hfin. discriminate.
Qed.

(** Archimedes, for the pass count. *)
Lemma passes_enough (q d : Q) :
  (0 < q)%Q -> exists n, (d < inject_Z (Z.of_nat n) * q)%Q.
Proof.
  intros Hq.
  exists (Z.to_nat (Z.max 0 (Qceiling (d / q)) + 1)).
  rewrite Z2Nat.id by lia.
  assert (Hc : (d / q <= inject_Z (Qceiling (d / q)))%Q) by apply Qle_ceiling.
  assert (Hm : (inject_Z (Qceiling (d / q)) < inject_Z (Z.max 0 (Qceiling (d / q)) + 1))%Q).
  { rewrite <- Zlt_Qlt. lia. }
  assert (Hd : (d == (d / q) * q)%Q) by (field; lra).
  rewrite Hd at 1.
  apply Qmult_lt_compat_r; [ exact Hq | lra ].
Qed.

(** [generateContours] returns for every sample list with finite
    elevations and every finite positive interval. *)
Lemma generateContours_returns (demData : list Sample) (q : Q) :
  (0 < q)%Q ->
  Forall (fun p => is_finite (elevation p) = true) demData ->
  exists fuel cs, DEMUtils.generateContours demData (Fin q) fuel = Some cs.
Proof.
  intros Hq Hfin. unfold DEMUtils.generateContours.
  assert (Hfin' : Forall (fun x => is_finite x = true) (map elevation demData)).
  { apply Forall_forall. intros x Hx. apply in_map_iff in Hx.
    destruct Hx as [p [<- Hp]]. rewrite Forall_forall in Hfin. auto. }
  destruct (Math_min_of_finite (a := PInf) Hfin' (or_introl eq_refl)) as [[Hmin [Hnil _]] | Hmin];
  destruct (Math_max_of_finite (a := NInf) Hfin' (or_introl eq_refl)) as [[Hmax [Hnil' _]] | Hmax];
  unfold Math_min_of, Math_max_of.
  - rewrite Hmin, Hmax. exists 0%nat, []. reflexivity.
  - rewrite Hnil in *. simpl. exists 0%nat, []. reflexivity.
  - rewrite Hnil' in *. simpl. exists 0%nat, []. reflexivity.
  - destruct (fold_left Math_min (map elevation demData) PInf) as [ | | | mn]; try discriminate.
    destruct (fold_left Math_max (map elevation demData) NInf) as [ | | | mx]; try discriminate.
    simpl Math_ceil. unfold of_Z.
    destruct (passes_enough (mx - inject_Z (Qceiling mn)) Hq) as [n Hn].
    pose proof (@contoursFrom_returns demData q mx n Hq _ Hn) as H.
    exists n.
    destruct (DEMUtils.contoursFrom demData (Fin q) n (Fin mx) (Fin (inject_Z (Qceiling mn))))
      as [cs | ]; [ exists cs; reflexivity | congruence ].
Qed.

(** [autoDesignLayout] returns: with finite elevations in [demData], some
    number of passes is enough for the contour loop of the swales. *)
Lemma autoDesignLayout_returns (M : MathLib) (rnd : Random) (now : num)
  (render : num -> string) (s : App.State) (k : nat) :
  Forall finiteElevation (App.demData s) ->
  exists fuel result, App.autoDesignLayout M rnd now render fuel s k = Some result.
Proof.
  intros Hfin.
  destruct (@generateContours_returns (App.demData s) 1 ltac:(lra) Hfin) as [fuel [cs Hcs]].
  exists fuel. unfold App.autoDesignLayout.
  destruct (App.boundary s) as [b | ]; [ | eexists; reflexivity ].
  destruct (App.placeHouse rnd now s b k) as [[house marker'] k1].
  assert (Hsw : exists swales, App.placeSwales now render fuel s b = Some swales).
  { unfold App.placeSwales.
    destruct (negb (App.someOfType "SWALE" (App.elements s))); [ | eexists; reflexivity ].
    change (of_Z 1) with (Fin 1). rewrite Hcs. eexists; reflexivity. }
  destruct Hsw as [swales ->].
  match goal with |- context [App.placeWindbreak M rnd now s b ?d k1] =>
    destruct (App.placeWindbreak M rnd now s b d k1) as [windbreak k2] end.
  match goal with |- context [fold_left (App.placeZone M rnd now s b) ?areas ?acc] =>
    destruct (fold_left (App.placeZone M rnd now s b) areas acc) as [newElements k3] end.
  eexists. reflexivity.
Qed.

(** Over the meadow. *)
Lemma autoDesignLayout_returns_witness :
  exists fuel result,
    App.autoDesignLayout coarseMath steadyDraws noon mute fuel meadow 0 = Some result.
Proof.
  apply (@autoDesignLayout_returns coarseMath steadyDraws noon mute meadow 0).
  repeat constructor.
Defined.

(** ** C2: the water tank is placed *)

(** From some number of passes on, every number of passes is enough. *)
Lemma generateContours_runs (demData : list Sample) (q : Q) :
  (0 < q)%Q ->
  Forall (fun p => is_finite (elevation p) = true) demData ->
  exists fuel0, forall fuel, (fuel0 <= fuel)%nat ->
    exists cs, DEMUtils.generateContours demData (Fin q) fuel = Some cs.
Proof.
  intros Hq Hfin. unfold DEMUtils.generateContours.
  assert (Hfin' : Forall (fun x => is_finite x = true) (map elevation demData)).
  { apply Forall_forall. intros x Hx. apply in_map_iff in Hx.
    destruct Hx as [p [<- Hp]]. rewrite Forall_forall in Hfin. auto. }
  destruct (Math_min_of_finite (a := PInf) Hfin' (or_introl eq_refl)) as [[Hmin [Hnil _]] | Hmin];
  destruct (Math_max_of_finite (a := NInf) Hfin' (or_introl eq_refl)) as [[Hmax [Hnil' _]] | Hmax];
  unfold Math_min_of, Math_max_of.
  - rewrite Hmin, Hmax. exists 0%nat. intros [ | fuel] _; exists []; reflexivity.
  - rewrite Hnil in *. simpl. exists 0%nat. intros [ | fuel] _; exists []; reflexivity.
  - rewrite Hnil' in *. simpl. exists 0%nat. intros [ | fuel] _; exists []; reflexivity.
  - destruct (fold_left Math_min (map elevation demData) PInf) as [ | | | mn]; try discriminate.
    destruct (fold_left Math_max (map elevation demData) NInf) as [ | | | mx]; try discriminate.
    simpl Math_ceil. unfold of_Z.
    destruct (passes_enough (mx - inject_Z (Qceiling mn)) Hq) as [n Hn].
    exists n. intros fuel Hfuel.
    assert (Hmore : (mx - inject_Z (Qceiling mn) < inject_Z (Z.of_nat fuel) * q)%Q).
    { apply Qlt_le_trans with (inject_Z (Z.of_nat n) * q)%Q; [ exact Hn | ].
      apply Qmult_le_compat_r; [ | lra ]. rewrite <- Zle_Qle. lia. }
    pose proof (@contoursFrom_returns demData q mx fuel Hq _ Hmore) as H.
    destruct (DEMUtils.contoursFrom demData (Fin q) fuel (Fin mx) (Fin (inject_Z (Qceiling mn))))
      as [cs | ]; [ exists cs; reflexivity | congruence ].
Qed.

(** So the body is done within every number of passes from some number
    on, when the elevations of [demData] are finite. *)
Lemma autoDesignLayout_runs (M : MathLib) (rnd : Random) (now : num)
  (render : num -> string) (s : App.State) (k : nat) :
  Forall finiteElevation (App.demData s) ->
  exists fuel0, forall fuel, (fuel0 <= fuel)%nat ->
    exists result, App.autoDesignLayout M rnd now render fuel s k = Some result.
Proof.
  intros Hfin.
  destruct (@generateContours_runs (App.demData s) 1 ltac:(lra) Hfin) as [fuel0 Hruns].
  exists fuel0. intros fuel Hfuel. destruct (Hruns fuel Hfuel) as [cs Hcs].
  unfold App.autoDesignLayout.
  destruct (App.boundary s) as [b | ]; [ | eexists; reflexivity ].
  destruct (App.placeHouse rnd now s b k) as [[house marker'] k1].
  assert (Hsw : exists swales, App.placeSwales now render fuel s b = Some swales).
  { unfold App.placeSwales.
    destruct (negb (App.someOfType "SWALE" (App.elements s))); [ | eexists; reflexivity ].
    change (of_Z 1) with (Fin 1). rewrite Hcs. eexists; reflexivity. }
  destruct Hsw as [swales ->].
  match goal with |- context [App.placeWindbreak M rnd now s b ?d k1] =>
    destruct (App.placeWindbreak M rnd now s b d k1) as [windbreak k2] end.
  match goal with |- context [fold_left (App.placeZone M rnd now s b) ?areas ?acc] =>
    destruct (fold_left (App.placeZone M rnd now s b) areas acc) as [newElements k3] end.
  eexists. reflexivity.
Qed.

(** C2, as the code has it.  The callback closed over a state with a
    boundary, no water tank, finite elevations in its topography and in
    its elevation samples, and at least one of the 20 highest topography
    samples inside the boundary.  Then the timer body is done within every
    number of passes from some number on, and whatever state the component
    is in when the timer fires, the list the timer leaves holds exactly
    one water tank; it stands on an interior topography sample that no
    interior topography sample exceeds in elevation. *)
Theorem autoDesignLayout_water_tank :
  forall (M : MathLib) (rnd : Random) (now : num) (render : num -> string)
         (closed current : App.State) (k : nat) (b : Feature),
    App.boundary closed = Some b ->
    App.someOfType "WATER_TANK" (App.elements closed) = false ->
    Forall finiteElevation (App.topography closed) ->
    Forall finiteElevation (App.demData closed) ->
    existsb (interior b) (DEMUtils.findHighPoints (App.topography closed) 20) = true ->
    exists fuel0 h,
      In h (App.topography closed)
      /\ interior b h = true
      /\ (forall p, In p (App.topography closed) -> interior b p = true -> notUp h p)
      /\ forall fuel, (fuel0 <= fuel)%nat ->
           exists after alerts k',
             App.autoDesignLayoutTimer M rnd now render fuel closed current k
             = Some (after, alerts, k')
             /\ filter isWaterTank (App.elements after)
                = [App.pointElement "WATER_TANK" "Water Tank" (lat h, lng h) (now + of_Z 1)].
Proof.
  intros M rnd now render closed current k b Hb Hnone Hfin Hdem Hsome.
  destruct (placeWaterTank_highest_interior now closed b Hnone Hfin Hsome)
    as [h [Htank [Hin [Hint Hmax]]]].
  destruct (autoDesignLayout_runs M rnd now render closed k Hdem) as [fuel0 Hruns].
  exists fuel0, h. split; [ exact Hin | ]. split; [ exact Hint | ]. split; [ exact Hmax | ].
  intros fuel Hfuel. destruct (Hruns fuel Hfuel) as [[[computed alerts] k'] Hrun].
  destruct (@autoDesignLayout_pushes M rnd now render closed b fuel k computed alerts k' Hb Hrun)
    as [house [rest [Hel [Hhouse Hrest]]]].
  unfold App.autoDesignLayoutTimer. rewrite Hb, Hrun.
  eexists _, alerts, k'. split; [ reflexivity | ].
  match goal with
  | |- context [App.elements (App.setIsDesigning (App.setElements ?m ?els) false)] =>
      change (App.elements (App.setIsDesigning (App.setElements m els) false)) with els
  end.
  rewrite Hel, !filter_app, Htank.
  rewrite (someOfType_no_tank _ Hnone).
  rewrite (among_no_tank Hhouse) by (simpl; intuition discriminate).
  rewrite (among_no_tank Hrest) by (unfold kindsAfterTank; simpl; intuition discriminate).
  reflexivity.
Qed.

(** Over the meadow, with the herb spiral placed between the click and the
    timer: the tank stands on the interior sample at 7 m, not on the
    higher sample outside. *)
Lemma autoDesignLayout_water_tank_witness :
  exists fuel0 h,
    In h (App.topography meadowTool)
    /\ interior triangle h = true
    /\ (forall p, In p (App.topography meadowTool) -> interior triangle p = true -> notUp h p)
    /\ forall fuel, (fuel0 <= fuel)%nat ->
         exists after alerts k',
           App.autoDesignLayoutTimer coarseMath steadyDraws twoSecondsOn mute fuel
             meadowTool planted 0
           = Some (after, alerts, k')
           /\ filter isWaterTank (App.elements after)
              = [App.pointElement "WATER_TANK" "Water Tank" (lat h, lng h)
                   (twoSecondsOn + of_Z 1)].
Proof.
  apply (@autoDesignLayout_water_tank coarseMath steadyDraws twoSecondsOn mute
           meadowTool planted 0 triangle).
  - reflexivity.
  - reflexivity.
  - repeat constructor.
  - repeat constructor.
  - vm_compute. reflexivity.
Defined.

(** ** C10: what the terrain functions write *)

Section FrameFacts.
Import Store.
Local Open Scope mem_scope.

Variables na no : nat.

Lemma agree_refl (h : store) : agree na no h h.
Proof. repeat split; auto. Qed.

Lemma agree_trans (h1 h2 h3 : store) :
  agree na no h1 h2 -> agree na no h2 h3 -> agree na no h1 h3.
Proof.
  intros [A1 [O1 [LA1 LO1]]] [A2 [O2 [LA2 LO2]]].
  repeat split; try congruence; lia.
Qed.

Lemma frames_ret (A : Type) (x : A) (Q : A -> Prop) : Q x -> frames na no (ret x) Q.
Proof. intros HQ h _ _. split; [ apply agree_refl | exact HQ ]. Qed.

Lemma frames_bind (A B : Type) (m : Mem A) (k : A -> Mem B) (P : A -> Prop) (Q : B -> Prop) :
  frames na no m P -> (forall x, P x -> frames na no (k x) Q) -> frames na no (bind m k) Q.
Proof.
  intros Hm Hk h Ha Ho. unfold bind.
  destruct (Hm h Ha Ho) as [Hagree HP]. destruct (m h) as [x h1]. simpl in *.
  destruct Hagree as [A1 [O1 [LA1 LO1]]].
  destruct (Hk x HP h1 ltac:(lia) ltac:(lia)) as [Hagree' HQ].
  split; [ | exact HQ ].
  apply agree_trans with h1; [ repeat split; assumption | exact Hagree' ].
Qed.

Lemma frames_weaken (A : Type) (m : Mem A) (P Q : A -> Prop) :
  frames na no m P -> (forall x, P x -> Q x) -> frames na no m Q.
Proof.
  intros Hm HPQ h Ha Ho. destruct (Hm h Ha Ho) as [Hagree HP]. split; auto.
Qed.

Lemma firstn_app_le (A : Type) (n : nat) (l l' : list A) :
  (n <= List.length l)%nat -> firstn n (l ++ l') = firstn n l.
Proof.
  intros H. rewrite firstn_app. replace (n - List.length l)%nat with 0%nat by lia.
  simpl. apply app_nil_r.
Qed.

Lemma replace_length (A : Type) (n : nat) (x : A) (l : list A) :
  List.length (replace n x l) = List.length l.
Proof.
  revert n. induction l as [ | y l IH]; intros [ | n]; simpl; auto.
Qed.

Lemma firstn_replace (A : Type) (k n : nat) (x : A) (l : list A) :
  (k <= n)%nat -> firstn k (replace n x l) = firstn k l.
Proof.
  revert k n. induction l as [ | y l IH]; intros k n Hk.
  - destruct n; reflexivity.
  - destruct n as [ | n].
    + replace k with 0%nat by lia. reflexivity.
    + destruct k as [ | k]; [ reflexivity | ]. simpl. f_equal. apply IH. lia.
Qed.

Lemma frames_newArray (xs : list nat) : frames na no (newArray xs) (fresh na).
Proof.
  intros h Ha Ho. unfold newArray, agree, fresh. simpl.
  rewrite firstn_app_le by exact Ha. rewrite length_app. simpl.
  repeat split; auto; lia.
Qed.

Lemma frames_getArray (a : nat) : frames na no (getArray a) (fun _ => True).
Proof. intros h _ _. split; [ apply agree_refl | exact I ]. Qed.

Lemma frames_getObjects : frames na no getObjects (fun _ => True).
Proof. intros h _ _. split; [ apply agree_refl | exact I ]. Qed.

Lemma frames_setArray (a : nat) (xs : list nat) :
  fresh na a -> frames na no (setArray a xs) (fun _ => True).
Proof.
  intros Hfresh h Ha Ho. unfold setArray, agree. simpl.
  rewrite firstn_replace by exact Hfresh. rewrite replace_length.
  repeat split; auto.
Qed.

Lemma frames_newObject (o : Sample) : frames na no (newObject o) (fun _ => True).
Proof.
  intros h Ha Ho. unfold newObject, agree. simpl.
  rewrite firstn_app_le by exact Ho. rewrite length_app. simpl.
  repeat split; auto; lia.
Qed.

Lemma frames_spread (a : nat) : frames na no (spread a) (fresh na).
Proof.
  unfold spread. eapply frames_bind; [ apply frames_getArray | ].
  intros xs _. apply frames_newArray.
Qed.

Lemma frames_sortArray (cmp : Sample -> Sample -> num) (a : nat) :
  fresh na a -> frames na no (sortArray cmp a) (fresh na).
Proof.
  intros Hfresh. unfold sortArray.
  eapply frames_bind; [ apply frames_getArray | ]. intros xs _.
  eapply frames_bind; [ apply frames_getObjects | ]. intros os _.
  eapply frames_bind; [ now apply frames_setArray | ]. intros _ _.
  now apply frames_ret.
Qed.

Lemma frames_filterArray (keep : nat -> Sample -> bool) (a : nat) :
  frames na no (filterArray keep a) (fresh na).
Proof.
  unfold filterArray.
  eapply frames_bind; [ apply frames_getArray | ]. intros xs _.
  eapply frames_bind; [ apply frames_getObjects | ]. intros os _.
  apply frames_newArray.
Qed.

Lemma frames_slice (a count : nat) : frames na no (slice a count) (fresh na).
Proof.
  unfold slice. eapply frames_bind; [ apply frames_getArray | ].
  intros xs _. apply frames_newArray.
Qed.

Lemma frames_push (a x : nat) : fresh na a -> frames na no (push a x) (fun _ => True).
Proof.
  intros Hfresh. unfold push. eapply frames_bind; [ apply frames_getArray | ].
  intros xs _. now apply frames_setArray.
Qed.

Lemma frames_forEach (A S : Type) (xs : list A) (body : S -> A -> Mem S) :
  (forall s x, frames na no (body s x) (fun _ => True)) ->
  forall s, frames na no (forEach xs body s) (fun _ => True).
Proof.
  intros Hbody. induction xs as [ | x xs IH]; intros s; simpl.
  - now apply frames_ret.
  - eapply frames_bind; [ apply Hbody | ]. intros s' _. apply IH.
Qed.

Lemma frames_findHighPoints (topography count : nat) :
  frames na no (findHighPoints topography count) (fresh na).
Proof.
  unfold findHighPoints.
  eapply frames_bind; [ apply frames_spread | ]. intros copy Hcopy.
  eapply frames_bind; [ now apply frames_sortArray | ]. intros sorted _.
  apply frames_slice.
Qed.

Lemma frames_findLowPoints (topography count : nat) :
  frames na no (findLowPoints topography count) (fresh na).
Proof.
  unfold findLowPoints.
  eapply frames_bind; [ apply frames_spread | ]. intros copy Hcopy.
  eapply frames_bind; [ now apply frames_sortArray | ]. intros sorted _.
  apply frames_slice.
Qed.

Lemma frames_calculateTopography (M : MathLib) (demData : nat) :
  frames na no (calculateTopography M demData) (fresh na).
Proof.
  unfold calculateTopography.
  eapply frames_bind; [ apply frames_newArray | ]. intros topography Htopo.
  eapply frames_bind; [ apply frames_spread | ]. intros copy Hcopy.
  eapply frames_bind; [ now apply frames_sortArray | ]. intros sortedData _.
  eapply frames_bind; [ apply frames_getArray | ]. intros slots _.
  eapply frames_bind; [ | intros _ _; now apply frames_ret ].
  apply frames_forEach. intros _ point.
  eapply frames_bind; [ apply frames_getObjects | ]. intros os _.
  eapply frames_bind; [ apply frames_filterArray | ]. intros neighbors _.
  eapply frames_bind; [ apply frames_getArray | ]. intros ns _.
  apply frames_forEach. intros _ sample.
  eapply frames_bind; [ apply frames_newObject | ]. intros o _.
  now apply frames_push.
Qed.

Lemma frames_flowSteps (topography steps : nat) :
  forall currentPoint path processed,
    fresh na path ->
    frames na no (flowSteps topography steps currentPoint path processed) (fun _ => True).
Proof.
  induction steps as [ | steps IH]; intros cur path processed Hpath; simpl.
  - now apply frames_ret.
  - eapply frames_bind; [ apply frames_getObjects | ]. intros os _.
    eapply frames_bind; [ apply frames_filterArray | ]. intros neighbors _.
    eapply frames_bind; [ apply frames_getArray | ]. intros ns _.
    destruct ns as [ | first rest]; [ now apply frames_ret | ].
    eapply frames_bind; [ now apply frames_push | ]. intros _ _.
    now apply IH.
Qed.

Lemma frames_flowFrom (topography flowPaths : nat) (processed : list Pair) (startPoint : nat) :
  fresh na flowPaths ->
  frames na no (flowFrom topography flowPaths processed startPoint) (fun _ => True).
Proof.
  intros Hfp. unfold flowFrom.
  eapply frames_bind; [ apply frames_getObjects | ]. intros os _.
  destruct (DEMUtils.processedHas processed (deref os startPoint));
    [ now apply frames_ret | ].
  eapply frames_bind; [ apply frames_newArray | ]. intros path Hpath.
  eapply frames_bind; [ now apply frames_flowSteps | ]. intros processed' _.
  eapply frames_bind; [ apply frames_getArray | ]. intros pts _.
  eapply frames_bind; [ | intros _ _; now apply frames_ret ].
  destruct (3 <? List.length pts)%nat; [ now apply frames_push | now apply frames_ret ].
Qed.

Lemma frames_calculateWaterFlow (topography : nat) :
  frames na no (calculateWaterFlow topography) (fresh na).
Proof.
  unfold calculateWaterFlow.
  eapply frames_bind; [ apply frames_newArray | ]. intros flowPaths Hfp.
  eapply frames_bind; [ apply frames_findHighPoints | ]. intros highPoints _.
  eapply frames_bind; [ apply frames_getArray | ]. intros starts _.
  eapply frames_bind; [ | intros _ _; now apply frames_ret ].
  apply frames_forEach. intros processed startPoint. now apply frames_flowFrom.
Qed.

End FrameFacts.

Lemma nth_error_firstn_lt (A : Type) (l : list A) (k n : nat) :
  (n < k)%nat -> nth_error (firstn k l) n = nth_error l n.
Proof.
  revert k n. induction l as [ | x l IH]; intros k n Hn.
  - destruct k; reflexivity.
  - destruct k as [ | k]; [ lia | ]. destruct n as [ | n]; [ reflexivity | ].
    simpl. apply IH. lia.
Qed.

Lemma frames_unchanged (A : Type) (m : Store.Mem A) (Q : A -> Prop) (h : Store.store) :
  frames (List.length (Store.arrays h)) (List.length (Store.objects h)) m Q ->
  unchanged h (snd (m h)).
Proof.
  intros Hm. destruct (Hm h (le_n _) (le_n _)) as [[HA [HO _]] _].
  assert (Hnth : forall (B : Type) (l l' : list B) n,
             firstn (List.length l) l' = firstn (List.length l) l ->
             (n < List.length l)%nat -> nth_error l' n = nth_error l n).
  { intros B l l' n Hf Hn.
    rewrite <- (nth_error_firstn_lt l' Hn), Hf. now apply nth_error_firstn_lt. }
  split; intros n Hn; now apply Hnth.
Qed.

(** C10. Whatever the store and whatever array they are given, the four
    terrain functions leave every array and every sample record that was in
    the store as it was, the array they are given and its samples among
    them: all they overwrite is what they allocated themselves. *)
Theorem terrain_functions_keep_their_input :
  forall (M : MathLib) (h : Store.store) (input count : nat),
    unchanged h (snd (Store.calculateTopography M input h))
    /\ unchanged h (snd (Store.findHighPoints input count h))
    /\ unchanged h (snd (Store.findLowPoints input count h))
    /\ unchanged h (snd (Store.calculateWaterFlow input h)).
Proof.
  intros M h input count.
  split; [ | split; [ | split ] ]; eapply frames_unchanged.
  - apply frames_calculateTopography.
  - apply frames_findHighPoints.
  - apply frames_findLowPoints.
  - apply frames_calculateWaterFlow.
Qed.

(** The store does record a write: sorting the array one was given, with
    no copy, leaves it changed, while [findHighPoints] leaves it as it
    was. *)
Example sortArray_writes :
  nth_error (Store.arrays
               (snd (Store.sortArray (fun a b => elevation b - elevation a) 0 twoSamples))) 0
  = Some [1; 0]%nat
  /\ nth_error (Store.arrays (snd (Store.findHighPoints 0 5 twoSamples))) 0
     = Some [0; 1]%nat.
Proof. split; vm_compute; reflexivity. Qed.

(** *** The store functions compute what the value functions compute *)

Lemma insert_map (A B : Type) (f : A -> B) (cmp : B -> B -> num) (x : A) (l : list A) :
  map f (insert (fun a b => cmp (f a) (f b)) x l) = insert cmp (f x) (map f l).
Proof.
  induction l as [ | y l IH]; simpl; [ reflexivity | ].
  destruct (cmp (f x) (f y) >? of_Z 0); simpl; [ now rewrite IH | reflexivity ].
Qed.

Lemma sort_map (A B : Type) (f : A -> B) (cmp : B -> B -> num) (l : list A) :
  map f (sort (fun a b => cmp (f a) (f b)) l) = sort cmp (map f l).
Proof.
  induction l as [ | x l IH]; simpl; [ reflexivity | ].
  now rewrite insert_map, IH.
Qed.

Lemma nth_replace_same (A : Type) (n : nat) (x d : A) (l : list A) :
  (n < List.length l)%nat -> nth n (Store.replace n x l) d = x.
Proof.
  revert n. induction l as [ | y l IH]; intros [ | n] H; simpl in *; try lia; auto.
  apply IH. lia.
Qed.

Lemma sorted_slice_contents (cmp : Sample -> Sample -> num) (h : Store.store)
  (topography count : nat) :
  let run :=
    Store.bind (Store.spread topography)
      (fun copy => Store.bind (Store.sortArray cmp copy)
                     (fun sorted => Store.slice sorted count)) h in
  contents (snd run) (fst run) = firstn count (sort cmp (contents h topography)).
Proof.
  unfold contents, Store.bind, Store.spread, Store.sortArray, Store.slice,
    Store.getArray, Store.newArray, Store.setArray, Store.getObjects, Store.ret.
  simpl.
  set (xs := nth topography (Store.arrays h) []).
  set (A := Store.arrays h).
  assert (Hcopy : nth (List.length A) (A ++ [xs]) [] = xs).
  { rewrite app_nth2 by lia. now rewrite Nat.sub_diag. }
  rewrite !Hcopy.
  set (sorted := sort _ xs).
  assert (Hlen : List.length (Store.replace (List.length A) sorted (A ++ [xs]))
                 = S (List.length A)).
  { rewrite replace_length, length_app. simpl. lia. }
  rewrite Hlen.
  rewrite app_nth2 by lia. rewrite Hlen, Nat.sub_diag. simpl nth at 1.
  rewrite nth_replace_same by (rewrite length_app; simpl; lia).
  rewrite <- firstn_map. f_equal. apply sort_map.
Qed.

Lemma findHighPoints_refines (h : Store.store) (topography count : nat) :
  let run := Store.findHighPoints topography count h in
  contents (snd run) (fst run) = DEMUtils.findHighPoints (contents h topography) count.
Proof. apply sorted_slice_contents. Qed.

Lemma findLowPoints_refines (h : Store.store) (topography count : nat) :
  let run := Store.findLowPoints topography count h in
  contents (snd run) (fst run) = DEMUtils.findLowPoints (contents h topography) count.
Proof. apply sorted_slice_contents. Qed.

(** On the four samples of [cliff] and on the five of [ramp], the store
    functions return what the value functions return. *)
Example calculateTopography_agree :
  let run := Store.calculateTopography coarseMath 0 (inStore cliff) in
  contents (snd run) (fst run) = DEMUtils.calculateTopography coarseMath cliff.
Proof. vm_compute. reflexivity. Qed.

Example calculateWaterFlow_agree :
  let run := Store.calculateWaterFlow 0 (inStore ramp) in
  map (contents (snd run)) (nth (fst run) (Store.arrays (snd run)) [])
  = DEMUtils.calculateWaterFlow ramp.
Proof. vm_compute. reflexivity. Qed.

(** ** Ray casting over axis-parallel edges *)

Lemma gtb_Fin (x y : Q) : (Fin x >? Fin y) = true <-> (y < x)%Q.
Proof. unfold gtb. apply ltb_Fin. Qed.

Lemma ltb_Fin_false (x y : Q) : (Fin x <? Fin y) = false <-> (y <= x)%Q.
Proof.
  split; intros H.
  - destruct (Qlt_le_dec x y) as [L | L]; [ | exact L ].
    apply ltb_Fin in L. congruence.
  - destruct (Fin x <? Fin y) eqn:E; [ | reflexivity ].
    apply ltb_Fin in E. lra.
Qed.

Lemma ltb_Fin_ext (x y x' y' : Q) :
  (x == x')%Q -> (y == y')%Q -> (Fin x <? Fin y) = (Fin x' <? Fin y').
Proof.
  intros Hx Hy.
  destruct (Fin x' <? Fin y') eqn:E.
  - apply ltb_Fin in E. apply ltb_Fin. lra.
  - apply ltb_Fin_false in E. apply ltb_Fin_false. lra.
Qed.

(** An edge between two vertices of one latitude is never crossed. *)
Lemma crosses_level (x y xi xj yy : num) :
  crosses x y (xi, yy) (xj, yy) = false.
Proof.
  unfold crosses. rewrite Bool.eqb_reflx. reflexivity.
Qed.

(** An edge between two vertices of one longitude [a] is crossed by the
    ray from a point left of [a] whose latitude is between the two. *)
Lemma crosses_upright (x y a yi yj : Q) :
  ~ (yj - yi + (1 # 4503599627370496) == 0)%Q ->
  crosses (Fin x) (Fin y) (Fin a, Fin yi) (Fin a, Fin yj)
  = negb (Bool.eqb (Fin yi >? Fin y) (Fin yj >? Fin y)) && (Fin x <? Fin a).
Proof.
  intros Hd. unfold crosses. f_equal.
  unfold Number_EPSILON. cbn [sub add opp mul div].
  unfold Qis_zero.
  destruct (Qeq_bool (yj + - yi + (1 # 4503599627370496)) 0) eqn:E.
  - apply Qeq_bool_iff in E. exfalso. apply Hd. rewrite <- E. ring.
  - cbn [add]. apply ltb_Fin_ext; [ reflexivity | ].
    field. intros H. apply Hd. rewrite <- H. ring.
Qed.

Lemma rectangleRing_crossings (a c b d x y : Q) :
  ~ (b - d + epsilonQ == 0)%Q -> ~ (d - b + epsilonQ == 0)%Q ->
  pointInPolygon (Fin x, Fin y) (rectangleRing a c b d)
  = xorb (negb (Bool.eqb (Fin d >? Fin y) (Fin b >? Fin y)) && (Fin x <? Fin c))
         (negb (Bool.eqb (Fin b >? Fin y) (Fin d >? Fin y)) && (Fin x <? Fin a)).
Proof.
  intros H1 H2. unfold pointInPolygon, rectangleRing.
  cbn [last pointInPolygon_from].
  rewrite !crosses_level.
  rewrite (@crosses_upright x y c d b H1), (@crosses_upright x y a b d H2).
  destruct (negb (Bool.eqb (Fin d >? Fin y) (Fin b >? Fin y)) && (Fin x <? Fin c));
    destruct (negb (Bool.eqb (Fin b >? Fin y) (Fin d >? Fin y)) && (Fin x <? Fin a));
    reflexivity.
Qed.

Lemma between_spec (b d y : Q) :
  negb (Bool.eqb (Fin b >? Fin y) (Fin d >? Fin y)) = true
  <-> (Qmin b d <= y < Qmax b d)%Q.
Proof.
  destruct (Fin b >? Fin y) eqn:Eb, (Fin d >? Fin y) eqn:Ed; simpl.
  - apply gtb_Fin in Eb, Ed. split; [ discriminate | ].
    intros [H _]. exfalso. destruct (Q.min_dec b d) as [E | E]; rewrite E in H; lra.
  - apply gtb_Fin in Eb. apply ltb_Fin_false in Ed. split; [ intros _ | reflexivity ].
    rewrite Q.min_r, Q.max_l by lra. lra.
  - apply gtb_Fin in Ed. apply ltb_Fin_false in Eb. split; [ intros _ | reflexivity ].
    rewrite Q.min_l, Q.max_r by lra. lra.
  - apply ltb_Fin_false in Eb, Ed. split; [ discriminate | ].
    intros [_ H]. exfalso. destruct (Q.max_dec b d) as [E | E]; rewrite E in H; lra.
Qed.

Lemma rectangleRing_inside (a c b d x y : Q) :
  (a <= c)%Q -> ~ (b - d + epsilonQ == 0)%Q -> ~ (d - b + epsilonQ == 0)%Q ->
  pointInPolygon (Fin x, Fin y) (rectangleRing a c b d) = true
  <-> (a <= x < c)%Q /\ (Qmin b d <= y < Qmax b d)%Q.
Proof.
  intros Hac H1 H2. rewrite rectangleRing_crossings by assumption.
  pose proof (between_spec b d y) as Hb.
  pose proof (between_spec d b y) as Hd.
  rewrite Q.min_comm, Q.max_comm in Hd.
  destruct (negb (Bool.eqb (Fin d >? Fin y) (Fin b >? Fin y))) eqn:Ed;
    destruct (negb (Bool.eqb (Fin b >? Fin y) (Fin d >? Fin y))) eqn:Eb.
  - destruct (Fin x <? Fin c) eqn:Ec, (Fin x <? Fin a) eqn:Ea; simpl;
      try apply ltb_Fin in Ec; try apply ltb_Fin in Ea;
      try apply ltb_Fin_false in Ec; try apply ltb_Fin_false in Ea;
      (split; [ try discriminate; intros _ | try reflexivity; intros [[? ?] _]; exfalso; lra ]).
    + split; [ lra | now apply Hb ].
    + lra.
  - exfalso. destruct Hd as [Hd _]. specialize (Hd eq_refl).
    destruct Hb as [_ Hb]. specialize (Hb Hd). discriminate.
  - exfalso. destruct Hb as [Hb _]. specialize (Hb eq_refl).
    destruct Hd as [_ Hd]. specialize (Hd Hb). discriminate.
  - simpl. split; [ discriminate | ]. intros [_ H]. apply Hb in H. discriminate.
Qed.

(** ** The mock layers *)

Lemma rectangleRing_outside (a c b d x y : Q) :
  (a <= c)%Q -> ~ (b - d + epsilonQ == 0)%Q -> ~ (d - b + epsilonQ == 0)%Q ->
  ~ ((a <= x < c)%Q /\ (Qmin b d <= y < Qmax b d)%Q) ->
  pointInPolygon (Fin x, Fin y) (rectangleRing a c b d) = false.
Proof.
  intros Hac H1 H2 Hout.
  destruct (pointInPolygon (Fin x, Fin y) (rectangleRing a c b d)) eqn:E; [ | reflexivity ].
  exfalso. apply Hout. now apply rectangleRing_inside.
Qed.

(** [sampleSoilAt] over the mock soil layer.  A position in the half-open
    box of the lateritic zone (longitude from 75.9 up to, not including,
    76.4; latitude from 9.5 up to, not including, 11.05) samples
    "lateritic-loam"; one in the half-open box of the alluvial zone
    (latitude from 8.25 up to 9.5) samples "alluvial"; one outside the box
    of the two zones samples the default "mixed-loam".  The north and the
    east side of a zone are outside it, and the side the two zones share
    belongs to the northern one. *)
Theorem sampleSoilAt_zones (x y : Q) :
  (inBox 75.9 76.4 9.5 11.05 x y -> sampleSoilAt (Fin x) (Fin y) = "lateritic-loam")
  /\ (inBox 75.9 76.4 8.25 9.5 x y -> sampleSoilAt (Fin x) (Fin y) = "alluvial")
  /\ (~ inBox 75.9 76.4 8.25 11.05 x y -> sampleSoilAt (Fin x) (Fin y) = "mixed-loam").
Proof.
  assert (E1 : ~ ((221 # 20) - (19 # 2) + epsilonQ == 0)%Q) by (unfold epsilonQ; lra).
  assert (E2 : ~ ((19 # 2) - (221 # 20) + epsilonQ == 0)%Q) by (unfold epsilonQ; lra).
  assert (E3 : ~ ((19 # 2) - (33 # 4) + epsilonQ == 0)%Q) by (unfold epsilonQ; lra).
  assert (E4 : ~ ((33 # 4) - (19 # 2) + epsilonQ == 0)%Q) by (unfold epsilonQ; lra).
  assert (W : ((759 # 10) <= (382 # 5))%Q) by lra.
  pose proof (@rectangleRing_inside (759 # 10) (382 # 5) (221 # 20) (19 # 2) x y W E1 E2) as L.
  pose proof (@rectangleRing_inside (759 # 10) (382 # 5) (19 # 2) (33 # 4) x y W E3 E4) as A.
  rewrite Q.min_r, Q.max_l in L by lra.
  rewrite Q.min_r, Q.max_l in A by lra.
  unfold sampleSoilAt, inBox, soilPolygons.
  cbn [find outer properties Soil.soil].
  change [ (dec 759 1, dec 1105 2); (dec 764 1, dec 1105 2); (dec 764 1, dec 95 1);
           (dec 759 1, dec 95 1); (dec 759 1, dec 1105 2) ]
    with (rectangleRing (759 # 10) (382 # 5) (221 # 20) (19 # 2)).
  change [ (dec 759 1, dec 95 1); (dec 764 1, dec 95 1); (dec 764 1, dec 825 2);
           (dec 759 1, dec 825 2); (dec 759 1, dec 95 1) ]
    with (rectangleRing (759 # 10) (382 # 5) (19 # 2) (33 # 4)).
  destruct (pointInPolygon (Fin x, Fin y) (rectangleRing (759 # 10) (382 # 5) (221 # 20) (19 # 2))) eqn:PL;
    [ | destruct (pointInPolygon (Fin x, Fin y) (rectangleRing (759 # 10) (382 # 5) (19 # 2) (33 # 4))) eqn:PA ].
  - destruct L as [L _]. specialize (L eq_refl).
    split; [ reflexivity | split ]; [ intros; exfalso; lra | intros H; exfalso; apply H; lra ].
  - destruct A as [A _]. specialize (A eq_refl).
    split; [ intros; exfalso; lra | split ]; [ reflexivity | intros H; exfalso; apply H; lra ].
  - split; [ intros H | split; [ intros H | reflexivity ] ]; exfalso.
    + assert (F : false = true) by (apply L; lra). discriminate F.
    + assert (F : false = true) by (apply A; lra). discriminate F.
Qed.

(** [sampleWatershedAt] returns the properties of watershed "ws-1" for the
    positions of the half-open box from longitude 75.7 to 76.7 and from
    latitude 9 to 11, and [null] for every other position. *)
Theorem sampleWatershedAt_box (x y : Q) :
  (inBox 75.7 76.7 9 11 x y ->
   option_map Watershed.id (sampleWatershedAt (Fin x) (Fin y)) = Some "ws-1")
  /\ (~ inBox 75.7 76.7 9 11 x y -> sampleWatershedAt (Fin x) (Fin y) = None).
Proof.
  assert (E1 : ~ (11 - 9 + epsilonQ == 0)%Q) by (unfold epsilonQ; lra).
  assert (E2 : ~ (9 - 11 + epsilonQ == 0)%Q) by (unfold epsilonQ; lra).
  assert (W : ((757 # 10) <= (767 # 10))%Q) by lra.
  pose proof (@rectangleRing_inside (757 # 10) (767 # 10) 11 9 x y W E1 E2) as L.
  rewrite Q.min_r, Q.max_l in L by lra.
  unfold sampleWatershedAt, inBox, watershedPolygons.
  cbn [find outer properties].
  change [ (dec 757 1, of_Z 11); (dec 767 1, of_Z 11); (dec 767 1, of_Z 9);
           (dec 757 1, of_Z 9); (dec 757 1, of_Z 11) ]
    with (rectangleRing (757 # 10) (767 # 10) 11 9).
  destruct (pointInPolygon (Fin x, Fin y) (rectangleRing (757 # 10) (767 # 10) 11 9)) eqn:P.
  - destruct L as [L _]. specialize (L eq_refl).
    split; [ reflexivity | intros H; exfalso; apply H; lra ].
  - split; [ intros H; exfalso | reflexivity ].
    assert (F : false = true) by (apply L; lra). discriminate F.
Qed.

(** ** Flood risk *)

(** The square [generateFloodRiskMap] draws holds the site it is drawn
    for: the ray-casting test accepts the site against the ring of the
    feature, whatever the slope and the rainfall. *)
Theorem generateFloodRiskMap_holds_site (lat lng : Q) (slope rainfall : num) :
  pointInPolygon (Fin lng, Fin lat)
    (FloodRisk.coordinates (generateFloodRiskMap (Fin lat) (Fin lng) slope rainfall)) = true.
Proof.
  unfold generateFloodRiskMap. cbn [FloodRisk.coordinates].
  change (dec 5 2) with (Fin (1 # 20)). cbn [add sub opp].
  change [ (Fin (lng + - (1 # 20)), Fin (lat + - (1 # 20)));
           (Fin (lng + (1 # 20)), Fin (lat + - (1 # 20)));
           (Fin (lng + (1 # 20)), Fin (lat + (1 # 20)));
           (Fin (lng + - (1 # 20)), Fin (lat + (1 # 20)));
           (Fin (lng + - (1 # 20)), Fin (lat + - (1 # 20))) ]
    with (rectangleRing (lng + - (1 # 20)) (lng + (1 # 20)) (lat + - (1 # 20)) (lat + (1 # 20))).
  apply rectangleRing_inside.
  - lra.
  - unfold epsilonQ. lra.
  - unfold epsilonQ. lra.
  - rewrite Q.min_l, Q.max_r by lra. lra.
Qed.

Lemma leb_ltb_trans (a b c : num) :
  (a <=? b) = true -> (b <? c) = true -> (a <? c) = true.
Proof.
  destruct a as [ | | | x], b as [ | | | y], c as [ | | | z];
    try discriminate; try reflexivity.
  intros H1 H2. apply leb_Fin in H1. apply ltb_Fin in H2. apply ltb_Fin. lra.
Qed.

Lemma ltb_leb_trans (a b c : num) :
  (a <? b) = true -> (b <=? c) = true -> (a <? c) = true.
Proof.
  destruct a as [ | | | x], b as [ | | | y], c as [ | | | z];
    try discriminate; try reflexivity.
  intros H1 H2. apply ltb_Fin in H1. apply leb_Fin in H2. apply ltb_Fin. lra.
Qed.

(** The risk level of [generateFloodRiskMap] is monotone: a slope that is
    no steeper together with a rainfall that is no less never gives a
    lower level, and the position plays no part in it. *)
Theorem generateFloodRiskMap_monotone (lat lng lat' lng' slope slope' rainfall rainfall' : num) :
  (slope' <=? slope) = true -> (rainfall <=? rainfall') = true ->
  (riskRank (FloodRisk.risk (generateFloodRiskMap lat lng slope rainfall))
   <= riskRank (FloodRisk.risk (generateFloodRiskMap lat' lng' slope' rainfall')))%nat.
Proof.
  intros Hs Hr. unfold generateFloodRiskMap. cbn [FloodRisk.risk].
  assert (S5 : (slope <? of_Z 5) = true -> (slope' <? of_Z 5) = true)
    by (intros H; exact (leb_ltb_trans _ _ _ Hs H)).
  assert (S10 : (slope <? of_Z 10) = true -> (slope' <? of_Z 10) = true)
    by (intros H; exact (leb_ltb_trans _ _ _ Hs H)).
  assert (R22 : (rainfall >? of_Z 2200) = true -> (rainfall' >? of_Z 2200) = true)
    by (unfold gtb; intros H; exact (ltb_leb_trans _ _ _ H Hr)).
  assert (R18 : (rainfall >? of_Z 1800) = true -> (rainfall' >? of_Z 1800) = true)
    by (unfold gtb; intros H; exact (ltb_leb_trans _ _ _ H Hr)).
  destruct (slope <? of_Z 5) eqn:A; destruct (rainfall >? of_Z 2200) eqn:B;
    destruct (slope <? of_Z 10) eqn:C; destruct (rainfall >? of_Z 1800) eqn:D;
    try rewrite (S5 eq_refl); try rewrite (S10 eq_refl);
    try rewrite (R22 eq_refl); try rewrite (R18 eq_refl);
    cbn [andb];
    repeat match goal with
           | |- context [if ?c then _ else _] => destruct c
           end;
    cbv; lia.
Qed.

Lemma generateFloodRiskMap_monotone_witness :
  (riskRank (FloodRisk.risk (generateFloodRiskMap (of_Z 10) (of_Z 76) (of_Z 8) (of_Z 2000)))
   <= riskRank (FloodRisk.risk (generateFloodRiskMap (of_Z 10) (of_Z 76) (of_Z 3) (of_Z 2500))))%nat.
Proof.
  apply generateFloodRiskMap_monotone; reflexivity.
Defined.

(** ** The size of the boundary *)

(** Both dimensions [getBoundaryApproximateSize] returns are greater than
    0, whatever the boundary: none, a feature that is no polygon, a ring
    of fewer than 3 positions, a ring on one meridian or one parallel,
    positions that are not finite. *)
Theorem getBoundaryApproximateSize_positive (boundaryGeoJson : option Feature) :
  (width (getBoundaryApproximateSize boundaryGeoJson) >? of_Z 0) = true
  /\ (height (getBoundaryApproximateSize boundaryGeoJson) >? of_Z 0) = true.
Proof.
  unfold getBoundaryApproximateSize.
  destruct boundaryGeoJson as [f | ]; [ | split; reflexivity ].
  destruct (geometry f) as [g | ]; [ | split; reflexivity ].
  destruct (negb (String.eqb (ftype f) "Feature") || negb (String.eqb (gtype g) "Polygon"));
    [ split; reflexivity | ].
  destruct (List.length (ring g) <? 3)%nat; [ split; reflexivity | ].
  cbn [width height]. split.
  - destruct (maxLng (boundingBox (ring g)) - minLng (boundingBox (ring g)) >? of_Z 0) eqn:E;
      [ exact E | reflexivity ].
  - destruct (maxLat (boundingBox (ring g)) - minLat (boundingBox (ring g)) >? of_Z 0) eqn:E;
      [ exact E | reflexivity ].
Qed.

(** ** The monsoon advisory *)

Lemma eqb_refl_not_nan (v : num) : is_nan v = false -> (v ==? v) = true.
Proof.
  destruct v as [ | | | q]; try discriminate; try reflexivity.
  intros _. unfold eqb; simpl. now rewrite (proj1 (Qeq_alt q q) (Qeq_refl q)).
Qed.

Lemma ltb_not_eqb (a b : num) : (a <? b) = true -> (a ==? b) = false.
Proof.
  unfold ltb, eqb. destruct (compare a b) as [[ | | ] | ]; congruence.
Qed.

Lemma ltb_not_nan_r (a b : num) : (a <? b) = true -> is_nan b = false.
Proof. destruct a, b; try discriminate; reflexivity. Qed.

Lemma indexOf_from_nan (xs : list num) (i : Z) : indexOf_from xs NaN i = (-1)%Z.
Proof.
  revert i. induction xs as [ | x xs IH]; intros i; simpl; [ reflexivity | ].
  replace (x ==? NaN) with false by (destruct x; reflexivity). apply IH.
Qed.

Lemma indexOf_from_peak (pre post : list num) (peak : num) (i : Z) :
  is_nan peak = false ->
  Forall (fun v => (v <? peak) = true) pre ->
  indexOf_from (pre ++ peak :: post) peak i = (i + Z.of_nat (List.length pre))%Z.
Proof.
  intros Hp Hpre. revert i. induction Hpre as [ | x pre Hx _ IH]; intros i; simpl.
  - rewrite (eqb_refl_not_nan _ Hp). lia.
  - rewrite (ltb_not_eqb _ _ Hx), IH. lia.
Qed.

Lemma Math_max_ltb (acc peak : num) : (acc <? peak) = true -> Math_max acc peak = peak.
Proof.
  unfold ltb, Math_max. destruct (compare acc peak) as [[ | | ] | ]; congruence.
Qed.

Lemma Math_max_gtb (peak v : num) : (v <? peak) = true -> Math_max peak v = peak.
Proof.
  destruct peak as [ | | | p], v as [ | | | q]; try discriminate; try reflexivity.
  intros H. apply ltb_Fin in H. unfold Math_max; simpl.
  destruct (p ?= q)%Q eqn:E; try reflexivity.
  apply Qlt_alt in E. lra.
Qed.

Lemma Math_max_under (acc v peak : num) :
  (acc <? peak) = true -> (v <? peak) = true -> (Math_max acc v <? peak) = true.
Proof.
  intros Ha Hv. unfold Math_max.
  destruct (compare acc v) as [[ | | ] | ] eqn:E; try assumption.
  destruct acc, v; try discriminate.
Qed.

Lemma fold_Math_max_under (pre : list num) (acc peak : num) :
  (acc <? peak) = true -> Forall (fun v => (v <? peak) = true) pre ->
  (fold_left Math_max pre acc <? peak) = true.
Proof.
  intros Ha Hpre. revert acc Ha.
  induction Hpre as [ | x pre Hx _ IH]; intros acc Ha; simpl; [ exact Ha | ].
  apply IH. now apply Math_max_under.
Qed.

Lemma fold_Math_max_peak (post : list num) (peak : num) :
  Forall (fun v => (v <? peak) = true) post -> fold_left Math_max post peak = peak.
Proof.
  induction 1 as [ | x post Hx _ IH]; simpl; [ reflexivity | ].
  now rewrite (Math_max_gtb _ _ Hx).
Qed.

(** The maximum of a series with one strict peak is the peak, and
    [indexOf] finds it where it is. *)
Lemma indexOf_peak (pre post : list num) (peak : num) :
  pre ++ post <> [] ->
  Forall (fun v => (v <? peak) = true) pre ->
  Forall (fun v => (v <? peak) = true) post ->
  indexOf (pre ++ peak :: post) (Math_max_of (pre ++ peak :: post))
  = Z.of_nat (List.length pre).
Proof.
  intros Hne Hpre Hpost.
  assert (Hp : is_nan peak = false).
  { destruct pre as [ | x pre].
    - destruct post as [ | x post]; [ exfalso; apply Hne; reflexivity | ].
      inversion Hpost; subst. eapply ltb_not_nan_r; eassumption.
    - inversion Hpre; subst. eapply ltb_not_nan_r; eassumption. }
  assert (Hmax : Math_max_of (pre ++ peak :: post) = peak).
  { unfold Math_max_of. rewrite fold_left_app. cbn [fold_left].
    assert (Hacc : Math_max (fold_left Math_max pre NInf) peak = peak).
    { destruct pre as [ | x pre]; cbn [fold_left].
      - destruct peak; try discriminate; reflexivity.
      - apply Math_max_ltb. inversion Hpre; subst.
        apply fold_Math_max_under; [ | assumption ].
        destruct x; try discriminate H1; exact H1. }
    rewrite Hacc. now apply fold_Math_max_peak. }
  rewrite Hmax. unfold indexOf. now rewrite indexOf_from_peak.
Qed.

Lemma getMonsoonAdvisory_status (series : list num) :
  series <> [] ->
  option_map status (getMonsoonAdvisory (Some series))
  = Some (if existsb (Z.eqb (indexOf series (Math_max_of series))) [6; 7; 8; 9]%Z
          then "active" else "dormant").
Proof.
  destruct series as [ | x rest]; [ congruence | reflexivity ].
Qed.

Lemma monsoonMonths_spec (n : nat) :
  existsb (Z.eqb (Z.of_nat n)) [6; 7; 8; 9]%Z = (6 <=? n)%nat && (n <=? 9)%nat.
Proof.
  destruct (Nat.le_gt_cases n 10) as [H | H].
  - do 11 (destruct n as [ | n]; [ reflexivity | ]). lia.
  - replace (6 <=? n)%nat with true by (symmetry; apply Nat.leb_le; lia).
    replace (n <=? 9)%nat with false by (symmetry; apply Nat.leb_gt; lia).
    cbn [existsb andb].
    repeat (apply Bool.orb_false_iff; split); try reflexivity; apply Z.eqb_neq; lia.
Qed.

(** The position of the peak decides the advisory: for a series with one
    value strictly above all the others, the status is "active" exactly
    when the peak is at index 6, 7, 8 or 9, counted from 0 as [indexOf]
    counts (July to October of a series that starts in January). *)
Theorem getMonsoonAdvisory_peak (pre post : list num) (peak : num) :
  Forall (fun v => (v <? peak) = true) pre ->
  Forall (fun v => (v <? peak) = true) post ->
  option_map status (getMonsoonAdvisory (Some (pre ++ peak :: post)))
  = Some (if (6 <=? List.length pre)%nat && (List.length pre <=? 9)%nat
          then "active" else "dormant").
Proof.
  intros Hpre Hpost.
  rewrite getMonsoonAdvisory_status by (destruct pre; discriminate).
  destruct (list_eq_dec (fun a b : nat => Nat.eq_dec a b) (map (fun _ => O) (pre ++ post)) [])
    as [Hnil | Hne].
  - (* a series of one month *)
    destruct pre; [ | discriminate ]. destruct post; [ | discriminate ].
    cbn [app List.length Nat.leb andb].
    unfold indexOf, Math_max_of. cbn [fold_left indexOf_from].
    destruct peak as [ | | | q]; try reflexivity.
    replace (Math_max NInf (Fin q)) with (Fin q) by reflexivity.
    now rewrite (eqb_refl_not_nan (Fin q) eq_refl).
  - rewrite indexOf_peak; [ | | assumption | assumption ].
    + now rewrite monsoonMonths_spec.
    + intros E. apply Hne. now rewrite E.
Qed.

Lemma getMonsoonAdvisory_peak_witness :
  option_map status
    (getMonsoonAdvisory
       (Some ([of_Z 20; of_Z 30; of_Z 60; of_Z 110; of_Z 250] ++ of_Z 700 ::
              [of_Z 650; of_Z 400; of_Z 250; of_Z 300; of_Z 150; of_Z 40])))
  = Some "dormant".
Proof.
  apply (@getMonsoonAdvisory_peak
           [of_Z 20; of_Z 30; of_Z 60; of_Z 110; of_Z 250]
           [of_Z 650; of_Z 400; of_Z 250; of_Z 300; of_Z 150; of_Z 40] (of_Z 700));
    repeat constructor.
Defined.

Lemma fold_Math_max_repeat (v : num) (n : nat) :
  fold_left Math_max (repeat v n) v = v.
Proof.
  induction n as [ | n IH]; simpl; [ reflexivity | ].
  replace (Math_max v v) with v; [ exact IH | ].
  destruct v as [ | | | q]; try reflexivity.
  unfold Math_max; simpl. destruct (q ?= q)%Q; reflexivity.
Qed.

Lemma getMonsoonAdvisory_level (v : num) (n : nat) :
  option_map status (getMonsoonAdvisory (Some (repeat v (S n)))) = Some "dormant".
Proof.
  rewrite getMonsoonAdvisory_status by discriminate.
  unfold Math_max_of. cbn [repeat fold_left].
  replace (Math_max NInf v) with v by (destruct v; reflexivity).
  rewrite fold_Math_max_repeat.
  destruct (is_nan v) eqn:E.
  - destruct v; try discriminate. unfold indexOf. now rewrite indexOf_from_nan.
  - unfold indexOf. cbn [indexOf_from]. now rewrite (eqb_refl_not_nan v E).
Qed.

(** After a failed climate request the advisory is "dormant", wherever
    the site is: the fallback series is one value twelve times, whose
    first maximum is at index 0 (a NaN is found at no index). *)
Theorem getMonsoonAdvisory_fallback (lat lng : num) :
  option_map status (getMonsoonAdvisory (Some (monthlyRainfall (fallbackClimate lat lng))))
  = Some "dormant".
Proof.
  unfold fallbackClimate. cbn [monthlyRainfall].
  apply (getMonsoonAdvisory_level _ 11).
Qed.

(** ** The closest point of a segment *)

Lemma eqb_Fin (x y : Q) : (Fin x ==? Fin y) = true <-> (x == y)%Q.
Proof.
  unfold eqb; simpl. rewrite Qeq_alt. destruct (x ?= y)%Q; split; congruence.
Qed.

Lemma eqb_Fin_false (x y : Q) : (Fin x ==? Fin y) = false <-> ~ (x == y)%Q.
Proof.
  rewrite <- eqb_Fin. destruct (Fin x ==? Fin y); split; congruence.
Qed.

Lemma Qsquare_nonneg (x : Q) : (0 <= x * x)%Q.
Proof.
  destruct (Qlt_le_dec x 0) as [H | H].
  - setoid_replace (x * x)%Q with ((- x) * (- x))%Q by ring.
    apply Qmult_le_0_compat; lra.
  - apply Qmult_le_0_compat; lra.
Qed.

(** [findClosestPointOnSegment], on finite arguments, returns a point of
    the segment from [(x1, y1)] to [(x2, y2)], at a parameter between 0
    and 1, and no point of the segment is closer to [(px, py)]. *)
Theorem findClosestPointOnSegment_nearest (px py x1 y1 x2 y2 : Q) :
  exists xx yy t,
    BoundaryUtils.findClosestPointOnSegment (Fin px) (Fin py) (Fin x1) (Fin y1) (Fin x2) (Fin y2)
    = (Fin xx, Fin yy)
    /\ (0 <= t <= 1)%Q
    /\ (xx == fst (along x1 y1 x2 y2 t))%Q /\ (yy == snd (along x1 y1 x2 y2 t))%Q
    /\ forall s, (0 <= s <= 1)%Q ->
         (distSq (px, py) (xx, yy) <= distSq (px, py) (along x1 y1 x2 y2 s))%Q.
Proof.
  unfold BoundaryUtils.findClosestPointOnSegment, along, distSq.
  cbn [sub add opp mul fst snd].
  set (A := (px + - x1)%Q). set (B := (py + - y1)%Q).
  set (C := (x2 + - x1)%Q). set (D := (y2 + - y1)%Q).
  set (dot := (A * C + B * D)%Q). set (L := (C * C + D * D)%Q).
  assert (HL : (0 <= L)%Q) by (unfold L; nra).
  destruct (Fin L ==? of_Z 0) eqn:EL; cbn [negb].
  - (* a segment of no length *)
    apply eqb_Fin in EL. change (inject_Z 0) with 0%Q in EL.
    assert (HCC : (C * C == 0)%Q) by (unfold L in EL; nra).
    assert (HDD : (D * D == 0)%Q) by (unfold L in EL; nra).
    assert (HC : (C == 0)%Q) by (destruct (Qmult_integral _ _ HCC); assumption).
    assert (HD : (D == 0)%Q) by (destruct (Qmult_integral _ _ HDD); assumption).
    exists x1, y1, 0%Q. split; [ reflexivity | ].
    split; [ lra | ]. split; [ ring | ]. split; [ ring | ].
    intros s _. unfold C in HC. unfold D in HD.
    assert (E1 : (x1 + s * (x2 - x1) == x1)%Q) by nra.
    assert (E2 : (y1 + s * (y2 - y1) == y1)%Q) by nra.
    rewrite E1, E2. lra.
  - apply eqb_Fin_false in EL.
    assert (HL0 : (0 < L)%Q) by (change (inject_Z 0) with 0%Q in EL; lra).
    cbn [div]. unfold Qis_zero.
    destruct (Qeq_bool L 0) eqn:EQ; [ apply Qeq_bool_iff in EQ; lra | ].
    set (p := (dot / L)%Q).
    assert (Hp : (p * L == dot)%Q) by (unfold p; field; lra).
    clearbody p.
    destruct (Fin p <? of_Z 0) eqn:E0.
    + apply ltb_Fin in E0. change (inject_Z 0) with 0%Q in E0.
      exists x1, y1, 0%Q. split; [ reflexivity | ].
      split; [ lra | ]. split; [ ring | ]. split; [ ring | ].
      intros s [Hs0 Hs1].
      assert (Hd : (dot <= 0)%Q) by nra.
      assert (H1 : (0 <= s * - dot)%Q) by nra.
      assert (H2 : (0 <= s * s * L)%Q) by nra.
      unfold dot, L, A, B, C, D in *. nra.
    + apply ltb_Fin_false in E0. change (inject_Z 0) with 0%Q in E0.
      destruct (Fin p >? of_Z 1) eqn:E1.
      * apply gtb_Fin in E1. change (inject_Z 1) with 1%Q in E1.
        exists x2, y2, 1%Q. split; [ reflexivity | ].
        split; [ lra | ]. split; [ ring | ]. split; [ ring | ].
        intros s [Hs0 Hs1].
        assert (Hd : (L <= dot)%Q) by nra.
        assert (H0 : (0 <= L * (1 - s))%Q) by (apply Qmult_le_0_compat; lra).
        assert (H1 : (0 <= (1 - s) * (2 * dot - L * (1 + s)))%Q)
          by (apply Qmult_le_0_compat; [ lra | nra ]).
        unfold dot, L, A, B, C, D in *. nra.
      * unfold gtb in E1. apply ltb_Fin_false in E1. change (inject_Z 1) with 1%Q in E1.
        exists (x1 + p * C)%Q, (y1 + p * D)%Q, p. split; [ reflexivity | ].
        split; [ lra | ]. split; [ unfold C; ring | ]. split; [ unfold D; ring | ].
        intros s _.
        assert (H1 : (0 <= (s - p) * (s - p) * L)%Q)
          by (apply Qmult_le_0_compat; [ apply Qsquare_nonneg | lra ]).
        assert (H2 : (s * dot == s * p * L)%Q) by (rewrite <- Hp; ring).
        assert (H3 : (p * dot == p * p * L)%Q) by (rewrite <- Hp; ring).
        unfold dot, L, A, B, C, D in *. nra.
Qed.

(** ** Carbon *)

Section CarbonFacts.
Import CarbonCalculator.

Lemma countOr1_idem (plant : Plant) :
  or_else (countOr1 plant) (of_Z 1) = countOr1 plant.
Proof.
  unfold countOr1. destruct (count plant) as [c | ]; [ | reflexivity ].
  unfold or_else. destruct (truthy c) eqn:E; [ now rewrite E | reflexivity ].
Qed.

End CarbonFacts.

(** The default [CarbonSequestrationComponent] fills in changes nothing:
    the calculator applies the same [count || 1] itself, so the total over
    [plantsWithCount] is the total over the plants as they are. *)
Theorem calculateSequestration_plantsWithCount (plants : list CarbonCalculator.Plant) :
  CarbonCalculator.calculateSequestration (plantsWithCount plants)
  = CarbonCalculator.calculateSequestration plants.
Proof.
  unfold CarbonCalculator.calculateSequestration, plantsWithCount.
  generalize (of_Z 0). induction plants as [ | p plants IH]; intros acc; [ reflexivity | ].
  cbn [map fold_left]. rewrite IH. f_equal. f_equal. f_equal.
  unfold CarbonCalculator.countOr1 at 1. cbn [CarbonCalculator.count].
  apply countOr1_idem.
Qed.

(** ** Community *)

Section ExchangeFacts.
Import CommunityUtils.
Variables R S : Type.

Let step (user : string) (balance : num) (transaction : Transaction) : num :=
  if String.eqb (to transaction) user then balance + amount transaction
  else if String.eqb (from transaction) user then balance - amount transaction
  else balance.

Lemma getBalance_addTransaction (this : Exchange R S) (f t r : string) (a now : num)
  (user : string) :
  getBalance (addTransaction this f t r a now) user
  = step user (getBalance this user)
      {| from := f; to := t; resource := r; amount := a; date := now |}.
Proof.
  unfold getBalance, addTransaction. cbn [transactions].
  rewrite fold_left_app. reflexivity.
Qed.

End ExchangeFacts.

(** A transaction between two different parties raises the balance of
    the receiver by the amount, lowers the balance of the sender by it,
    and leaves every other balance as it was. *)
Theorem addTransaction_moves_amount (R S : Type) (this : CommunityUtils.Exchange R S)
  (sender receiver resource : string) (amount now : num) :
  sender <> receiver ->
  let after := CommunityUtils.addTransaction this sender receiver resource amount now in
  CommunityUtils.getBalance after receiver = CommunityUtils.getBalance this receiver + amount
  /\ CommunityUtils.getBalance after sender = CommunityUtils.getBalance this sender - amount
  /\ (forall user, user <> sender -> user <> receiver ->
        CommunityUtils.getBalance after user = CommunityUtils.getBalance this user).
Proof.
  intros Hne after. unfold after. split; [ | split ].
  - rewrite getBalance_addTransaction. cbn [CommunityUtils.to CommunityUtils.amount].
    now rewrite String.eqb_refl.
  - rewrite getBalance_addTransaction.
    cbn [CommunityUtils.to CommunityUtils.from CommunityUtils.amount].
    replace (String.eqb receiver sender) with false
      by (symmetry; apply String.eqb_neq; congruence).
    now rewrite String.eqb_refl.
  - intros user Hs Hr. rewrite getBalance_addTransaction.
    cbn [CommunityUtils.to CommunityUtils.from CommunityUtils.amount].
    replace (String.eqb receiver user) with false
      by (symmetry; apply String.eqb_neq; congruence).
    replace (String.eqb sender user) with false
      by (symmetry; apply String.eqb_neq; congruence).
    reflexivity.
Qed.

Lemma addTransaction_moves_amount_witness :
  let before := CommunityUtils.createResourceExchange ["seeds"] ["grafting"] in
  let after := CommunityUtils.addTransaction before "asha" "biju" "seeds" (of_Z 3) noon in
  CommunityUtils.getBalance after "biju" = CommunityUtils.getBalance before "biju" + of_Z 3
  /\ CommunityUtils.getBalance after "asha" = CommunityUtils.getBalance before "asha" - of_Z 3
  /\ (forall user, user <> "asha" -> user <> "biju" ->
        CommunityUtils.getBalance after user = CommunityUtils.getBalance before user).
Proof.
  apply (@addTransaction_moves_amount _ _
           (CommunityUtils.createResourceExchange ["seeds"] ["grafting"])
           "asha" "biju" "seeds" (of_Z 3) noon).
  discriminate.
Defined.

(** ** The grid around the anchor has no neighbours *)







Section AnchorGrid.
Variable M : MathLib.
Variable rnd : Random.
Variables la ln step : Q.



Hypothesis wide : (3 # 1000 <= step)%Q.




End AnchorGrid.



(** ** The corners of the bounding box *)

Lemma Math_min_Fin_spec (a b : Q) :
  exists m, Math_min (Fin a) (Fin b) = Fin m /\ (m <= a)%Q /\ (m <= b)%Q.
Proof.
  unfold Math_min; simpl. destruct (a ?= b)%Q eqn:E.
  - apply Qeq_alt in E. exists a. repeat split; lra.
  - apply Qlt_alt in E. exists a. repeat split; lra.
  - apply Qgt_alt in E. exists b. repeat split; lra.
Qed.

Lemma Math_max_Fin_spec (a b : Q) :
  exists m, Math_max (Fin a) (Fin b) = Fin m /\ (a <= m)%Q /\ (b <= m)%Q.
Proof.
  unfold Math_max; simpl. destruct (a ?= b)%Q eqn:E.
  - apply Qeq_alt in E. exists a. repeat split; lra.
  - apply Qlt_alt in E. exists b. repeat split; lra.
  - apply Qgt_alt in E. exists a. repeat split; lra.
Qed.

(** The box of a ring of finite positions has finite corners, in order,
    and holds every vertex of the ring. *)
Lemma boundingBox_finite (coords : list Pair) :
  coords <> [] -> Forall finitePair coords ->
  exists south north west east,
    boundingBox coords
    = {| minLat := Fin south; maxLat := Fin north; minLng := Fin west; maxLng := Fin east |}
    /\ (south <= north)%Q /\ (west <= east)%Q
    /\ Forall (fun v => inBounds (boundingBox coords) (fst v) (snd v)) coords.
Proof.
  induction coords as [ | v coords IH] using rev_ind; [ congruence | ].
  intros _ Hfin. apply Forall_app in Hfin. destruct Hfin as [Hfin Hv].
  inversion Hv as [ | ? ? [Hx Hy] _]; subst.
  destruct v as [[ | | | x] [ | | | y]]; try discriminate. clear Hx Hy Hv.
  rewrite boundingBox_snoc. cbn [fst snd].
  destruct coords as [ | v0 coords0] eqn:Ec.
  - exists y, y, x, x. split; [ reflexivity | ]. split; [ lra | ]. split; [ lra | ].
    constructor; [ | constructor ].
    unfold inBounds. cbn. repeat split; apply leb_Fin; lra.
  - rewrite <- Ec in *.
    destruct IH as (s & n & w & e & Hbox & Hsn & Hwe & Hall);
      [ subst; discriminate | assumption | ].
    rewrite Hbox in *. cbn [minLat maxLat minLng maxLng] in *.
    destruct (Math_min_Fin_spec s y) as (s' & -> & Hs1 & Hs2).
    destruct (Math_max_Fin_spec n y) as (n' & -> & Hn1 & Hn2).
    destruct (Math_min_Fin_spec w x) as (w' & -> & Hw1 & Hw2).
    destruct (Math_max_Fin_spec e x) as (e' & -> & He1 & He2).
    exists s', n', w', e'. split; [ reflexivity | ]. split; [ lra | ]. split; [ lra | ].
    apply Forall_app. split.
    + eapply Forall_impl; [ | exact Hall ].
      intros [a b] (H1 & H2 & H3 & H4). unfold inBounds in *.
      cbn [fst snd minLat maxLat minLng maxLng] in *.
      destruct a as [ | | | a], b as [ | | | b]; try discriminate.
      apply leb_Fin in H1, H2, H3, H4. repeat split; apply leb_Fin; lra.
    + constructor; [ | constructor ]. unfold inBounds.
      cbn [fst snd minLat maxLat minLng maxLng].
      repeat split; apply leb_Fin; lra.
Qed.

(** ** The grid over a boundary *)

Section BoundaryGrid.
Variable M : MathLib.
Variable rnd : Random.

Lemma boundaryCell_position (b : Box) (p : Q) (i j draw : nat) (s n w e : Q) :
  b = {| minLat := Fin s; maxLat := Fin n; minLng := Fin w; maxLng := Fin e |} ->
  (0 < p)%Q ->
  lat (DEMUtils.boundaryCell M rnd b (Fin p) i j draw)
  = Fin (s + inject_Z (Z.of_nat i) / p * (n + - s))
  /\ lng (DEMUtils.boundaryCell M rnd b (Fin p) i j draw)
     = Fin (w + inject_Z (Z.of_nat j) / p * (e + - w)).
Proof.
  intros -> Hp. unfold DEMUtils.boundaryCell, demPoint. cbv zeta. cbn [lat lng].
  cbn [minLat maxLat minLng maxLng]. unfold of_nat, of_Z. cbn [sub add opp div].
  replace (Qis_zero p) with false
    by (symmetry; unfold Qis_zero; apply not_true_is_false; intros H;
        apply Qeq_bool_iff in H; lra).
  split; reflexivity.
Qed.

End BoundaryGrid.

Lemma generateDEM_inBounds (M : MathLib) (rnd : Random) (la ln radius : num)
  (boundary : BoundaryArg) (coords : list Pair) (k : nat) :
  outerRing boundary = Some coords ->
  coords <> [] -> Forall finitePair coords ->
  exists samples k',
    DEMUtils.generateDEM M rnd la ln radius boundary k = Some (samples, k')
    /\ (256 <= List.length samples)%nat
    /\ Forall (fun sample => inBounds (boundingBox coords) (lng sample) (lat sample)) samples.
Proof.
  intros Hring Hsome Hfin. unfold DEMUtils.generateDEM. rewrite Hring.
  destruct (boundingBox_finite Hsome Hfin) as (s & n & w & e & Hbox & Hsn & Hwe & _).
  rewrite Hbox. cbn [minLat maxLat minLng maxLng].
  change (of_Z 2000) with (Fin 2000). cbn [sub add opp mul Math_floor].
  unfold of_Z at 1 2.
  destruct (Math_max_Fin_spec (inject_Z 15) (inject_Z (Qfloor ((n + - s) * 2000))))
    as (p & Hp & Hp15 & _).
  change (inject_Z 15) with 15%Q in Hp15.
  rewrite Hp. unfold passes.
  replace (Qle_bool 0 p) with true by (symmetry; apply Qle_bool_iff; lra).
  eexists _, _. split; [ reflexivity | ].
  assert (Hfl : (15 <= Qfloor p)%Z).
  { apply Qfloor_resp_le in Hp15. exact Hp15. }
  split.
  - rewrite grid_length. nia.
  - apply Forall_forall. intros sample Hin. apply grid_In in Hin.
    destruct Hin as (i & j & Hi & Hj & ->).
    change (Math_max (of_Z 15) (of_Z (Qfloor ((n + - s) * 2000))))
      with (Math_max (Fin (inject_Z 15)) (Fin (inject_Z (Qfloor ((n + - s) * 2000))))).
    rewrite Hp.
    destruct (@boundaryCell_position M rnd
                {| minLat := Fin s; maxLat := Fin n; minLng := Fin w; maxLng := Fin e |}
                p i j (k + i * S (Z.to_nat (Qfloor p)) + j)%nat s n w e eq_refl ltac:(lra))
      as [-> ->].
    unfold inBounds. cbn [minLat maxLat minLng maxLng].
    assert (Hfrac : forall m, (m < S (Z.to_nat (Qfloor p)))%nat ->
              (0 <= inject_Z (Z.of_nat m) / p <= 1)%Q).
    { intros m Hm.
      assert (Hm0 : (0 <= inject_Z (Z.of_nat m))%Q)
        by (change 0%Q with (inject_Z 0); rewrite <- Zle_Qle; lia).
      assert (Hmp : (inject_Z (Z.of_nat m) <= p)%Q).
      { apply Qle_trans with (inject_Z (Qfloor p)); [ | apply Qfloor_le ].
        rewrite <- Zle_Qle. lia. }
      split.
      - apply Qle_shift_div_l; lra.
      - apply Qle_shift_div_r; lra. }
    pose proof (Hfrac i Hi) as [Hi0 Hi1]. pose proof (Hfrac j Hj) as [Hj0 Hj1].
    set (fi := (inject_Z (Z.of_nat i) / p)%Q) in *.
    set (fj := (inject_Z (Z.of_nat j) / p)%Q) in *.
    assert (H1 : (0 <= fi * (n + - s))%Q) by (apply Qmult_le_0_compat; lra).
    assert (H2 : (0 <= (1 - fi) * (n + - s))%Q) by (apply Qmult_le_0_compat; lra).
    assert (H3 : (0 <= fj * (e + - w))%Q) by (apply Qmult_le_0_compat; lra).
    assert (H4 : (0 <= (1 - fj) * (e + - w))%Q) by (apply Qmult_le_0_compat; lra).
    repeat split; apply leb_Fin; lra.
Qed.

(** The extremes of a ring are the corners of its bounding box. *)
Lemma extremes_boundingBox (coords : list Pair) (south north west east : Q) :
  extremes coords south north west east ->
  coords <> [] /\ Forall finitePair coords
  /\ exists s n w e,
       boundingBox coords
       = {| minLat := Fin s; maxLat := Fin n; minLng := Fin w; maxLng := Fin e |}
       /\ (s == south)%Q /\ (n == north)%Q /\ (w == west)%Q /\ (e == east)%Q.
Proof.
  intros (Hall & (vs & Hvs & Es) & (vn & Hvn & En) & (vw & Hvw & Ew) & (ve & Hve & Ee)).
  assert (Hsome : coords <> []) by (intros ->; exact Hvs).
  assert (Hfin : Forall finitePair coords).
  { eapply Forall_impl; [ | exact Hall ].
    intros v (x & y & -> & _). split; reflexivity. }
  split; [ exact Hsome | ]. split; [ exact Hfin | ].
  destruct (boundingBox_extremes Hsome Hfin) as (s & n & w & e & Hbox & Hext).
  destruct Hext as (Hall' & (vs' & Hvs' & Es') & (vn' & Hvn' & En')
                    & (vw' & Hvw' & Ew') & (ve' & Hve' & Ee')).
  exists s, n, w, e. split; [ exact Hbox | ].
  rewrite Forall_forall in Hall, Hall'.
  destruct (Hall _ Hvs') as (x1 & y1 & -> & _ & Hy1).
  destruct (Hall _ Hvn') as (x2 & y2 & -> & _ & Hy2).
  destruct (Hall _ Hvw') as (x3 & y3 & -> & Hx3 & _).
  destruct (Hall _ Hve') as (x4 & y4 & -> & Hx4 & _).
  destruct (Hall' _ Hvs) as (x5 & y5 & -> & _ & Hy5).
  destruct (Hall' _ Hvn) as (x6 & y6 & -> & _ & Hy6).
  destruct (Hall' _ Hvw) as (x7 & y7 & -> & Hx7 & _).
  destruct (Hall' _ Hve) as (x8 & y8 & -> & Hx8 & _).
  cbn [fst snd] in *.
  injection Es' as ->. injection En' as ->. injection Ew' as ->. injection Ee' as ->.
  injection Es as ->. injection En as ->. injection Ew as ->. injection Ee as ->.
  repeat split; lra.
Qed.

(** Over a boundary whose outer ring has finite positions, [generateDEM]
    returns at least 256 samples, and each lies between the extremes of
    the ring: no further south, north, west or east than its outermost
    vertices. *)
Theorem generateDEM_within_box (M : MathLib) (rnd : Random) (la ln radius : num)
  (boundary : BoundaryArg) (coords : list Pair) (k : nat) (south north west east : Q) :
  outerRing boundary = Some coords ->
  extremes coords south north west east ->
  exists samples k',
    DEMUtils.generateDEM M rnd la ln radius boundary k = Some (samples, k')
    /\ (256 <= List.length samples)%nat
    /\ Forall (inExtent south north west east) samples.
Proof.
  intros Hring Hext.
  destruct (extremes_boundingBox Hext)
    as (Hsome & Hfin & s & n & w & e & Hbox & Hs & Hn & Hw & He).
  destruct (@generateDEM_inBounds M rnd la ln radius boundary coords k Hring Hsome Hfin)
    as (samples & k' & Hrun & Hlen & Hin).
  exists samples, k'. split; [ exact Hrun | ]. split; [ exact Hlen | ].
  eapply Forall_impl; [ | exact Hin ].
  intros sample (H1 & H2 & H3 & H4). rewrite Hbox in H1, H2, H3, H4.
  cbn [minLat maxLat minLng maxLng] in H1, H2, H3, H4.
  destruct (lng sample) as [ | | | o] eqn:Eo; try discriminate.
  destruct (lat sample) as [ | | | a] eqn:Ea; try discriminate.
  apply leb_Fin in H1, H2, H3, H4.
  exists a, o. split; [ exact Ea | ]. split; [ exact Eo | ]. split; lra.
Qed.

(** The field between longitude 76 and 76.001, latitude 10 and 10.001. *)
Lemma generateDEM_within_box_witness :
  exists samples k',
    DEMUtils.generateDEM coarseMath steadyDraws (of_Z 10) (of_Z 76) (dec 5 2) (BFeature field) 0
    = Some (samples, k')
    /\ (256 <= List.length samples)%nat
    /\ Forall (inExtent 10 (10001 # 1000) 76 (76001 # 1000)) samples.
Proof.
  apply (@generateDEM_within_box coarseMath steadyDraws (of_Z 10) (of_Z 76) (dec 5 2)
           (BFeature field) fieldRing 0 10 (10001 # 1000) 76 (76001 # 1000)).
  - reflexivity.
  - unfold extremes, fieldRing. split; [ | split; [ | split; [ | split ] ] ].
    + repeat (apply Forall_cons;
                [ eexists _, _; (split; [ reflexivity | ]);
                  split; split; apply Qle_bool_iff; reflexivity | ]).
      apply Forall_nil.
    + exists (of_Z 76, of_Z 10). split; [ simpl; tauto | reflexivity ].
    + exists (of_Z 76, dec 10001 3). split; [ simpl; tauto | reflexivity ].
    + exists (of_Z 76, of_Z 10). split; [ simpl; tauto | reflexivity ].
    + exists (dec 76001 3, of_Z 10). split; [ simpl; tauto | reflexivity ].
Defined.

(** ** The highest and the lowest samples *)

Lemma ascending_keeps (x y : Sample) :
  finiteElevation x -> finiteElevation y ->
  (elevation x - elevation y >? of_Z 0) = false -> notUp y x.
Proof.
  unfold finiteElevation, notUp, gtb.
  destruct (elevation x) as [ | | | ex], (elevation y) as [ | | | ey]; try discriminate.
  intros _ _ H. apply leb_Fin. apply ltb_Fin_false in H.
  change (inject_Z 0) with 0%Q in H. lra.
Qed.

Lemma ascending_swaps (x y : Sample) :
  finiteElevation x -> finiteElevation y ->
  (elevation x - elevation y >? of_Z 0) = true -> notUp x y.
Proof.
  unfold finiteElevation, notUp, gtb.
  destruct (elevation x) as [ | | | ex], (elevation y) as [ | | | ey]; try discriminate.
  intros _ _ H. apply leb_Fin. apply ltb_Fin in H.
  change (inject_Z 0) with 0%Q in H. lra.
Qed.

Lemma StronglySorted_firstn (A : Type) (R : A -> A -> Prop) (n : nat) (l : list A) :
  StronglySorted R l -> StronglySorted R (firstn n l).
Proof.
  intros Hs. revert n. induction Hs as [ | a l Hs IH Ha]; intros [ | n]; simpl;
    try constructor.
  - apply IH.
  - apply Forall_forall. intros x Hx. rewrite Forall_forall in Ha. apply Ha.
    rewrite <- (firstn_skipn n l). apply in_or_app. now left.
Qed.

(** [findHighPoints] returns the [count] highest samples, all of them
    when there are fewer, the highest first: the result is a part of the
    input, in non-increasing order of elevation, and no sample left out
    is higher than a sample returned. *)
Theorem findHighPoints_highest (topography : list Sample) (count : nat) :
  Forall finiteElevation topography ->
  exists rest,
    Permutation (DEMUtils.findHighPoints topography count ++ rest) topography
    /\ List.length (DEMUtils.findHighPoints topography count)
       = Nat.min count (List.length topography)
    /\ StronglySorted notUp (DEMUtils.findHighPoints topography count)
    /\ (forall x y, In x (DEMUtils.findHighPoints topography count) -> In y rest -> notUp x y).
Proof.
  intros Hfin. unfold DEMUtils.findHighPoints.
  set (cmp := fun a b : Sample => elevation b - elevation a).
  assert (Hs : StronglySorted notUp (sort cmp topography)).
  { apply sort_sorted with (P := finiteElevation); try assumption.
    - exact leb_trans_finite.
    - intros a b. apply descending_keeps.
    - intros a b. apply descending_swaps. }
  exists (skipn count (sort cmp topography)). split; [ | split; [ | split ] ].
  - rewrite firstn_skipn. apply sort_perm.
  - rewrite length_firstn. now rewrite (Permutation_length (sort_perm cmp topography)).
  - now apply StronglySorted_firstn.
  - intros x y Hx Hy.
    now apply sorted_firstn_skipn with (n := count) (l := sort cmp topography).
Qed.

(** [findLowPoints] returns the [count] lowest samples, all of them when
    there are fewer, the lowest first: the result is a part of the input,
    in non-decreasing order of elevation, and no sample left out is lower
    than a sample returned. *)
Theorem findLowPoints_lowest (topography : list Sample) (count : nat) :
  Forall finiteElevation topography ->
  exists rest,
    Permutation (DEMUtils.findLowPoints topography count ++ rest) topography
    /\ List.length (DEMUtils.findLowPoints topography count)
       = Nat.min count (List.length topography)
    /\ StronglySorted (fun a b => notUp b a) (DEMUtils.findLowPoints topography count)
    /\ (forall x y, In x (DEMUtils.findLowPoints topography count) -> In y rest -> notUp y x).
Proof.
  intros Hfin. unfold DEMUtils.findLowPoints.
  set (cmp := fun a b : Sample => elevation a - elevation b).
  assert (Hs : StronglySorted (fun a b => notUp b a) (sort cmp topography)).
  { apply sort_sorted with (P := finiteElevation); try assumption.
    - intros a b c Ha Hb Hc H1 H2. now apply leb_trans_finite with b.
    - intros a b. apply ascending_keeps.
    - intros a b. apply ascending_swaps. }
  exists (skipn count (sort cmp topography)). split; [ | split; [ | split ] ].
  - rewrite firstn_skipn. apply sort_perm.
  - rewrite length_firstn. now rewrite (Permutation_length (sort_perm cmp topography)).
  - now apply StronglySorted_firstn.
  - intros x y Hx Hy.
    now apply (@sorted_firstn_skipn _ (fun a b => notUp b a) count (sort cmp topography)).
Qed.

Lemma findHighPoints_highest_witness :
  exists rest,
    Permutation (DEMUtils.findHighPoints ramp 2 ++ rest) ramp
    /\ List.length (DEMUtils.findHighPoints ramp 2) = Nat.min 2 (List.length ramp)
    /\ StronglySorted notUp (DEMUtils.findHighPoints ramp 2)
    /\ (forall x y, In x (DEMUtils.findHighPoints ramp 2) -> In y rest -> notUp x y).
Proof.
  apply (@findHighPoints_highest ramp 2). repeat constructor.
Defined.

Lemma findLowPoints_lowest_witness :
  exists rest,
    Permutation (DEMUtils.findLowPoints ramp 2 ++ rest) ramp
    /\ List.length (DEMUtils.findLowPoints ramp 2) = Nat.min 2 (List.length ramp)
    /\ StronglySorted (fun a b => notUp b a) (DEMUtils.findLowPoints ramp 2)
    /\ (forall x y, In x (DEMUtils.findLowPoints ramp 2) -> In y rest -> notUp y x).
Proof.
  apply (@findLowPoints_lowest ramp 2). repeat constructor.
Defined.

(** ** Natural patterns *)

Section PatternFacts.
Variable M : MathLib.
Hypothesis M_ok : MathLib_ok M.

Lemma step_within (x0 L c : Q) :
  (0 <= L)%Q -> (-1 <= c <= 1)%Q -> (Qabs (x0 + L * c - x0) <= L)%Q.
Proof.
  intros HL Hc. apply Qabs_Qle_condition.
  assert (H1 : (0 <= L * (1 - c))%Q) by (apply Qmult_le_0_compat; lra).
  assert (H2 : (0 <= L * (1 + c))%Q) by (apply Qmult_le_0_compat; lra).
  lra.
Qed.

Lemma within_step (x0 y0 x1 y1 L : Q) (p : Pair) :
  (Qabs (x1 - x0) <= L)%Q -> (Qabs (y1 - y0) <= L)%Q ->
  within x1 y1 ((10 # 3) * (L * (7 # 10))) p -> within x0 y0 ((10 # 3) * L) p.
Proof.
  intros Hx Hy (x & y & -> & Hx' & Hy'). exists x, y. split; [ reflexivity | ].
  apply Qabs_Qle_condition in Hx, Hy, Hx', Hy'.
  split; apply Qabs_Qle_condition; lra.
Qed.

Lemma branching_tree_from (g : nat) :
  forall (depth : nat) (sx sy a L q : Q),
    (g < depth)%nat -> (0 <= L)%Q -> (q == inject_Z (Z.of_nat g))%Q ->
    exists pts,
      NaturalPatterns.branching M depth (Fin sx, Fin sy) (Fin a) (Fin L) (Fin q) = Some pts
      /\ List.length pts = (2 ^ S g - 1)%nat
      /\ hd_error pts = Some (Fin sx, Fin sy)
      /\ Forall (within sx sy ((10 # 3) * L)) pts.
Proof.
  induction g as [ | g IH]; intros depth sx sy a L q Hd HL Hq;
    (destruct depth as [ | depth]; [ lia | ]); cbn [NaturalPatterns.branching].
  - replace (Fin q <=? of_Z 0) with true
      by (symmetry; apply leb_Fin; rewrite Hq; apply Qle_refl).
    exists [(Fin sx, Fin sy)]. repeat split.
    constructor; [ | constructor ]. exists sx, sy. split; [ reflexivity | ].
    split; apply Qabs_Qle_condition; lra.
  - replace (Fin q <=? of_Z 0) with false.
    2:{ symmetry. destruct (Fin q <=? of_Z 0) eqn:E; [ | reflexivity ].
        apply leb_Fin in E. rewrite Hq in E. change (inject_Z 0) with 0%Q in E.
        rewrite <- (Zle_Qle _ 0) in E. lia. }
    assert (Hpi : Math_PI / of_Z 4 = Fin (Math_PI_Q / inject_Z 4)) by reflexivity.
    rewrite Hpi. change (dec 7 1) with (Fin (7 # 10)). change (of_Z 1) with (Fin 1).
    cbn [fst snd sub add opp mul Math_cos Math_sin].
    set (la := (a + - (Math_PI_Q / inject_Z 4))%Q).
    set (ra := (a + Math_PI_Q / inject_Z 4)%Q).
    assert (Hq' : (q + Qopp 1 == inject_Z (Z.of_nat g))%Q).
    { rewrite Hq. rewrite Nat2Z.inj_succ. unfold Z.succ. rewrite inject_Z_plus.
      change (inject_Z 1) with 1%Q. ring. }
    assert (HL' : (0 <= L * (7 # 10))%Q) by (apply Qmult_le_0_compat; lra).
    destruct (IH depth (sx + L * cosQ M la)%Q (sy + L * sinQ M la)%Q la (L * (7 # 10))%Q
                (q + Qopp 1)%Q ltac:(lia) HL' Hq') as (lp & -> & Hll & _ & Hlw).
    destruct (IH depth (sx + L * cosQ M ra)%Q (sy + L * sinQ M ra)%Q ra (L * (7 # 10))%Q
                (q + Qopp 1)%Q ltac:(lia) HL' Hq') as (rp & -> & Hrl & _ & Hrw).
    eexists. split; [ reflexivity | ]. split; [ | split; [ reflexivity | ] ].
    + cbn [List.length]. rewrite length_app, Hll, Hrl.
      assert (Hpos : (1 <= 2 ^ S g)%nat) by (apply Nat.neq_0_lt_0, Nat.pow_nonzero; lia).
      change (2 ^ S (S g))%nat with (2 * 2 ^ S g)%nat. lia.
    + constructor.
      * exists sx, sy. split; [ reflexivity | ].
        split; apply Qabs_Qle_condition; lra.
      * apply Forall_app. split.
        -- eapply Forall_impl; [ | exact Hlw ]. intros p. apply within_step.
           ++ apply step_within; [ exact HL | apply (cos_range M_ok) ].
           ++ apply step_within; [ exact HL | apply (sin_range M_ok) ].
        -- eapply Forall_impl; [ | exact Hrw ]. intros p. apply within_step.
           ++ apply step_within; [ exact HL | apply (cos_range M_ok) ].
           ++ apply step_within; [ exact HL | apply (sin_range M_ok) ].
Qed.

End PatternFacts.

(** The branching pattern of [generations] generations is a full binary
    tree: 2^(generations + 1) - 1 points, the start first, each within
    10/3 of the first length from the start on each axis (the lengths
    shrink by 0.7 from one generation to the next). *)
Theorem branching_tree (M : MathLib) (generations depth : nat) (sx sy angle length : Q) :
  MathLib_ok M -> (generations < depth)%nat -> (0 <= length)%Q ->
  exists pts,
    NaturalPatterns.branching M depth (Fin sx, Fin sy) (Fin angle) (Fin length)
      (of_nat generations) = Some pts
    /\ List.length pts = (2 ^ S generations - 1)%nat
    /\ hd_error pts = Some (Fin sx, Fin sy)
    /\ Forall (within sx sy ((10 # 3) * length)) pts.
Proof.
  intros HM Hd HL. apply branching_tree_from; try assumption. reflexivity.
Qed.

Lemma branching_tree_witness :
  exists pts,
    NaturalPatterns.branching coarseMath 4 (Fin 10, Fin 76) (Fin 0) (Fin (1 # 100))
      (of_nat 3) = Some pts
    /\ List.length pts = (2 ^ 4 - 1)%nat
    /\ hd_error pts = Some (Fin 10, Fin 76)
    /\ Forall (within 10 76 ((10 # 3) * (1 # 100))) pts.
Proof.
  apply (@branching_tree coarseMath 3 4 10 76 0 (1 # 100)).
  - apply coarseMath_ok.
  - lia.
  - lra.
Defined.




(** ** Plant recommendations *)

Section PlantFacts.
Import Plants.

Lemma of_nat_sub_gtb (m n : nat) :
  (of_nat m - of_nat n >? of_Z 0) = true <-> (n < m)%nat.
Proof.
  unfold gtb, of_nat, of_Z. cbn [sub add opp]. rewrite ltb_Fin.
  change (inject_Z 0) with 0%Q.
  rewrite <- inject_Z_opp, <- inject_Z_plus. change 0%Q with (inject_Z 0).
  rewrite <- Zlt_Qlt. lia.
Qed.

Lemma filterByWaterRequirement_In (plants : list Plant) (w : string) (q : Plant) :
  In q (filterByWaterRequirement plants w) <->
  In q plants /\ filterByWaterRequirement [q] w = [q].
Proof.
  unfold filterByWaterRequirement. rewrite filter_In. cbn [filter].
  split; intros [H1 H2]; (split; [ exact H1 | ]).
  - rewrite H2. reflexivity.
  - destruct (match waterRequirement q with Some _ => _ | None => _ end);
      [ reflexivity | discriminate H2 ].
Qed.

Lemma filterBySunlight_In (plants : list Plant) (h : num) (q : Plant) :
  In q (filterBySunlight plants h) <->
  In q plants /\ filterBySunlight [q] h = [q].
Proof.
  unfold filterBySunlight. rewrite filter_In. cbn [filter].
  split; intros [H1 H2]; (split; [ exact H1 | ]).
  - rewrite H2. reflexivity.
  - destruct (match sunlightRequirement q with Some _ => _ | None => _ end);
      [ reflexivity | discriminate H2 ].
Qed.

Lemma recommendPlants_from (plants : list Plant) (env : Env) (plantFilter : PlantFilter)
  (q : Plant) :
  In q (filter (fun p =>
              if negb (String.eqb (function plantFilter) "")
                 && negb (hasFunction p (function plantFilter))
              then false
              else if String.eqb (edibility plantFilter) "edible"
                      && negb (hasFunction p "food")
                      && negb (hasFunction p "cash crop")
              then false
              else true)
          (filterBySunlight
             (filterByWaterRequirement (filter (fun p => suitability p env) plants)
                (waterAvailabilityOf env))
             (sunHours env))) ->
  In q plants /\ suitability q env = true
  /\ filterByWaterRequirement [q] (waterAvailabilityOf env) = [q]
  /\ filterBySunlight [q] (sunHours env) = [q]
  /\ (String.eqb (edibility plantFilter) "edible" = true ->
      hasFunction q "food" = true \/ hasFunction q "cash crop" = true)
  /\ (function plantFilter <> "" -> hasFunction q (function plantFilter) = true).
Proof.
  intros H. apply filter_In in H. destruct H as [H Hother].
  apply filterBySunlight_In in H. destruct H as [H Hsun].
  apply filterByWaterRequirement_In in H. destruct H as [H Hwater].
  apply filter_In in H. destruct H as [Hin Hsuit].
  split; [ exact Hin | ]. split; [ exact Hsuit | ].
  split; [ exact Hwater | ]. split; [ exact Hsun | ].
  split.
  - intros He. rewrite He in Hother.
    destruct (negb (String.eqb (function plantFilter) "")
              && negb (hasFunction q (function plantFilter))); [ discriminate | ].
    destruct (hasFunction q "food"); [ now left | ].
    destruct (hasFunction q "cash crop"); [ now right | discriminate ].
  - intros Hf. apply String.eqb_neq in Hf. rewrite Hf in Hother.
    destruct (hasFunction q (function plantFilter)); [ reflexivity | discriminate ].
Qed.

Lemma recommendPlants_In (env : Env) (plantFilter : PlantFilter) (p : Plant) :
  In p (recommendPlants env plantFilter) ->
  exists q,
    p = scored q /\ In q PLANTS /\ suitability q env = true
    /\ filterByWaterRequirement [q] (waterAvailabilityOf env) = [q]
    /\ filterBySunlight [q] (sunHours env) = [q]
    /\ (String.eqb (edibility plantFilter) "edible" = true ->
        hasFunction q "food" = true \/ hasFunction q "cash crop" = true)
    /\ (function plantFilter <> "" -> hasFunction q (function plantFilter) = true).
Proof.
  unfold recommendPlants. cbv zeta. intros H.
  eapply Permutation_in in H; [ | apply sort_perm ]. apply in_map_iff in H.
  destruct H as (q & <- & H). exists q. split; [ reflexivity | ].
  exact (recommendPlants_from PLANTS env plantFilter q H).
Qed.

End PlantFacts.

(** The recommendations come sorted by score, highest first, and each is
    an entry of [PLANTS] carrying its number of functions as score: one
    that is suitable for [env], passes the water and the sunlight filter,
    serves the function asked for when one is, and under the "edible"
    filter is a food or a cash crop. *)
Theorem recommendPlants_sound (env : Plants.Env) (plantFilter : Plants.PlantFilter) :
  StronglySorted noFewerFunctions (Plants.recommendPlants env plantFilter)
  /\ forall p, In p (Plants.recommendPlants env plantFilter) ->
       exists q, p = Plants.scored q /\ In q Plants.PLANTS
                 /\ Plants.suitability q env = true
                 /\ In q (Plants.filterByWaterRequirement Plants.PLANTS
                            (Plants.waterAvailabilityOf env))
                 /\ In q (Plants.filterBySunlight Plants.PLANTS (Plants.sunHours env))
                 /\ (Plants.edibility plantFilter = "edible" ->
                     Plants.hasFunction q "food" = true
                     \/ Plants.hasFunction q "cash crop" = true)
                 /\ (Plants.function plantFilter <> "" ->
                     Plants.hasFunction q (Plants.function plantFilter) = true).
Proof.
  split.
  - unfold Plants.recommendPlants.
    apply sort_sorted with (P := carriesScore).
    + unfold noFewerFunctions. intros a b c _ _ _ H1 H2. lia.
    + intros x y Hx Hy H. unfold carriesScore in Hx, Hy. unfold Plants.scoreOf in H.
      rewrite Hx, Hy in H. unfold noFewerFunctions.
      destruct (Nat.le_gt_cases (List.length (Plants.functions y))
                  (List.length (Plants.functions x))) as [L | L]; [ exact L | ].
      apply of_nat_sub_gtb in L. congruence.
    + intros x y Hx Hy H. unfold carriesScore in Hx, Hy. unfold Plants.scoreOf in H.
      rewrite Hx, Hy in H. apply of_nat_sub_gtb in H. unfold noFewerFunctions. lia.
    + apply Forall_forall. intros p Hp. apply in_map_iff in Hp.
      destruct Hp as (q & <- & _). reflexivity.
  - intros p Hp. apply recommendPlants_In in Hp.
    destruct Hp as (q & E & Hin & Hs & Hw & Hsun & He & Hf).
    exists q. split; [ exact E | ]. split; [ exact Hin | ]. split; [ exact Hs | ].
    split; [ exact (proj2 (filterByWaterRequirement_In Plants.PLANTS _ q) (conj Hin Hw)) | ].
    split; [ exact (proj2 (filterBySunlight_In Plants.PLANTS _ q) (conj Hin Hsun)) | ].
    split; [ | exact Hf ].
    intros Hed. apply He. rewrite Hed. reflexivity.
Qed.

(** On a site with more than 2000 mm of rain a year no recommended plant
    has a water requirement of "low", "moderate" or "high": the
    availability is then "very high", a label under which the water
    filter keeps only the plants that require "very high" and those whose
    requirement is none of the four labels it knows. *)
Theorem recommendPlants_wet_site (env : Plants.Env) (plantFilter : Plants.PlantFilter)
  (p : Plants.Plant) (label : string) :
  (Plants.avgRainfallMm env >? of_Z 2000) = true ->
  In p (Plants.recommendPlants env plantFilter) ->
  Plants.waterRequirement p = Some label ->
  ~ In label modestWaterLabels.
Proof.
  intros Hwet Hp Hlabel. apply recommendPlants_In in Hp.
  destruct Hp as (q & -> & _ & _ & Hw & _). cbn [Plants.scored Plants.waterRequirement] in Hlabel.
  unfold Plants.filterByWaterRequirement in Hw. cbn [filter] in Hw.
  rewrite Hlabel in Hw.
  unfold Plants.waterAvailabilityOf in Hw. rewrite Hwet in Hw.
  intros [<- | [<- | [<- | []]]]; discriminate Hw.
Qed.

(** Pokkali rice on the wetland. *)
Lemma recommendPlants_wet_site_witness :
  (Plants.avgRainfallMm wetland >? of_Z 2000) = true
  /\ In pokkaliRice (Plants.recommendPlants wetland allPlants)
  /\ Plants.waterRequirement pokkaliRice = Some "very high"
  /\ ~ In "very high" modestWaterLabels.
Proof.
  assert (Hin : In pokkaliRice (Plants.recommendPlants wetland allPlants)).
  { vm_compute. tauto. }
  split; [ reflexivity | ]. split; [ exact Hin | ]. split; [ reflexivity | ].
  exact (@recommendPlants_wet_site wetland allPlants pokkaliRice "very high"
           eq_refl Hin eq_refl).
Defined.
